(** * The model-flow serialization engine of openml-python, embedded in Rocq

    Sources embedded here:
    - [openml/flows/flow.py]: the class [OpenMLFlow] (construction, [_to_dict],
      [get_structure], [get_subflow], [_copy_server_fields]);
    - [openml/extensions/sklearn/extension.py]: the class [SklearnExtension]
      (the forward walker [model_to_flow], the inverse walker [flow_to_model],
      the duplicate check, the guard on [n_jobs]).

    Python values are dynamically typed; they are embedded as the inductive
    types [scalar] (what a flow attribute may hold) and [pyval] (what the
    walkers traverse).  An exception is a value of [exn]; a call that may raise
    returns a [result].  Floating point numbers are left out of the value
    universe. *)

From Stdlib Require Import ZArith Lia Bool Ascii String List.
From Stdlib Require Import Decimal DecimalFacts DecimalString DecimalZ.
From stdpp Require Import base decidable countable gmap strings list.

Set Warnings "-register-all".

Open Scope Z_scope.
Open Scope string_scope.
Open Scope list_scope.


(** ** Exceptions and results *)

(** The exception classes the embedded code raises.  The message is the fixed
    part of the text the source formats; it tells the raise sites apart. *)
Inductive exn : Type :=
| ValueError (msg : string)
| TypeError (msg : string)
| KeyError (msg : string)
| IndexError (msg : string)
| AttributeError (msg : string)
| ImportError (msg : string)
| PyOpenMLError (msg : string)
| AssertionError
| RecursionError.

Inductive result (A : Type) : Type :=
| Ok (a : A)
| Raise (e : exn).
Arguments Ok {A} a.
Arguments Raise {A} e.

Definition bind {A B : Type} (m : result A) (k : A -> result B) : result B :=
  match m with
  | Ok a => k a
  | Raise e => Raise e
  end.

Notation "'let*' x ':=' m 'in' k" := (bind m (fun x => k))
  (at level 10, x pattern, m at level 100, k at level 200).

Definition is_ok {A : Type} (r : result A) : bool :=
  match r with Ok _ => true | Raise _ => false end.

#[global] Instance exn_eq_dec : EqDecision exn.
Proof. solve_decision. Defined.

(** ** Scalars: what an attribute of a flow may hold *)

Inductive scalar : Type :=
| SNone
| SBool (b : bool)
| SInt (z : Z)
| SStr (s : string).

#[global] Instance scalar_eq_dec : EqDecision scalar.
Proof. solve_decision. Defined.

(** [isinstance(v, str)] and [v is None]. *)
Definition is_str (v : scalar) : bool :=
  match v with SStr _ => true | _ => false end.
Definition is_none (v : scalar) : bool :=
  match v with SNone => true | _ => false end.

(** Python hashes and compares [True] as [1] and [False] as [0]: as keys of a
    dict or members of a set two scalars are the same when [scalar_key]
    agrees on them. *)
Definition scalar_key (v : scalar) : scalar :=
  match v with
  | SBool b => SInt (Z.b2z b)
  | _ => v
  end.

Definition key_eqb (a b : scalar) : bool :=
  bool_decide (scalar_key a = scalar_key b).

Definition scalar_sum (v : scalar) : unit + (bool + (Z + string)) :=
  match v with
  | SNone => inl tt
  | SBool b => inr (inl b)
  | SInt z => inr (inr (inl z))
  | SStr s => inr (inr (inr s))
  end.

Definition sum_scalar (x : unit + (bool + (Z + string))) : scalar :=
  match x with
  | inl _ => SNone
  | inr (inl b) => SBool b
  | inr (inr (inl z)) => SInt z
  | inr (inr (inr s)) => SStr s
  end.

#[global] Instance scalar_countable : Countable scalar.
Proof.
  apply (inj_countable' scalar_sum sum_scalar).
  intros []; reflexivity.
Defined.

(** ** Insertion-ordered dictionaries

    A Python [dict] or [OrderedDict] is a list of items in insertion order;
    [eqb] is the equality of its keys. *)
Section Dict.
Context {K A : Type} (eqb : K -> K -> bool).

Fixpoint dict_get (k : K) (d : list (K * A)) : option A :=
match d with
| [] => None
| (k', v) :: d' => if eqb k' k then Some v else dict_get k d'
end.

Definition dict_in (k : K) (d : list (K * A)) : bool :=
match dict_get k d with Some _ => true | None => false end.

(** [d[k] = v]: an existing key keeps its place, a new one goes last. *)
Fixpoint dict_set (k : K) (v : A) (d : list (K * A)) : list (K * A) :=
match d with
| [] => [(k, v)]
| (k', v') :: d' =>
  if eqb k' k then (k', v) :: d' else (k', v') :: dict_set k v d'
end.

(** [del d[k]], for a key that is present. *)
Fixpoint dict_del (k : K) (d : list (K * A)) : list (K * A) :=
match d with
| [] => []
| (k', v') :: d' => if eqb k' k then d' else (k', v') :: dict_del k d'
end.

Definition dict_keys (d : list (K * A)) : list K := map fst d.
Definition dict_values (d : list (K * A)) : list A := map snd d.

(** [k in ks] for a list or set of keys. *)
Definition key_in (k : K) (ks : list K) : bool := existsb (fun k' => eqb k' k) ks.
End Dict.

(** ** The flow entity ([openml/flows/flow.py]) *)

(** The value of [parameters_meta_info[key]]: a mapping with the required keys
    [description] and [data_type]. *)
Record meta_info : Type := MetaInfo {
  meta_description : scalar;
  meta_data_type : scalar
}.

(** An [OpenMLFlow] object.  [parameters] maps a parameter name to its stored
    default, [components] an identifier to a sub-flow.  The attribute [model]
    (the live model a flow was made from) and [_extension] are not part of the
    embedding: none of the embedded functions reads them. *)
Inductive flow : Type := Flow {
  name : scalar;
  description : scalar;
  components : list (string * flow);
  parameters : list (scalar * scalar);
  parameters_meta_info : list (scalar * meta_info);
  external_version : scalar;
  tags : list scalar;
  language : scalar;
  dependencies : scalar;
  class_name : scalar;
  custom_name : scalar;
  binary_url : scalar;
  binary_format : scalar;
  binary_md5 : scalar;
  uploader : scalar;
  upload_date : scalar;
  flow_id : scalar;
  version : scalar
}.

(** [set(a).difference(set(b))], as the list of the keys of [a] not in [b]. *)
Definition keys_difference (a b : list scalar) : list scalar :=
  List.filter (fun k => negb (key_in key_eqb k b)) a.

(** [OpenMLFlow.__init__].  The three mappings are typed as ordered
    dictionaries here, so the [TypeError] of the source for another type has
    no input; [tags] is [None] or a list. *)
Definition OpenMLFlow_init
    (name description : scalar) (components : list (string * flow))
    (parameters : list (scalar * scalar))
    (parameters_meta_info : list (scalar * meta_info))
    (external_version : scalar) (tags : option (list scalar))
    (language dependencies class_name custom_name binary_url binary_format
       binary_md5 uploader upload_date flow_id version : scalar)
    : result flow :=
  let keys_parameters := dict_keys parameters in
  let keys_parameters_meta_info := dict_keys parameters_meta_info in
  if (0 <? length (keys_difference keys_parameters keys_parameters_meta_info))%nat
  then Raise (ValueError "only in parameters, but not in parameters_meta_info")
  else if (0 <? length (keys_difference keys_parameters_meta_info keys_parameters))%nat
  then Raise (ValueError "only in parameters_meta_info, but not in parameters")
  else Ok {| name := name; description := description;
             components := components; parameters := parameters;
             parameters_meta_info := parameters_meta_info;
             external_version := external_version;
             tags := match tags with Some t => t | None => [] end;
             language := language; dependencies := dependencies;
             class_name := class_name; custom_name := custom_name;
             binary_url := binary_url; binary_format := binary_format;
             binary_md5 := binary_md5; uploader := uploader;
             upload_date := upload_date; flow_id := flow_id;
             version := version |}.

(** *** [_to_dict]: the structured document of a flow *)

Inductive doc : Type :=
| DScalar (v : scalar)
| DList (l : list doc)
| DDict (d : list (string * doc)).

Definition _add_if_nonempty (dic : list (string * doc)) (key : string)
    (value : scalar) : list (string * doc) :=
  if is_none value then dic else dict_set String.eqb key (DScalar value) dic.

(** The check of one item of [param_dict]: the keys are the literal
    [oml:...] strings, so only the value can fail it. *)
Definition check_param_item (value : doc) : result unit :=
  match value with
  | DScalar v =>
      if negb (is_none v) && negb (is_str v)
      then Raise (ValueError "Parameter value cannot be serialized")
      else Ok tt
  | _ => Raise (ValueError "Parameter value cannot be serialized")
  end.

Fixpoint check_param_items (items : list (string * doc)) : result unit :=
  match items with
  | [] => Ok tt
  | (_, value) :: items' =>
      let* _ := check_param_item value in check_param_items items'
  end.

(** The body of the loop over [self.parameters]: one [param_dict]. *)
Definition param_to_dict (parameters : list (scalar * scalar))
    (parameters_meta_info : list (scalar * meta_info)) (key : scalar)
    : result doc :=
  let param_dict := [("oml:name", DScalar key)] in
  match dict_get key_eqb key parameters_meta_info with
  | None => Raise (KeyError "parameters_meta_info")
  | Some meta =>
      let param_dict := _add_if_nonempty param_dict "oml:data_type" (meta_data_type meta) in
      match dict_get key_eqb key parameters with
      | None => Raise (KeyError "parameters")
      | Some default_value =>
          let param_dict :=
            dict_set String.eqb "oml:default_value" (DScalar default_value) param_dict in
          let param_dict :=
            _add_if_nonempty param_dict "oml:description" (meta_description meta) in
          let* _ := check_param_items param_dict in
          Ok (DDict param_dict)
      end
  end.

Fixpoint params_to_dict (parameters : list (scalar * scalar))
    (parameters_meta_info : list (scalar * meta_info)) (keys : list scalar)
    : result (list doc) :=
  match keys with
  | [] => Ok []
  | key :: keys' =>
      let* param_dict := param_to_dict parameters parameters_meta_info key in
      let* rest := params_to_dict parameters parameters_meta_info keys' in
      Ok (param_dict :: rest)
  end.

(** [_add_if_nonempty] over a list of attributes, in order. *)
Fixpoint add_attributes (dic : list (string * doc))
    (attrs : list (string * scalar)) : list (string * doc) :=
  match attrs with
  | [] => dic
  | (key, value) :: attrs' => add_attributes (_add_if_nonempty dic key value) attrs'
  end.

Definition required_present (self : flow) : result unit :=
  if is_none (name self) then Raise (ValueError "self.name is required but None")
  else if is_none (external_version self)
  then Raise (ValueError "self.external_version is required but None")
  else Ok tt.

(** The loop over [self.components]: one [component_dict] per component,
    whose flow is [to_dict] of the component. *)
Fixpoint components_to_dict (to_dict : flow -> result (list (string * doc)))
    (cs : list (string * flow)) : result (list doc) :=
  match cs with
  | [] => Ok []
  | (key, sub) :: cs' =>
      let* sub_dict := to_dict sub in
      let component_dict :=
        [("oml:identifier", DScalar (SStr key)); ("oml:flow", DDict sub_dict)] in
      let* rest := components_to_dict to_dict cs' in
      Ok (DDict component_dict :: rest)
  end.

(** [self._to_dict()['oml:flow']]: the inner dictionary ([_to_dict] wraps it
    in a container under that one key). *)
Fixpoint to_flow_dict (self : flow) : result (list (string * doc)) :=
  let flow_dict := [("@xmlns:oml", DScalar (SStr "http://openml.org/openml"))] in
  let flow_dict := _add_if_nonempty flow_dict "oml:id" (flow_id self) in
  let* _ := required_present self in
  let flow_dict := add_attributes flow_dict
    [("oml:uploader", uploader self); ("oml:name", name self);
     ("oml:custom_name", custom_name self); ("oml:class_name", class_name self);
     ("oml:version", version self);
     ("oml:external_version", external_version self);
     ("oml:description", description self);
     ("oml:upload_date", upload_date self); ("oml:language", language self);
     ("oml:dependencies", dependencies self)] in
  let* flow_parameters :=
    params_to_dict (parameters self) (parameters_meta_info self)
      (dict_keys (parameters self)) in
  let flow_dict := dict_set String.eqb "oml:parameter" (DList flow_parameters) flow_dict in
  let* comps := components_to_dict to_flow_dict (components self) in
  let flow_dict := dict_set String.eqb "oml:component" (DList comps) flow_dict in
  let flow_dict :=
    dict_set String.eqb "oml:tag" (DList (map DScalar (tags self))) flow_dict in
  Ok (add_attributes flow_dict
        [("oml:binary_url", binary_url self);
         ("oml:binary_format", binary_format self);
         ("oml:binary_md5", binary_md5 self)]).

Definition _to_dict (self : flow) : result doc :=
  let* flow_dict := to_flow_dict self in
  Ok (DDict [("oml:flow", DDict flow_dict)]).


(** *** [get_structure] *)

(** [getattr(self, key_item)] for the two allowed attributes. *)
Definition getattr_key (self : flow) (key_item : string) : scalar :=
  if String.eqb key_item "flow_id" then flow_id self else name self.

(** The inner loop of [get_structure]:
    [for flow_name, flow_sub_structure in sub_structure.items():
         structure[flow_name] = [key] + flow_sub_structure].
    An entry of [sub_structure] replaces an entry of [structure] under the
    same key. *)
Definition add_sub_structure (key : string)
    (sub_structure structure : gmap scalar (list string))
    : gmap scalar (list string) :=
  (cons key <$> sub_structure) ∪ structure.

(** The loop over [self.components.items()] of [get_structure]. *)
Fixpoint sub_structures (structure_of : flow -> result (gmap scalar (list string)))
    (cs : list (string * flow)) (structure : gmap scalar (list string))
    : result (gmap scalar (list string)) :=
  match cs with
  | [] => Ok structure
  | (key, sub_flow) :: cs' =>
      let* sub_structure := structure_of sub_flow in
      sub_structures structure_of cs' (add_sub_structure key sub_structure structure)
  end.

(** [OpenMLFlow.get_structure].  The result is a plain [dict]; its keys are
    stored under [scalar_key], Python's equality of keys. *)
Fixpoint get_structure (self : flow) (key_item : string)
    : result (gmap scalar (list string)) :=
  if negb (String.eqb key_item "flow_id" || String.eqb key_item "name")
  then Raise (ValueError "key_item should be in {flow_id, name}")
  else
    let* structure :=
      sub_structures (fun sub_flow => get_structure sub_flow key_item)
        (components self) ∅ in
    Ok (<[scalar_key (getattr_key self key_item) := []]> structure).

(** *** [get_subflow]

    The argument [structure] is a Python list, a mutable object the caller
    still holds: lists live in a heap and are passed by reference. *)
Abbreviation loc := positive (only parsing).
Abbreviation heap := (gmap positive (list string)) (only parsing).

(** [list(structure)]: a new list object with the same elements. *)
Definition list_copy (structure : loc) (h : heap) : result loc * heap :=
  match h !! structure with
  | Some elements =>
      let l := fresh (dom h) in (Ok l, <[l := elements]> h)
  | None => (Raise (TypeError "object is not iterable"), h)
  end.

(** [structure.pop(0)], on the list stored at [structure]. *)
Definition list_pop0 (structure : loc) (h : heap) : heap :=
  match h !! structure with
  | Some (_ :: rest) => <[structure := rest]> h
  | _ => h
  end.

(** [OpenMLFlow.get_subflow].  [depth] bounds the depth of the recursion, as
    the interpreter does; every level consumes one element of the path. *)
Fixpoint get_subflow (depth : nat) (self : flow) (structure : loc) (h : heap)
    : result flow * heap :=
  match depth with
  | O => (Raise RecursionError, h)
  | S depth' =>
      match list_copy structure h with
      | (Raise e, h1) => (Raise e, h1)
      | (Ok structure, h1) =>
          match h1 !! structure with
          | None | Some [] =>
              (Raise (ValueError "Please provide a structure list of size >= 1"), h1)
          | Some (sub_identifier :: rest) =>
              match dict_get String.eqb sub_identifier (components self) with
              | None =>
                  (Raise (ValueError "Flow does not contain component with identifier"), h1)
              | Some sub =>
                  match rest with
                  | [] => (Ok sub, h1)
                  | _ :: _ =>
                      let h2 := list_pop0 structure h1 in
                      get_subflow depth' sub structure h2
                  end
              end
          end
      end
  end.

(** The component a path of identifiers leads to, read off [components]
    without any list object. *)
Fixpoint subflow_at (self : flow) (path : list string) {struct path} : option flow :=
  match path with
  | [] => Some self
  | sub_identifier :: rest =>
      (fix find (cs : list (string * flow)) : option flow :=
         match cs with
         | [] => None
         | (key, sub) :: cs' =>
             if String.eqb key sub_identifier then subflow_at sub rest else find cs'
         end) (components self)
  end.

(** *** [_copy_server_fields] *)

Definition set_server_fields (target : flow)
    (flow_id uploader version upload_date : scalar)
    (components : list (string * flow)) : flow :=
  {| name := name target; description := description target;
     components := components; parameters := parameters target;
     parameters_meta_info := parameters_meta_info target;
     external_version := external_version target; tags := tags target;
     language := language target; dependencies := dependencies target;
     class_name := class_name target; custom_name := custom_name target;
     binary_url := binary_url target; binary_format := binary_format target;
     binary_md5 := binary_md5 target; uploader := uploader;
     upload_date := upload_date; flow_id := flow_id; version := version |}.

(** The loop over [source_flow.components.items()] of
    [_copy_server_fields]; [tcs] is [target_flow.components]. *)
Fixpoint copy_components (copy : flow -> flow -> flow * option exn)
    (cs tcs : list (string * flow)) : list (string * flow) * option exn :=
  match cs with
  | [] => (tcs, None)
  | (name, component) :: cs' =>
      match dict_get String.eqb name tcs with
      | None => (tcs, Some AssertionError)
      | Some target_component =>
          match copy component target_component with
          | (target_component', Some e) =>
              (dict_set String.eqb name target_component' tcs, Some e)
          | (target_component', None) =>
              copy_components copy cs' (dict_set String.eqb name target_component' tcs)
          end
      end
  end.

(** [_copy_server_fields(source_flow, target_flow)] assigns to attributes of
    [target_flow] and of its components.  The embedding returns the target as
    it is after the call, with the exception the call ended in, if any: a
    failed [assert] leaves the assignments made before it in place. *)
Fixpoint _copy_server_fields (source_flow target_flow : flow)
    : flow * option exn :=
  let '(target_components, status) :=
    copy_components _copy_server_fields
      (components source_flow) (components target_flow) in
  (set_server_fields target_flow (flow_id source_flow) (uploader source_flow)
     (version source_flow) (upload_date source_flow) target_components,
   status).


(** *** Predicates on flows used to state properties *)

Definition str_or_none (v : scalar) : bool := is_none v || is_str v.

(** The four values [_to_dict] checks for the parameter [key]: its name,
    its stored default, and the two entries of its meta information. *)
Definition param_strings_ok (parameters : list (scalar * scalar))
    (parameters_meta_info : list (scalar * meta_info)) (key : scalar) : bool :=
  str_or_none key &&
  match dict_get key_eqb key parameters with
  | Some v => str_or_none v
  | None => true
  end &&
  match dict_get key_eqb key parameters_meta_info with
  | Some m => str_or_none (meta_data_type m) && str_or_none (meta_description m)
  | None => true
  end.

(** Every parameter of the flow and of its components, at any depth, passes
    [param_strings_ok]. *)
Fixpoint flow_params_ok (f : flow) : bool :=
  forallb (param_strings_ok (parameters f) (parameters_meta_info f))
          (dict_keys (parameters f)) &&
  forallb (fun c => flow_params_ok (snd c)) (components f).

(** The flow and its components have a name and an external version, and
    pass the check of [__init__] on the keys of their parameters. *)
Fixpoint flow_constructed (f : flow) : bool :=
  negb (is_none (name f)) && negb (is_none (external_version f)) &&
  (length (keys_difference (dict_keys (parameters f))
             (dict_keys (parameters_meta_info f))) =? 0)%nat &&
  (length (keys_difference (dict_keys (parameters_meta_info f))
             (dict_keys (parameters f))) =? 0)%nat &&
  forallb (fun c => flow_constructed (snd c)) (components f).

(** [OpenMLFlow(...)] called with the attributes of [f]. *)
Definition reconstruct (f : flow) : result flow :=
  OpenMLFlow_init (name f) (description f) (components f) (parameters f)
    (parameters_meta_info f) (external_version f) (Some (tags f)) (language f)
    (dependencies f) (class_name f) (custom_name f) (binary_url f)
    (binary_format f) (binary_md5 f) (uploader f) (upload_date f) (flow_id f)
    (version f).

(** The two dictionaries have the same set of keys. *)
Definition same_keys {A B : Type} (ps : list (scalar * A)) (ms : list (scalar * B)) : Prop :=
  forall k, key_in key_eqb k (dict_keys ps) = key_in key_eqb k (dict_keys ms).

(** [flow_keys_unchanged f f']: the parameters and their meta information
    are the same in [f'] as in [f], at the flow and at every component. *)
Inductive flow_keys_unchanged : flow -> flow -> Prop :=
| FlowKeysUnchanged f f' :
    parameters f' = parameters f ->
    parameters_meta_info f' = parameters_meta_info f ->
    Forall2 (fun c c' => fst c' = fst c /\ flow_keys_unchanged (snd c) (snd c'))
            (components f) (components f') ->
    flow_keys_unchanged f f'.

(** The keys [get_structure] files the flow and its components under, in
    the order of a walk from the root. *)
Fixpoint tree_keys (key_item : string) (f : flow) : list scalar :=
  scalar_key (getattr_key f key_item)
  :: flat_map (fun c => tree_keys key_item (snd c)) (components f).

(** A flow with the given name, identifier on the server and components,
    and nothing else: the flows of the examples. *)
Definition bare_flow (nm fid : scalar) (cs : list (string * flow)) : flow :=
  {| name := nm; description := SNone; components := cs; parameters := [];
     parameters_meta_info := []; external_version := SStr "sklearn==0.21.2";
     tags := []; language := SNone; dependencies := SNone; class_name := SNone;
     custom_name := SNone; binary_url := SNone; binary_format := SNone;
     binary_md5 := SNone; uploader := SNone; upload_date := SNone;
     flow_id := fid; version := SNone |}.

(** [A(components={"b": B(components={"c": C})})], not published. *)
Definition example_C : flow := bare_flow (SStr "C") SNone [].
Definition example_B : flow := bare_flow (SStr "B(C)") SNone [("c", example_C)].
Definition example_A : flow := bare_flow (SStr "A(B(C))") SNone [("b", example_B)].



(** ** Strings: the methods of [str] the walkers use *)

Definition newline : string := String (ascii_of_nat 10) "".

(** [sep.join(parts)]. *)
Fixpoint str_join (sep : string) (parts : list string) : string :=
  match parts with
  | [] => ""
  | [p] => p
  | p :: rest => p ++ sep ++ str_join sep rest
  end.

(** [s.split(sep)] for a non-empty [sep]: the pieces between the occurrences
    of [sep], found from the left without overlap.  [skip] counts the
    characters of an occurrence still to be passed over, [piece] holds the
    current piece in reverse. *)
Fixpoint str_split_go (sep : string) (skip : nat) (piece : list ascii) (s : string)
    : list string :=
  match s with
  | EmptyString => [string_of_list_ascii (rev piece)]
  | String c s' =>
      match skip with
      | S n => str_split_go sep n piece s'
      | O =>
          if String.prefix sep s
          then string_of_list_ascii (rev piece)
               :: str_split_go sep (String.length sep - 1) [] s'
          else str_split_go sep O (c :: piece) s'
      end
  end.

Definition str_split (sep s : string) : list string := str_split_go sep O [] s.

(** [s.replace(old, new)] for a non-empty [old]. *)
Fixpoint str_replace_go (old new : string) (skip : nat) (s : string) : string :=
  match s with
  | EmptyString => ""
  | String c s' =>
      match skip with
      | S n => str_replace_go old new n s'
      | O =>
          if String.prefix old s
          then new ++ str_replace_go old new (String.length old - 1) s'
          else String c (str_replace_go old new O s')
      end
  end.

Definition str_replace (old new s : string) : string := str_replace_go old new O s.

(** [sub in s]. *)
Fixpoint str_contains (sub s : string) : bool :=
  String.prefix sub s ||
  match s with
  | EmptyString => false
  | String _ s' => str_contains sub s'
  end.

(** [s.rsplit('.', 1)]: the text before the last dot and the text after it,
    or [s] alone when it has no dot. *)
Definition rsplit_dot (s : string) : list string :=
  match rev (str_split "." s) with
  | [] => [s]
  | [_] => [s]
  | last :: before => [str_join "." (rev before); last]
  end.

(** [s.split('.')[0]]. *)
Definition first_segment (s : string) : string :=
  match str_split "." s with
  | p :: _ => p
  | [] => s
  end.

(** [s[1:]]. *)
Definition str_tail (s : string) : string :=
  match s with
  | EmptyString => ""
  | String _ s' => s'
  end.

(** [sorted] on strings: insertion sort by the order of [str]. *)
Fixpoint str_insert (x : string) (l : list string) : list string :=
  match l with
  | [] => [x]
  | y :: l' => if String.leb x y then x :: l else y :: str_insert x l'
  end.

Definition str_sorted (l : list string) : list string := fold_right str_insert [] l.

(** Adding to a [set] of strings, kept as a list without repetition. *)
Definition str_set_add (x : string) (s : list string) : list string :=
  if existsb (String.eqb x) s then s else s ++ [x].

(** [sorted(d.items(), key=lambda t: t[0])] for string keys; the sort is
    stable. *)
Fixpoint item_insert {A : Type} (x : string * A) (l : list (string * A))
    : list (string * A) :=
  match l with
  | [] => [x]
  | y :: l' => if String.leb (fst x) (fst y) then x :: l else y :: item_insert x l'
  end.

Definition items_sorted {A : Type} (l : list (string * A)) : list (string * A) :=
  fold_right item_insert [] l.


(** ** Python values *)

(** A type object: the numeric types [_serialize_type] knows, or any other
    class, named by its module and name.  In the numpy the source runs with,
    [np.float] is [float] and [np.int] is [int]. *)
Inductive pytype : Type :=
| TFloat
| TInt
| TNpFloat32
| TNpFloat64
| TNpInt32
| TNpInt64
| TClass (path : string).

#[global] Instance pytype_eq_dec : EqDecision pytype.
Proof. solve_decision. Defined.

(** The values the walkers traverse.
    - [VDict ordered items]: a [dict] ([ordered = false]) or an [OrderedDict];
    - [VNumpy item]: a numpy scalar, [item] being the Python scalar its
      [.item()] returns;
    - [VFunction m n]: the function [n] defined in module [m];
    - [VRvFrozen]: a frozen distribution of scipy, with the attributes
      [_serialize_rv_frozen] reads;
    - [VCrossValidator cls attrs]: a cross-validation splitter of class [cls],
      [attrs] being its constructor parameters and the attribute stored
      under each;
    - [VEstimator cls params]: an estimator of class [cls] (module and class
      name joined by a dot), [params] being [get_params(deep=False)];
    - [VObject cls]: any other object. *)
Inductive pyval : Type :=
| VNone
| VBool (b : bool)
| VInt (z : Z)
| VStr (s : string)
| VList (l : list pyval)
| VTuple (l : list pyval)
| VDict (ordered : bool) (items : list (pyval * pyval))
| VNumpy (item : scalar)
| VType (t : pytype)
| VFunction (module_name function_name : string)
| VRvFrozen (dist : string) (a b args kwds : pyval)
| VCrossValidator (cls : string) (attrs : list (string * pyval))
| VEstimator (cls : string) (params : list (string * pyval))
| VFlow (f : flow)
| VObject (cls : string).

Definition of_scalar (v : scalar) : pyval :=
  match v with
  | SNone => VNone
  | SBool b => VBool b
  | SInt z => VInt z
  | SStr s => VStr s
  end.

(** [hash(v)] succeeds: lists and dictionaries are unhashable, a tuple is
    hashable when its elements are. *)
Fixpoint hashable (v : pyval) : bool :=
  match v with
  | VList _ | VDict _ _ => false
  | VTuple l => forallb hashable l
  | _ => true
  end.

(** Equality of two hashable values as keys of a dictionary.  [True] is
    [1]; an estimator, a splitter, a flow or another object is equal to
    itself only, and every such object the walkers meet as a key is a new
    one. *)
Fixpoint py_key_eqb (a b : pyval) {struct a} : bool :=
  match a, b with
  | VNone, VNone => true
  | VBool x, VBool y => Bool.eqb x y
  | VBool x, VInt y | VInt y, VBool x => (Z.b2z x =? y)%Z
  | VInt x, VInt y => (x =? y)%Z
  | VStr x, VStr y => String.eqb x y
  | VTuple x, VTuple y =>
      (fix all2 (x y : list pyval) {struct x} : bool :=
         match x, y with
         | [], [] => true
         | u :: x', v :: y' => py_key_eqb u v && all2 x' y'
         | _, _ => false
         end) x y
  | VType x, VType y => bool_decide (x = y)
  | VFunction m n, VFunction m' n' => String.eqb m m' && String.eqb n n'
  | _, _ => false
  end.

(** [a < b], [a == b] or [a > b] as [sorted] finds it, or [None] where
    Python raises TypeError for the comparison. *)
Fixpoint py_compare (a b : pyval) {struct a} : option comparison :=
  let lex :=
    (fix lex (x y : list pyval) {struct x} : option comparison :=
       match x, y with
       | [], [] => Some Eq
       | [], _ :: _ => Some Lt
       | _ :: _, [] => Some Gt
       | u :: x', v :: y' =>
           if py_key_eqb u v then lex x' y' else py_compare u v
       end) in
  match a, b with
  | VBool x, VBool y => Some (Z.b2z x ?= Z.b2z y)%Z
  | VBool x, VInt y => Some (Z.b2z x ?= y)%Z
  | VInt x, VBool y => Some (x ?= Z.b2z y)%Z
  | VInt x, VInt y => Some (x ?= y)%Z
  | VStr x, VStr y => Some (String.compare x y)
  | VList x, VList y => lex x y
  | VTuple x, VTuple y => lex x y
  | _, _ => None
  end.

(** [sorted(o.items())]: the items as tuples, by insertion.  Each item
    carries a payload [A] that takes no part in the comparison. *)
Fixpoint py_item_insert {A : Type} (x : pyval * pyval * A)
    (l : list (pyval * pyval * A)) : result (list (pyval * pyval * A)) :=
  match l with
  | [] => Ok [x]
  | y :: l' =>
      match py_compare (VTuple [fst (fst x); snd (fst x)])
                       (VTuple [fst (fst y); snd (fst y)]) with
      | None => Raise (TypeError "'<' not supported between instances")
      | Some Gt => let* rest := py_item_insert x l' in Ok (y :: rest)
      | Some _ => Ok (x :: l)
      end
  end.

Fixpoint py_items_sorted {A : Type} (l : list (pyval * pyval * A))
    : result (list (pyval * pyval * A)) :=
  match l with
  | [] => Ok []
  | x :: l' => let* rest := py_items_sorted l' in py_item_insert x rest
  end.

(** The first exception of a list of results, or all their values. *)
Fixpoint sequence {A : Type} (l : list (result A)) : result (list A) :=
  match l with
  | [] => Ok []
  | r :: l' => let* a := r in let* rest := sequence l' in Ok (a :: rest)
  end.

(** The key that marks the dictionary of a special value. *)
Definition serialized_object : string := "oml-python:serialized_object".

(** [d[key]] for a string [key]. *)
Definition item_get (key : string) (d : list (pyval * pyval)) : option pyval :=
  dict_get py_key_eqb (VStr key) d.

(** ** The runtime the walkers run in

    What the source takes from the interpreter and from the libraries it
    imports: the [json] module, [importlib] and [inspect], the constructors
    of the classes it imports, the versions of the packages, and the
    methods of scikit-learn it calls. *)
Inductive import_result : Type :=
| Imported (v : pyval)
| NoSuchModule
| NoSuchAttribute.

(** What [isinstance] says of a model for the classes of searches. *)
Inductive search_kind : Type :=
| NotSearch
| GridSearchCV
| RandomizedSearchCV
| OtherSearchCV.

Record runtime : Type := Runtime {
  (** [json.dumps(v)]; TypeError for a value that is not serializable. *)
  json_dumps : pyval -> result string;
  (** [json.loads(s)]; [None] for a JSONDecodeError. *)
  json_loads : string -> option pyval;
  (** [getattr(importlib.import_module(m), a)]. *)
  import_attr : string -> string -> import_result;
  (** [inspect.getfullargspec(cls.__init__)]: [args] and [defaults]. *)
  getfullargspec_init : pyval -> list string * list pyval;
  (** The call of the class [cls] with the keyword arguments [kwargs]. *)
  call_with_kwargs : pyval -> list (string * pyval) -> result pyval;
  (** The call of [scipy.stats.distributions.rv_frozen] on an instance of
      the class, the positional arguments [args] and the keywords [kwds]. *)
  new_rv_frozen : pyval -> pyval -> pyval -> result pyval;
  (** [importlib.import_module(package).__version__]. *)
  package_version : string -> result string;
  openml_version : string;
  sklearn_version : string;
  (** The class of searches a model of class [cls] is an instance of. *)
  search_kind_of : string -> search_kind;
  (** [model.get_params()], nested parameters included. *)
  get_params_deep : pyval -> list (string * pyval);
  (** [sklearn.base.clone(model, safe=True)]. *)
  clone : pyval -> result pyval
}.


(** ** The forward walker: model to flow *)

Section Serialize.
Variable E : runtime.

Definition _format_external_version (model_package_name
model_package_version_number : string) : string :=
model_package_name ++ "==" ++ model_package_version_number.

(** The dictionary of a special value: the marker key and [value]. *)
Definition special (tag : string) (value : pyval) : pyval :=
VDict true [(VStr serialized_object, VStr tag); (VStr "value", value)].

Definition _serialize_type (o : pytype) : result pyval :=
match o with
| TFloat => Ok (special "type" (VStr "np.float"))
| TNpFloat32 => Ok (special "type" (VStr "np.float32"))
| TNpFloat64 => Ok (special "type" (VStr "np.float64"))
| TInt => Ok (special "type" (VStr "np.int"))
| TNpInt32 => Ok (special "type" (VStr "np.int32"))
| TNpInt64 => Ok (special "type" (VStr "np.int64"))
| TClass _ => Raise (KeyError "mapping")
end.

Definition _serialize_rv_frozen (dist : string) (a b args kwds : pyval) : pyval :=
special "rv_frozen"
(VDict true [(VStr "dist", VStr dist); (VStr "a", a); (VStr "b", b);
             (VStr "args", args); (VStr "kwds", kwds)]).

Definition _serialize_function (module_name function_name : string) : pyval :=
special "function" (VStr (module_name ++ "." ++ function_name)).

(** [hasattr(v, '__len__') and len(v) == 0]. *)
Definition is_empty_sized (v : pyval) : bool :=
match v with
| VStr "" | VList [] | VTuple [] | VDict _ [] => true
| _ => false
end.

(** [json.dumps(value)], or [None] for an empty sized value: what is stored
for a regular hyperparameter and for a parameter of a splitter. *)
Definition dumps_or_none (value : pyval) : result pyval :=
if negb (is_empty_sized value)
then let* text := json_dumps E value in Ok (VStr text)
else Ok VNone.

(** The loop of [_serialize_cross_validator] over the sorted parameter
names.  A parameter that warns as deprecated is skipped by the source;
[attrs] holds the others. *)
Fixpoint cross_validator_parameters (attrs : list (string * pyval))
(parameters : list (pyval * pyval)) : result (list (pyval * pyval)) :=
match attrs with
| [] => Ok parameters
| (key, value) :: attrs' =>
  let* stored := dumps_or_none value in
  cross_validator_parameters attrs'
    (dict_set py_key_eqb (VStr key) stored parameters)
end.

Definition _serialize_cross_validator (cls : string) (attrs : list (string * pyval))
: result pyval :=
let* parameters := cross_validator_parameters (items_sorted attrs) [] in
Ok (special "cv_object"
    (VDict true [(VStr "name", VStr cls);
                 (VStr "parameters", VDict true parameters)])).

(** *** [_check_multiple_occurence_of_component_in_flow] *)

(** The number of flows in a list of flows, their components counted:
a bound on the number of rounds of the loop of the check. *)
Fixpoint flow_size (f : flow) : nat :=
S (list_sum (map (fun c => flow_size (snd c)) (components f))).

Definition stack_size (stack : list flow) : nat := list_sum (map flow_size stack).

(** The [while] loop.  The stack is held with its top first: [pop()]
takes the head, and [extend(values)] puts the values in front of it
in reverse.  [rounds] bounds the number of rounds; [stack_size] of the
stack is enough of them. *)
Fixpoint check_visit (rounds : nat) (to_visit_stack : list flow)
(known_sub_components : list scalar) : result unit :=
match to_visit_stack with
| [] => Ok tt
| visitee :: stack' =>
  match rounds with
  | O => Raise RecursionError
  | S rounds' =>
      if key_in key_eqb (name visitee) known_sub_components
      then Raise (ValueError "Found a second occurence of component")
      else check_visit rounds'
             (rev (dict_values (components visitee)) ++ stack')
             (name visitee :: known_sub_components)
  end
end.

Definition _check_multiple_occurence_of_component_in_flow
(sub_components : list (pyval * flow)) : result unit :=
let to_visit_stack := rev (dict_values sub_components) in
check_visit (stack_size to_visit_stack) to_visit_stack [].

(** *** [_get_external_version_string] *)

(** The loop over the sub-components and over the comma-separated
entries of the external version of each. *)
Fixpoint add_external_versions (visitees : list flow)
(external_versions : list string) : result (list string) :=
match visitees with
| [] => Ok external_versions
| visitee :: rest =>
  match external_version visitee with
  | SStr ev =>
      add_external_versions rest
        (fold_left (fun s v => str_set_add v s) (str_split "," ev)
           external_versions)
  | _ => Raise (AttributeError "split")
  end
end.

Definition _get_external_version_string (cls : string)
(sub_components : list (pyval * flow)) : result string :=
let model_package_name := first_segment cls in
let* model_package_version_number := package_version E model_package_name in
let external_version :=
_format_external_version model_package_name model_package_version_number in
let openml_version_ := _format_external_version "openml" (openml_version E) in
let external_versions := str_set_add openml_version_ [external_version] in
let* external_versions :=
add_external_versions (dict_values sub_components) external_versions in
Ok (str_join "," (str_sorted external_versions)).

(** *** [_extract_information_from_model] *)

Definition is_list_or_tuple (v : pyval) : bool :=
match v with VList _ | VTuple _ => true | _ => false end.

(** [isinstance(v, type(first))] for a [first] that is a list or a tuple. *)
Definition same_sequence_type (first v : pyval) : bool :=
match first, v with
| VList _, VList _ | VTuple _, VTuple _ => true
| _, _ => false
end.

Definition is_non_empty_list_of_lists_with_same_type (rval : pyval) : bool :=
match rval with
| VList (first :: rest) | VTuple (first :: rest) =>
  is_list_or_tuple first && forallb (same_sequence_type first) (first :: rest)
| _ => false
end.

(** [all(isinstance(el, SIMPLE_TYPES) for el in flatten_all(rval))]: a
list or a tuple is flattened, any other element is tested. *)
Fixpoint all_simple_flat (v : pyval) : bool :=
match v with
| VList l | VTuple l => forallb all_simple_flat l
| VBool _ | VInt _ | VStr _ | VNumpy _ => true
| _ => false
end.

(** The component reference stored in place of a component. *)
Definition component_reference (key step_name : pyval) (argument_1 : option pyval)
: pyval :=
special "component_reference"
(VDict true
   ([(VStr "key", key); (VStr "step_name", step_name)]
    ++ match argument_1 with
       | Some a => [(VStr "argument_1", a)]
       | None => []
       end)).

(** The four dictionaries and sets the extraction fills. *)
Record extraction : Type := Extraction_ {
ex_parameters : list (scalar * scalar);
ex_parameters_meta_info : list (scalar * meta_info);
ex_sub_components : list (pyval * flow);
ex_sub_components_explicit : list pyval
}.

(** One round of the loop over the tuples of a list of named
sub-components: [parameter_value], [sub_components] and
[sub_components_explicit] after it. *)
Definition extract_sub_component (reserved_keywords : list string)
(sub_component_tuple : pyval)
(st : list pyval * list (pyval * flow) * list pyval)
: result (list pyval * list (pyval * flow) * list pyval) :=
let '(parameter_value, sub_components, sub_components_explicit) := st in
let is_tuple := match sub_component_tuple with VTuple _ => true | _ => false end in
match sub_component_tuple with
| VList elements | VTuple elements =>
  match elements with
  | [] | [_] => Raise (IndexError "index out of range")
  | identifier :: sub_component :: others =>
      if negb ((2 <=? length elements)%nat && (length elements <=? 3)%nat)
      then Raise (ValueError "Length of tuple does not match assumptions")
      else
        match sub_component with
        | VFlow _ | VNone =>
            if negb (hashable identifier)
            then Raise (TypeError "unhashable type")
            else if key_in py_key_eqb identifier (map VStr reserved_keywords)
            then Raise (PyOpenMLError "Found element shadowing official parameter")
            else
              match sub_component with
              | VFlow sub_flow =>
                  let cr := component_reference identifier identifier
                              (match others with a :: _ => Some a | [] => None end) in
                  Ok (parameter_value ++ [cr],
                      dict_set py_key_eqb identifier sub_flow sub_components,
                      if key_in py_key_eqb identifier sub_components_explicit
                      then sub_components_explicit
                      else sub_components_explicit ++ [identifier])
              | _ =>
                  let pv := [identifier; VNone] in
                  Ok (parameter_value ++ [if is_tuple then VTuple pv else VList pv],
                      sub_components, sub_components_explicit)
              end
        | _ => Raise (TypeError "Second item of tuple does not match assumptions")
        end
  end
| _ => Raise (TypeError "object is not subscriptable")
end.

Fixpoint extract_sub_components (reserved_keywords : list string)
(tuples : list pyval) (st : list pyval * list (pyval * flow) * list pyval)
: result (list pyval * list (pyval * flow) * list pyval) :=
match tuples with
| [] => Ok st
| sub_component_tuple :: rest =>
  let* st' := extract_sub_component reserved_keywords sub_component_tuple st in
  extract_sub_components reserved_keywords rest st'
end.

Definition no_meta_info : meta_info := MetaInfo SNone SNone.

(** The body of the loop over the sorted parameters, for the parameter
[k] whose value serializes to [rval]. *)
Definition extract_parameter (reserved_keywords : list string) (k : string)
(rval : pyval) (ex : extraction) : result extraction :=
let is_lol := is_non_empty_list_of_lists_with_same_type rval in
let nested_list_of_simple_types := is_lol && all_simple_flat rval in
let* (stored, sub_components, sub_components_explicit) :=
if is_lol && negb nested_list_of_simple_types then
  let tuples := match rval with VList l | VTuple l => l | _ => [] end in
  let* (parameter_value, sub_components, sub_components_explicit) :=
    extract_sub_components reserved_keywords tuples
      ([], ex_sub_components ex, ex_sub_components_explicit ex) in
  let* parameter_json :=
    json_dumps E (match rval with
                  | VTuple _ => VTuple parameter_value
                  | _ => VList parameter_value
                  end) in
  Ok (SStr parameter_json, sub_components, sub_components_explicit)
else
  match rval with
  | VFlow sub_flow =>
      let cr := component_reference (VStr k) VNone None in
      let* text := json_dumps E cr in
      Ok (SStr text,
          dict_set py_key_eqb (VStr k) sub_flow (ex_sub_components ex),
          if key_in py_key_eqb (VStr k) (ex_sub_components_explicit ex)
          then ex_sub_components_explicit ex
          else ex_sub_components_explicit ex ++ [VStr k])
  | _ =>
      if negb (is_empty_sized rval)
      then let* text := json_dumps E rval in
           Ok (SStr text, ex_sub_components ex, ex_sub_components_explicit ex)
      else Ok (SNone, ex_sub_components ex, ex_sub_components_explicit ex)
  end in
Ok {| ex_parameters := dict_set key_eqb (SStr k) stored (ex_parameters ex);
    ex_parameters_meta_info :=
      dict_set key_eqb (SStr k) no_meta_info (ex_parameters_meta_info ex);
    ex_sub_components := sub_components;
    ex_sub_components_explicit := sub_components_explicit |}.

(** The loop of [_extract_information_from_model].  The source serializes
the value of a parameter at the start of its round; [rvals] holds, for
each parameter in sorted order, the result of that call, looked at
when the round of the parameter comes. *)
Fixpoint extract_parameters (reserved_keywords : list string)
(rvals : list (string * result pyval)) (ex : extraction) : result extraction :=
match rvals with
| [] => Ok ex
| (k, r) :: rest =>
  let* rval := r in
  let* ex' := extract_parameter reserved_keywords k rval ex in
  extract_parameters reserved_keywords rest ex'
end.

Definition _extract_information_from_model
(model_parameters : list (string * result pyval)) : result extraction :=
extract_parameters (dict_keys model_parameters) (items_sorted model_parameters)
{| ex_parameters := []; ex_parameters_meta_info := [];
   ex_sub_components := []; ex_sub_components_explicit := [] |}.

(** *** [_serialize_model] *)

(** The loop that builds [sub_components_names]. *)
Fixpoint sub_components_names_of (subcomponents : list (pyval * flow))
(subcomponents_explicit : list pyval) (sub_components_names : string)
: result string :=
match subcomponents with
| [] => Ok sub_components_names
| (key, sub) :: rest =>
  match name sub with
  | SStr sub_name =>
      if key_in py_key_eqb key subcomponents_explicit
      then
        match key with
        | VStr key_text =>
            sub_components_names_of rest subcomponents_explicit
              (sub_components_names ++ "," ++ key_text ++ "=" ++ sub_name)
        | _ => Raise (TypeError "can only concatenate str")
        end
      else
        sub_components_names_of rest subcomponents_explicit
          (sub_components_names ++ "," ++ sub_name)
  | _ => Raise (TypeError "can only concatenate str")
  end
end.

(** The components as the flow holds them.  Every key is a string once
the name is built. *)
Fixpoint string_keyed (subcomponents : list (pyval * flow))
: result (list (string * flow)) :=
match subcomponents with
| [] => Ok []
| (VStr key, sub) :: rest =>
  let* rest' := string_keyed rest in Ok ((key, sub) :: rest')
| _ => Raise (TypeError "can only concatenate str")
end.

(** [_serialize_model(model)] for a model of class [cls];
[model_parameters] is [model.get_params(deep=False)] with, for each
parameter, the result of [_serialize_sklearn] on its value. *)
Definition _serialize_model (cls : string)
(model_parameters : list (string * result pyval)) : result flow :=
let* ex := _extract_information_from_model model_parameters in
let subcomponents := ex_sub_components ex in
let* _ := _check_multiple_occurence_of_component_in_flow subcomponents in
let class_name := cls in
let* sub_components_names :=
sub_components_names_of subcomponents (ex_sub_components_explicit ex) "" in
let name : string :=
if negb (String.eqb sub_components_names "")
then (class_name ++ "(" ++ str_tail sub_components_names ++ ")")%string
else class_name in
let* external_version := _get_external_version_string cls subcomponents in
let sklearn_version_ := _format_external_version "sklearn" (sklearn_version E) in
let dependencies :=
str_join newline [sklearn_version_; "numpy>=1.6.1"; "scipy>=0.9"] in
let sklearn_version_formatted := str_replace "==" "_" sklearn_version_ in
let* components := string_keyed subcomponents in
OpenMLFlow_init (SStr name) (SStr "Automatically created scikit-learn flow.")
components (ex_parameters ex) (ex_parameters_meta_info ex)
(SStr external_version)
(Some [SStr "openml-python"; SStr "sklearn"; SStr "scikit-learn";
       SStr "python"; SStr sklearn_version_formatted])
(SStr "English") (SStr dependencies) (SStr class_name)
SNone SNone SNone SNone SNone SNone SNone SNone.

(** *** [_serialize_sklearn] and [model_to_flow] *)

(** The loop over the items of a dictionary.  An item carries the result
of [_serialize_sklearn] on its value, looked at in its round; a key
that is a string serializes to itself. *)
Fixpoint serialize_items (items : list (pyval * pyval * result pyval))
(rval : list (pyval * pyval)) : result (list (pyval * pyval)) :=
match items with
| [] => Ok rval
| (key, _, r) :: rest =>
  match key with
  | VStr _ =>
      let* value := r in
      serialize_items rest (dict_set py_key_eqb key value rval)
  | _ => Raise (TypeError "Can only use string as keys")
  end
end.

Fixpoint _serialize_sklearn (o : pyval) : result pyval :=
match o with
| VEstimator cls params =>
  let* rval :=
    _serialize_model cls
      (map (fun kv => (fst kv, _serialize_sklearn (snd kv))) params) in
  Ok (VFlow rval)
| VList l =>
  let* rval := sequence (map _serialize_sklearn l) in Ok (VList rval)
| VTuple l =>
  let* rval := sequence (map _serialize_sklearn l) in Ok (VTuple rval)
| VNone | VBool _ | VInt _ | VStr _ => Ok o
| VNumpy item => Ok (of_scalar item)
| VDict ordered items =>
  let entries :=
    map (fun kv => (fst kv, snd kv, _serialize_sklearn (snd kv))) items in
  let* entries := if ordered then Ok entries else py_items_sorted entries in
  let* rval := serialize_items entries [] in
  Ok (VDict true rval)
| VType t => _serialize_type t
| VRvFrozen dist a b args kwds => Ok (_serialize_rv_frozen dist a b args kwds)
| VFunction module_name function_name =>
  Ok (_serialize_function module_name function_name)
| VCrossValidator cls attrs => _serialize_cross_validator cls attrs
| VFlow _ | VObject _ => Raise (TypeError "object cannot be serialized")
end.

Definition model_to_flow (model : pyval) : result pyval := _serialize_sklearn model.
End Serialize.


(** ** The inverse walker: flow to model *)

(** The pool of components a call may take from: [None] when the argument
    [components] is not given. *)
Abbreviation pool := (option (list (string * flow))) (only parsing).

Section Deserialize.
Variable E : runtime.

Definition _is_sklearn_flow (f : flow) : result bool :=
match external_version f with
| SStr ev => Ok (String.prefix "sklearn==" ev || str_contains ",sklearn==" ev)
| _ => Raise (AttributeError "startswith")
end.

(** [getattr(importlib.import_module(module_name[0]), module_name[1])] for
[module_name = text.rsplit('.', 1)]. *)
Definition import_dotted (text : pyval) : result pyval :=
match text with
| VStr s =>
  match rsplit_dot s with
  | [module; attribute] =>
      match import_attr E module attribute with
      | Imported v => Ok v
      | NoSuchModule => Raise (ImportError "No module named")
      | NoSuchAttribute => Raise (AttributeError "module has no attribute")
      end
  | _ =>
      match import_attr E s "" with
      | NoSuchModule => Raise (ImportError "No module named")
      | _ => Raise (IndexError "list index out of range")
      end
  end
| _ => Raise (AttributeError "rsplit")
end.

(** [d[key]] on a value that has to be a dictionary. *)
Definition subscript (d : pyval) (key : string) : result pyval :=
match d with
| VDict _ items =>
  match item_get key items with
  | Some v => Ok v
  | None => Raise (KeyError key)
  end
| _ => Raise (TypeError "object is not subscriptable")
end.

Definition _deserialize_type (o : pyval) : result pyval :=
match o with
| VStr "float" | VStr "np.float" => Ok (VType TFloat)
| VStr "np.float32" => Ok (VType TNpFloat32)
| VStr "np.float64" => Ok (VType TNpFloat64)
| VStr "int" | VStr "np.int" => Ok (VType TInt)
| VStr "np.int32" => Ok (VType TNpInt32)
| VStr "np.int64" => Ok (VType TNpInt64)
| _ => if hashable o then Raise (KeyError "mapping")
     else Raise (TypeError "unhashable type")
end.

Definition _deserialize_function (name : pyval) : result pyval :=
import_dotted name.

(** [dist.a = a; dist.b = b]. *)
Definition set_bounds (dist a b : pyval) : pyval :=
match dist with
| VRvFrozen d _ _ args kwds => VRvFrozen d a b args kwds
| _ => dist
end.

Definition _deserialize_rv_frozen (o : pyval) : result pyval :=
let* args := subscript o "args" in
let* kwds := subscript o "kwds" in
let* a := subscript o "a" in
let* b := subscript o "b" in
let* dist_name := subscript o "dist" in
match import_dotted dist_name with
| Raise (AttributeError "module has no attribute") => Ok VNone
| Raise e => Raise e
| Ok rv_class =>
  let* dist := new_rv_frozen E rv_class args kwds in
  Ok (set_bounds dist a b)
end.

(** The keyword arguments of a call: the keys have to be strings. *)
Fixpoint kwargs_of_items (items : list (pyval * pyval)) : result (list (string * pyval)) :=
match items with
| [] => Ok []
| (VStr k, v) :: rest => let* rest' := kwargs_of_items rest in Ok ((k, v) :: rest')
| _ => Raise (TypeError "keywords must be strings")
end.

Fixpoint kwargs_of_parameters (items : list (scalar * pyval))
: result (list (string * pyval)) :=
match items with
| [] => Ok []
| (SStr k, v) :: rest => let* rest' := kwargs_of_parameters rest in Ok ((k, v) :: rest')
| _ => Raise (TypeError "keywords must be strings")
end.

(** *** The loops of the inverse walker

[rec o components initialize_with_defaults] stands for the recursive
call of [_deserialize_sklearn]; it returns its value and the pool as
the call leaves it. *)
Section Loops.
Variable rec : pyval -> pool -> bool -> result (pyval * pool).

(** The elements of a list or tuple, in order. *)
Fixpoint deserialize_elements (elements : list pyval) (components : pool)
(initialize_with_defaults : bool) : result (list pyval * pool) :=
match elements with
| [] => Ok ([], components)
| element :: rest =>
let* (v, components) := rec element components initialize_with_defaults in
let* (vs, components) :=
deserialize_elements rest components initialize_with_defaults in
Ok (v :: vs, components)
end.

(** The items of a plain mapping, sorted, into an [OrderedDict]. *)
Fixpoint deserialize_items (items : list (pyval * pyval * unit))
(components : pool) (initialize_with_defaults : bool)
(rval : list (pyval * pyval)) : result (list (pyval * pyval) * pool) :=
match items with
| [] => Ok (rval, components)
| (key, value, _) :: rest =>
let* (k, components) := rec key components initialize_with_defaults in
let* (v, components) := rec value components initialize_with_defaults in
if negb (hashable k) then Raise (TypeError "unhashable type")
else deserialize_items rest components initialize_with_defaults
     (dict_set py_key_eqb k v rval)
end.

(** The loop of [_deserialize_cross_validator] over the parameters. *)
Fixpoint deserialize_cv_parameters (keys : list pyval)
(parameters : list (pyval * pyval)) : result (list (pyval * pyval)) :=
match keys with
| [] => Ok parameters
| parameter :: rest =>
match dict_get py_key_eqb parameter parameters with
| None => Raise (KeyError "parameters")
| Some stored =>
  let* (v, _) := rec stored None false in
  deserialize_cv_parameters rest
    (dict_set py_key_eqb parameter v parameters)
end
end.

(** [_deserialize_cross_validator].  [parameters] has to be a
dictionary; for a value of another type the source ends in a
TypeError or an IndexError, the embedding in a TypeError. *)
Definition _deserialize_cross_validator (value : pyval) : result pyval :=
let* model_name := subscript value "name" in
let* parameters := subscript value "parameters" in
let* model_class := import_dotted model_name in
match parameters with
| VDict _ items =>
let* items' := deserialize_cv_parameters (dict_keys items) items in
let* kwargs := kwargs_of_items items' in
call_with_kwargs E model_class kwargs
| _ => Raise (TypeError "parameters is not a mapping")
end.

(** The first loop of [_deserialize_model], over [parameters]. *)
Fixpoint deserialize_parameters (parameters : list (scalar * scalar))
(names : list scalar) (components_ : pool) (keep_defaults : bool)
(parameter_dict : list (scalar * pyval))
: result (list (scalar * pyval) * pool) :=
match names with
| [] => Ok (parameter_dict, components_)
| name :: rest =>
let value :=
match dict_get key_eqb name parameters with
| Some v => of_scalar v
| None => VNone
end in
let* (rval, components_) := rec value components_ keep_defaults in
deserialize_parameters parameters rest components_ keep_defaults
(dict_set key_eqb name rval parameter_dict)
end.

(** The second loop, over the components no parameter has taken. *)
Fixpoint deserialize_components (components : list (string * flow))
(names : list string) (components_ : list (string * flow))
(parameter_dict : list (scalar * pyval)) : result (list (scalar * pyval)) :=
match names with
| [] => Ok parameter_dict
| name :: rest =>
if dict_in key_eqb (SStr name) parameter_dict
then deserialize_components components rest components_ parameter_dict
else if negb (dict_in String.eqb name components_)
then deserialize_components components rest components_ parameter_dict
else
match dict_get String.eqb name components with
| None => Raise (KeyError name)
| Some value =>
    let* (rval, _) := rec (VFlow value) None false in
    deserialize_components components rest components_
      (dict_set key_eqb (SStr name) rval parameter_dict)
end
end.
End Loops.

(** *** [_deserialize_model] *)

(** [dict(zip(reversed(args), reversed(defaults)))]. *)
Definition optional_params_of (args : list string) (defaults : list pyval)
: list (string * pyval) :=
fold_left (fun d kv => dict_set String.eqb (fst kv) (snd kv) d)
(combine (rev args) (rev defaults)) [].

Definition _get_fn_arguments_with_defaults (fn : pyval)
: list (string * pyval) * list string :=
let '(args, defaults) := getfullargspec_init E fn in
let optional_params :=
match defaults with
| [] => []
| _ => optional_params_of args defaults
end in
(optional_params,
List.filter (fun arg => negb (dict_in String.eqb arg optional_params)) args).

(** The loop over [param_defaults] that deletes from [parameter_dict]. *)
Fixpoint drop_defaults (param_defaults : list string)
(components : list (string * flow)) (parameter_dict : list (scalar * pyval))
: result (list (scalar * pyval)) :=
match param_defaults with
| [] => Ok parameter_dict
| param :: rest =>
  if negb (dict_in String.eqb param components)
  then
    if dict_in key_eqb (SStr param) parameter_dict
    then drop_defaults rest components
           (dict_del key_eqb (SStr param) parameter_dict)
    else Raise (KeyError param)
  else drop_defaults rest components parameter_dict
end.

Section Model.
Variable rec : pyval -> pool -> bool -> result (pyval * pool).

(** The two loops of [_deserialize_model]: [parameter_dict] as it is
when the class is imported. *)
Definition decoded_parameters (f : flow) (keep_defaults : bool)
: result (list (scalar * pyval)) :=
let parameters := parameters f in
let components := components f in
let components_ := Some components in
let* (parameter_dict, components_) :=
deserialize_parameters rec parameters (dict_keys parameters) components_
keep_defaults [] in
deserialize_components rec components (dict_keys components)
(match components_ with Some c => c | None => [] end) parameter_dict.

(** [_deserialize_model] up to its last line: the class and the
dictionary [parameter_dict] it is called with. *)
Definition model_arguments (f : flow) (keep_defaults : bool)
: result (pyval * list (scalar * pyval)) :=
let model_name := class_name f in
let components := components f in
let* parameter_dict := decoded_parameters f keep_defaults in
let* model_class := import_dotted (of_scalar model_name) in
let* parameter_dict :=
if keep_defaults
then drop_defaults
   (dict_keys (fst (_get_fn_arguments_with_defaults model_class)))
   components parameter_dict
else Ok parameter_dict in
Ok (model_class, parameter_dict).

Definition deserialize_model (f : flow) (keep_defaults : bool) : result pyval :=
let* (model_class, parameter_dict) := model_arguments f keep_defaults in
let* kwargs := kwargs_of_parameters parameter_dict in
call_with_kwargs E model_class kwargs.

(** The value a component reference stands for, once the reference
[value] and the [component] are decoded. *)
Definition resolve_reference (value step_name component : pyval) : result pyval :=
match step_name with
| VNone => Ok component
| _ =>
match value with
| VDict _ items =>
  match item_get "argument_1" items with
  | None => Ok (VTuple [step_name; component])
  | Some argument_1 => Ok (VTuple [step_name; component; argument_1])
  end
| _ => Raise (TypeError "object is not subscriptable")
end
end.

(** The branch of [_deserialize_sklearn] for a component reference. *)
Definition deserialize_component_reference (value : pyval) (components : pool)
(initialize_with_defaults : bool) : result (pyval * pool) :=
match components with
| None => Raise AssertionError
| Some components =>
let* (value, _) := rec value None false in
let* step_name := subscript value "step_name" in
let* key := subscript value "key" in
if negb (hashable key) then Raise (TypeError "unhashable type")
else
match key with
| VStr k =>
    match dict_get String.eqb k components with
    | None => Raise (KeyError k)
    | Some sub_flow =>
        let* (component, _) :=
          rec (VFlow sub_flow) None initialize_with_defaults in
        let components := dict_del String.eqb k components in
        let* rval := resolve_reference value step_name component in
        Ok (rval, Some components)
    end
| _ => Raise (KeyError "components")
end
end.
End Model.

Definition has_tag (serialized_type : pyval) (tag : string) : bool :=
match serialized_type with
| VStr s => String.eqb s tag
| _ => false
end.

(** *** [_deserialize_sklearn] and [flow_to_model]

[depth] bounds the depth of the recursion, as the interpreter does. *)
Fixpoint _deserialize_sklearn (depth : nat) (o : pyval) (components : pool)
(initialize_with_defaults : bool) {struct depth} : result (pyval * pool) :=
match depth with
| O => Raise RecursionError
| S depth' =>
  let rec := _deserialize_sklearn depth' in
  let o :=
    match o with
    | VStr s => match json_loads E s with Some v => v | None => o end
    | _ => o
    end in
  match o with
  | VDict _ items =>
      if dict_in py_key_eqb (VStr serialized_object) items then
        let* serialized_type := subscript o serialized_object in
        let* value := subscript o "value" in
        if has_tag serialized_type "type" then
          let* rval := _deserialize_type value in Ok (rval, components)
        else if has_tag serialized_type "rv_frozen" then
          let* rval := _deserialize_rv_frozen value in Ok (rval, components)
        else if has_tag serialized_type "function" then
          let* rval := _deserialize_function value in Ok (rval, components)
        else if has_tag serialized_type "component_reference" then
          deserialize_component_reference rec value components
            initialize_with_defaults
        else if has_tag serialized_type "cv_object" then
          let* rval := _deserialize_cross_validator rec value in
          Ok (rval, components)
        else Raise (ValueError "Cannot flow_to_sklearn")
      else
        let* sorted := py_items_sorted (map (fun kv => (kv, tt)) items) in
        let* (rval, components) :=
          deserialize_items rec sorted components initialize_with_defaults [] in
        Ok (VDict true rval, components)
  | VList l =>
      let* (rval, components) :=
        deserialize_elements rec l components initialize_with_defaults in
      Ok (VList rval, components)
  | VTuple l =>
      let* (rval, components) :=
        deserialize_elements rec l components initialize_with_defaults in
      Ok (VTuple rval, components)
  | VNone | VBool _ | VInt _ | VStr _ => Ok (o, components)
  | VFlow f =>
      let* sklearn_flow := _is_sklearn_flow f in
      if negb sklearn_flow
      then Raise (ValueError "Only sklearn flows can be reinstantiated")
      else
        let* rval := deserialize_model rec f initialize_with_defaults in
        Ok (rval, components)
  | _ => Raise (TypeError "object cannot be deserialized")
  end
end.

Definition _deserialize_model (depth : nat) (f : flow) (keep_defaults : bool)
: result pyval :=
deserialize_model (_deserialize_sklearn depth) f keep_defaults.

Definition flow_to_model (depth : nat) (f : flow) (initialize_with_defaults : bool)
: result pyval :=
let* (rval, _) := _deserialize_sklearn depth (VFlow f) None initialize_with_defaults in
Ok rval.
End Deserialize.

(** The parameters [initialize_with_defaults] takes out of the keyword
    dictionary: those with a default in the signature of the class that are
    no key of the components. *)
Definition defaulted_away (defaults : list string) (components : list (string * flow))
    (key : scalar) : bool :=
  match key with
  | SStr param =>
      key_in String.eqb param defaults && negb (dict_in String.eqb param components)
  | _ => false
  end.

(** A dictionary with the special-value marker and the tag of a component
    reference, at any depth of a value. *)
Fixpoint contains_reference (v : pyval) : bool :=
  match v with
  | VDict _ items =>
      match item_get serialized_object items with
      | Some (VStr "component_reference") => true
      | _ => false
      end
      || existsb (fun kv => contains_reference (fst kv) || contains_reference (snd kv)) items
  | VList l | VTuple l => existsb contains_reference l
  | VEstimator _ params | VCrossValidator _ params =>
      existsb (fun kv => contains_reference (snd kv)) params
  | _ => false
  end.


(** ** A reference codec for JSON

    [json.dumps] and [json.loads] of the Python standard library with their
    default settings, for the values of the embedding.  A string stands for
    the Python string with the same code points, all below 256.  Text whose
    decoding needs a float or a code point above 255 is outside the
    embedding; [ref_loads] has no value for it. *)
Module Json.
Local Open Scope string_scope.

Definition quote : ascii := ascii_of_nat 34.
Definition backslash : ascii := ascii_of_nat 92.

(** *** Encoding *)

Definition hex_digit (n : nat) : ascii :=
ascii_of_nat (if (n <? 10)%nat then 48 + n else 87 + n).

(** The escape of one character, as [ensure_ascii] writes it. *)
Definition escape_char (c : ascii) : string :=
let n := nat_of_ascii c in
if (n =? 34)%nat then String backslash (String quote "")
else if (n =? 92)%nat then String backslash (String backslash "")
else if (n =? 10)%nat then String backslash "n"
else if (n =? 13)%nat then String backslash "r"
else if (n =? 9)%nat then String backslash "t"
else if (n =? 8)%nat then String backslash "b"
else if (n =? 12)%nat then String backslash "f"
else if ((32 <=? n) && (n <=? 126))%nat then String c ""
else String backslash
     (String "u" (String "0" (String "0"
        (String (hex_digit (n / 16)) (String (hex_digit (n mod 16)) ""))))).

Fixpoint escape (s : string) : string :=
match s with
| EmptyString => ""
| String c s' => escape_char c ++ escape s'
end.

Definition dumps_str (s : string) : string :=
String quote (escape s ++ String quote "").

(** [str(z)] for an integer. *)
Definition dumps_int (z : Z) : string :=
match Z.to_int z with
| Decimal.Pos d => NilEmpty.string_of_uint d
| Decimal.Neg d => String "-" (NilEmpty.string_of_uint d)
end.

(** The text of a key of an object. *)
Definition dumps_key (k : pyval) : result string :=
match k with
| VStr s => Ok (dumps_str s)
| VInt z => Ok (String quote (dumps_int z ++ String quote ""))
| VBool true => Ok (dumps_str "true")
| VBool false => Ok (dumps_str "false")
| VNone => Ok (dumps_str "null")
| _ => Raise (TypeError "keys must be str, int, float, bool or None")
end.

Fixpoint dumps (v : pyval) : result string :=
match v with
| VNone => Ok "null"
| VBool true => Ok "true"
| VBool false => Ok "false"
| VInt z => Ok (dumps_int z)
| VStr s => Ok (dumps_str s)
| VList l | VTuple l =>
  let* parts := sequence (map dumps l) in
  Ok ("[" ++ str_join ", " parts ++ "]")
| VDict _ items =>
  let* parts :=
    sequence (map (fun kv =>
                     let* k := dumps_key (fst kv) in
                     let* x := dumps (snd kv) in
                     Ok (k ++ ": " ++ x)) items) in
  Ok ("{" ++ str_join ", " parts ++ "}")
| _ => Raise (TypeError "Object is not JSON serializable")
end.

(** *** Decoding *)

Definition is_ws (c : ascii) : bool :=
let n := nat_of_ascii c in
((n =? 32) || (n =? 9) || (n =? 10) || (n =? 13))%nat.

Fixpoint skip_ws (s : string) : string :=
match s with
| String c s' => if is_ws c then skip_ws s' else s
| EmptyString => s
end.

Definition digit_of (c : ascii) : option (Decimal.uint -> Decimal.uint) :=
let n := nat_of_ascii c in
if (n =? 48)%nat then Some Decimal.D0 else if (n =? 49)%nat then Some Decimal.D1
else if (n =? 50)%nat then Some Decimal.D2 else if (n =? 51)%nat then Some Decimal.D3
else if (n =? 52)%nat then Some Decimal.D4 else if (n =? 53)%nat then Some Decimal.D5
else if (n =? 54)%nat then Some Decimal.D6 else if (n =? 55)%nat then Some Decimal.D7
else if (n =? 56)%nat then Some Decimal.D8 else if (n =? 57)%nat then Some Decimal.D9
else None.

(** The longest run of digits at the start of [s], and the rest. *)
Fixpoint loads_digits (s : string) : Decimal.uint * string :=
match s with
| String c s' =>
  match digit_of c with
  | Some d => let '(ds, rest) := loads_digits s' in (d ds, rest)
  | None => (Decimal.Nil, s)
  end
| EmptyString => (Decimal.Nil, s)
end.

Definition uint_eqb (a b : Decimal.uint) : bool :=
String.eqb (NilEmpty.string_of_uint a) (NilEmpty.string_of_uint b).

(** An integer: digits with no leading zero, not followed by a fraction or
an exponent. *)
Definition loads_nat (s : string) : option (Z * string) :=
let '(ds, rest) := loads_digits s in
match ds with
| Decimal.Nil => None
| _ =>
  if negb (uint_eqb (Decimal.unorm ds) ds) then None
  else
    match rest with
    | String c _ =>
        if existsb (Ascii.eqb c) ["."%char; "e"%char; "E"%char] then None
        else Some (Z.of_uint ds, rest)
    | EmptyString => Some (Z.of_uint ds, rest)
    end
end.

Definition hex_value (c : ascii) : option nat :=
let n := nat_of_ascii c in
if ((48 <=? n) && (n <=? 57))%nat then Some (n - 48)%nat
else if ((97 <=? n) && (n <=? 102))%nat then Some (n - 87)%nat
else if ((65 <=? n) && (n <=? 70))%nat then Some (n - 55)%nat
else None.

(** The character [\uXXXX] stands for, for a code point below 256. *)
Definition loads_unicode (h1 h2 h3 h4 : ascii) : option ascii :=
match hex_value h1, hex_value h2, hex_value h3, hex_value h4 with
| Some O, Some O, Some a, Some b => Some (ascii_of_nat (16 * a + b))
| _, _, _, _ => None
end.

Definition loads_escape (e : ascii) : option ascii :=
let n := nat_of_ascii e in
if (n =? 34)%nat then Some quote
else if (n =? 92)%nat then Some backslash
else if (n =? 47)%nat then Some "/"%char
else if (n =? 98)%nat then Some (ascii_of_nat 8)
else if (n =? 102)%nat then Some (ascii_of_nat 12)
else if (n =? 110)%nat then Some (ascii_of_nat 10)
else if (n =? 114)%nat then Some (ascii_of_nat 13)
else if (n =? 116)%nat then Some (ascii_of_nat 9)
else None.

(** The characters of a string up to its closing quote, and the rest. *)
Fixpoint loads_chars (s : string) : option (string * string) :=
match s with
| EmptyString => None
| String c s' =>
  if Ascii.eqb c quote then Some ("", s')
  else if Ascii.eqb c backslash then
    match s' with
    | String e s'' =>
        if Ascii.eqb e "u" then
          match s'' with
          | String h1 (String h2 (String h3 (String h4 s5))) =>
              match loads_unicode h1 h2 h3 h4, loads_chars s5 with
              | Some x, Some (t, rest) => Some (String x t, rest)
              | _, _ => None
              end
          | _ => None
          end
        else
          match loads_escape e, loads_chars s'' with
          | Some x, Some (t, rest) => Some (String x t, rest)
          | _, _ => None
          end
    | EmptyString => None
    end
  else if (nat_of_ascii c <? 32)%nat then None
  else
    match loads_chars s' with
    | Some (t, rest) => Some (String c t, rest)
    | None => None
    end
end.

Fixpoint str_drop (n : nat) (s : string) : string :=
match n, s with
| S n', String _ s' => str_drop n' s'
| _, _ => s
end.

(** The dictionary of a list of pairs: a repeated key keeps its first
place and its last value. *)
Definition dict_of_pairs (pairs : list (pyval * pyval)) : list (pyval * pyval) :=
fold_left (fun d kv => dict_set py_key_eqb (fst kv) (snd kv) d) pairs [].

(** A value at the start of [s], and the rest.  [loads_elements] reads the
elements of an array after its bracket, [loads_pairs] the pairs of an
object after its brace.  [fuel] bounds the nesting of the calls. *)
Fixpoint loads_value (fuel : nat) (s : string) : option (pyval * string) :=
match fuel with
| O => None
| S fuel' =>
  match s with
  | EmptyString => None
  | String c s' =>
      if Ascii.eqb c quote then
        match loads_chars s' with
        | Some (t, rest) => Some (VStr t, rest)
        | None => None
        end
      else if Ascii.eqb c "[" then
        match skip_ws s' with
        | String "]" rest => Some (VList [], rest)
        | s1 =>
            match loads_elements fuel' s1 with
            | Some (l, rest) => Some (VList l, rest)
            | None => None
            end
        end
      else if Ascii.eqb c "{" then
        match skip_ws s' with
        | String "}" rest => Some (VDict false [], rest)
        | s1 =>
            match loads_pairs fuel' s1 with
            | Some (pairs, rest) => Some (VDict false (dict_of_pairs pairs), rest)
            | None => None
            end
        end
      else if Ascii.eqb c "-" then
        match loads_nat s' with
        | Some (z, rest) => Some (VInt (- z), rest)
        | None => None
        end
      else if String.prefix "null" s then Some (VNone, str_drop 4 s)
      else if String.prefix "true" s then Some (VBool true, str_drop 4 s)
      else if String.prefix "false" s then Some (VBool false, str_drop 5 s)
      else
        match loads_nat s with
        | Some (z, rest) => Some (VInt z, rest)
        | None => None
        end
  end
end
with loads_elements (fuel : nat) (s : string) : option (list pyval * string) :=
match fuel with
| O => None
| S fuel' =>
  match loads_value fuel' s with
  | None => None
  | Some (v, r) =>
      match skip_ws r with
      | String "," r' =>
          match loads_elements fuel' (skip_ws r') with
          | Some (l, rest) => Some (v :: l, rest)
          | None => None
          end
      | String "]" r' => Some ([v], r')
      | _ => None
      end
  end
end
with loads_pairs (fuel : nat) (s : string) : option (list (pyval * pyval) * string) :=
match fuel with
| O => None
| S fuel' =>
  match s with
  | String q s' =>
      if Ascii.eqb q quote then
        match loads_chars s' with
        | None => None
        | Some (k, r) =>
            match skip_ws r with
            | String ":" r1 =>
                match loads_value fuel' (skip_ws r1) with
                | None => None
                | Some (v, r2) =>
                    match skip_ws r2 with
                    | String "," r3 =>
                        match loads_pairs fuel' (skip_ws r3) with
                        | Some (pairs, rest) => Some ((VStr k, v) :: pairs, rest)
                        | None => None
                        end
                    | String "}" r3 => Some ([(VStr k, v)], r3)
                    | _ => None
                    end
                end
            | _ => None
            end
        end
      else None
  | EmptyString => None
  end
end.

Definition loads (s : string) : option pyval :=
match loads_value (2 * String.length s + 2) (skip_ws s) with
| Some (v, rest) =>
  match skip_ws rest with
  | EmptyString => Some v
  | _ => None
  end
| None => None
end.
End Json.


(** ** The guard on [n_jobs] and the start of [_run_model_on_fold] *)

Section RunOnFold.
Variable E : runtime.

(** [isinstance(model, sklearn.model_selection._search.BaseSearchCV)]. *)
Definition _is_hpo_class (model : pyval) : bool :=
match model with
| VEstimator cls _ =>
  match search_kind_of E cls with
  | NotSearch => false
  | _ => true
  end
| _ => false
end.


(** [param.split('__')[-1]]. *)
Definition last_segment (param : string) : string :=
List.last (str_split "__" param) "".

(** The loop over the items of one grid. *)
Fixpoint grid_values (items : list (pyval * pyval)) (parameter_name : string)
: result (list pyval) :=
match items with
| [] => Ok []
| (VStr param, value) :: rest =>
  let* result_ := grid_values rest parameter_name in
  if String.eqb (last_segment param) parameter_name
  then Ok (value :: result_)
  else Ok result_
| _ => Raise (AttributeError "split")
end.

Fixpoint _get_parameter_values_recursive (param_grid : pyval)
(parameter_name : string) : result (list pyval) :=
match param_grid with
| VDict _ items => grid_values items parameter_name
| VList sub_grids =>
  let* results :=
    sequence (map (fun sub_grid =>
                     _get_parameter_values_recursive sub_grid parameter_name)
                  sub_grids) in
  Ok (concat results)
| _ => Raise (ValueError "Param_grid should either be a dict or list of dicts")
end.




(** [isinstance(model, BaseEstimator) or self._is_hpo_class(model)]. *)
Definition is_base_estimator (model : pyval) : bool :=
match model with VEstimator _ _ => true | _ => false end.

Definition params_as_dict (model : pyval) : pyval :=
VDict false (map (fun kv => (VStr (fst kv), snd kv)) (get_params_deep E model)).

Definition _can_measure_cputime (model : pyval) : result bool :=
if negb (is_base_estimator model || _is_hpo_class model)
then Raise (ValueError "model should be BaseEstimator or BaseSearchCV")
else
let* n_jobs_vals := _get_parameter_values_recursive (params_as_dict model) "n_jobs" in
Ok (forallb (fun val => match val with
                        | VNone => true
                        | _ => py_key_eqb val (VInt 1)
                        end) n_jobs_vals).

Definition _can_measure_wallclocktime (model : pyval) : result bool :=
if negb (is_base_estimator model || _is_hpo_class model)
then Raise (ValueError "model should be BaseEstimator or BaseSearchCV")
else
let* n_jobs_vals := _get_parameter_values_recursive (params_as_dict model) "n_jobs" in
Ok (negb (existsb (py_key_eqb (VInt (-1))) n_jobs_vals)).



(** The data of a fold are arrays the shim hands on without reading
them; [fit] is the method of the model, and [after_fit] the body of
[_run_model_on_fold] from the prediction on.  The calls of [fit] are
recorded in a log. *)
Variable data : Type.
Variable outcome : Type.
Variable fit : pyval -> data -> option data -> result pyval.
Variable after_fit : pyval -> bool -> bool -> result outcome.


End RunOnFold.



(** ** A reference runtime

    An installation with a few classes of scikit-learn 0.21.2, for the
    examples: what [importlib] finds, the signatures of the constructors,
    and constructors that keep their arguments as scikit-learn estimators
    do. *)
Module Ref.

Inductive class_sort : Type :=
| EstimatorClass
| SplitterClass.

(** A class: its module and name, the arguments of [__init__] after
[self], the defaults of the last of them, and what its instances are. *)
Record class_info : Type := ClassInfo {
ci_module : string;
ci_name : string;
ci_args : list string;
ci_defaults : list pyval;
ci_sort : class_sort;
ci_search : search_kind
}.

Definition ci_path (c : class_info) : string :=
(ci_module c ++ "." ++ ci_name c)%string.

Definition installed : list class_info :=
[ ClassInfo "sklearn.preprocessing.data" "StandardScaler"
  ["copy"; "with_mean"; "with_std"] [VBool true; VBool true; VBool true]
  EstimatorClass NotSearch;
ClassInfo "sklearn.dummy" "DummyClassifier"
  ["strategy"; "random_state"; "constant"] [VStr "stratified"; VNone; VNone]
  EstimatorClass NotSearch;
ClassInfo "sklearn.multiclass" "OneVsRestClassifier"
  ["estimator"; "n_jobs"] [VNone]
  EstimatorClass NotSearch;
ClassInfo "sklearn.calibration" "CalibratedClassifierCV"
  ["base_estimator"; "method"; "cv"] [VNone; VStr "sigmoid"; VStr "warn"]
  EstimatorClass NotSearch;
ClassInfo "sklearn.pipeline" "Pipeline"
  ["steps"; "memory"; "verbose"] [VNone; VBool false]
  EstimatorClass NotSearch;
ClassInfo "sklearn.model_selection._search" "GridSearchCV"
  ["estimator"; "param_grid"; "scoring"; "n_jobs"; "iid"; "refit"; "cv";
   "verbose"; "pre_dispatch"; "error_score"; "return_train_score"]
  [VNone; VNone; VStr "warn"; VBool true; VStr "warn"; VInt 0;
   VStr "2*n_jobs"; VStr "raise-deprecating"; VBool false]
  EstimatorClass GridSearchCV;
ClassInfo "sklearn.model_selection._split" "KFold"
  ["n_splits"; "shuffle"; "random_state"] [VStr "warn"; VBool false; VNone]
  SplitterClass NotSearch ].

Definition find_class (module attribute : string) : option class_info :=
List.find (fun c => String.eqb (ci_module c) module && String.eqb (ci_name c) attribute)
installed.

Definition find_path (path : string) : option class_info :=
List.find (fun c => String.eqb (ci_path c) path) installed.

Definition import_attr (module attribute : string) : import_result :=
match find_class module attribute with
| Some c => Imported (VType (TClass (ci_path c)))
| None =>
  if existsb (fun c => String.eqb (ci_module c) module) installed
  then NoSuchAttribute else NoSuchModule
end.

Definition getfullargspec_init (cls : pyval) : list string * list pyval :=
match cls with
| VType (TClass path) =>
  match find_path path with
  | Some c => ("self" :: ci_args c, ci_defaults c)
  | None => (["self"], [])
  end
| _ => (["self"], [])
end.

(** The defaults of a class by the name of the argument. *)
Definition defaults_of (c : class_info) : list (string * pyval) :=
rev (combine (rev (ci_args c)) (rev (ci_defaults c))).

(** The arguments of a call, completed by the defaults, in the order of
the names: what [get_params(deep=False)] returns for the object. *)
Fixpoint bind_arguments (names : list string) (defaults kwargs : list (string * pyval))
: result (list (string * pyval)) :=
match names with
| [] => Ok []
| n :: rest =>
  let* rest' := bind_arguments rest defaults kwargs in
  match dict_get String.eqb n kwargs with
  | Some v => Ok ((n, v) :: rest')
  | None =>
      match dict_get String.eqb n defaults with
      | Some v => Ok ((n, v) :: rest')
      | None => Raise (TypeError "missing a required positional argument")
      end
  end
end.

Definition call_with_kwargs (cls : pyval) (kwargs : list (string * pyval))
: result pyval :=
match cls with
| VType (TClass path) =>
  match find_path path with
  | Some c =>
      if negb (forallb (fun kv => existsb (String.eqb (fst kv)) (ci_args c)) kwargs)
      then Raise (TypeError "got an unexpected keyword argument")
      else
        let* params := bind_arguments (str_sorted (ci_args c)) (defaults_of c) kwargs in
        Ok (match ci_sort c with
            | EstimatorClass => VEstimator path params
            | SplitterClass => VCrossValidator path params
            end)
  | None => Raise (TypeError "object is not callable")
  end
| _ => Raise (TypeError "object is not callable")
end.

Definition package_version (package : string) : result string :=
if String.eqb package "sklearn" then Ok "0.21.2"
else if String.eqb package "numpy" then Ok "1.16.4"
else Raise (ImportError "No module named").

Definition search_kind_of (path : string) : search_kind :=
match find_path path with
| Some c => ci_search c
| None => NotSearch
end.

(** [BaseEstimator.get_params(deep=True)]: the parameters, and those of
every parameter that is an estimator under its name and two
underscores. *)
Fixpoint get_params_deep (model : pyval) : list (string * pyval) :=
match model with
| VEstimator _ params =>
  flat_map (fun kv =>
              map (fun sub => ((fst kv ++ "__" ++ fst sub)%string, snd sub))
                  (get_params_deep (snd kv))
              ++ [(fst kv, snd kv)]) params
| _ => []
end.

Definition env : runtime :=
Runtime Json.dumps Json.loads import_attr getfullargspec_init call_with_kwargs
(fun _ _ _ => Raise (ImportError "No module named scipy"))
package_version "0.10.0" "0.21.2" search_kind_of get_params_deep
(fun model => Ok model).
End Ref.


(** ** Models and flows of the examples *)

Definition example_scaler : pyval :=
  VEstimator "sklearn.preprocessing.data.StandardScaler"
    [("copy", VBool true); ("with_mean", VBool true); ("with_std", VBool false)].

Definition example_dummy : pyval :=
  VEstimator "sklearn.dummy.DummyClassifier"
    [("constant", VNone); ("random_state", VInt 3); ("strategy", VStr "prior")].

Definition example_one_vs_rest : pyval :=
  VEstimator "sklearn.multiclass.OneVsRestClassifier"
    [("estimator", example_dummy); ("n_jobs", VNone)].

Definition example_pipeline : pyval :=
  VEstimator "sklearn.pipeline.Pipeline"
    [("memory", VNone);
     ("steps", VList [VTuple [VStr "scaler"; example_scaler];
                      VTuple [VStr "clf"; example_one_vs_rest]]);
     ("verbose", VBool false)].

Definition example_calibrated : pyval :=
  VEstimator "sklearn.calibration.CalibratedClassifierCV"
    [("base_estimator", example_dummy); ("cv", VInt 3); ("method", VStr "isotonic")].


(** The flow of a model in the reference runtime. *)
Definition flow_of (model : pyval) : flow :=
  match model_to_flow Ref.env model with
  | Ok (VFlow f) => f
  | _ => bare_flow SNone SNone []
  end.

(** The reference to the component [scaler] used as a step of that name. *)
Definition example_reference : pyval :=
  component_reference (VStr "scaler") (VStr "scaler") None.

(** The marker key between quotes: a text that [json.loads] decodes to the
    marker key. *)
Definition quoted_marker : string :=
  String Json.quote (serialized_object ++ String Json.quote "").

(** A reference whose third argument is a plain mapping under the quoted
    marker. *)
Definition example_reference_quoted : pyval :=
  component_reference (VStr "scaler") (VStr "scaler")
    (Some (VDict false [(VStr quoted_marker, VStr "component_reference")])).

(** A mapping with the marker and a tag outside the enumeration. *)
Definition example_unknown_tag : pyval :=
  VDict false [(VStr serialized_object, VStr "estimator"); (VStr "value", VInt 1)].

(** A grid search over the number of jobs of the estimator it tunes. *)
Definition example_grid_search : pyval :=
  VEstimator "sklearn.model_selection._search.GridSearchCV"
    [("cv", VStr "warn"); ("error_score", VStr "raise-deprecating");
     ("estimator", example_one_vs_rest); ("iid", VStr "warn"); ("n_jobs", VNone);
     ("param_grid",
      VDict false [(VStr "estimator__strategy", VList [VStr "prior"; VStr "uniform"]);
                   (VStr "n_jobs", VList [VInt 1; VInt 2])]);
     ("pre_dispatch", VStr "2*n_jobs"); ("refit", VBool true);
     ("return_train_score", VBool false); ("scoring", VNone); ("verbose", VInt 0)].


(** ** The names met by the duplicate check *)









(** ** Models that come back from their flow *)

(** What [json.loads] returns for the text [json.dumps] writes for a value:
    a tuple comes back as a list, an ordered dictionary as a dictionary. *)
Fixpoint json_image (v : pyval) : pyval :=
match v with
| VList l | VTuple l => VList (map json_image l)
| VDict _ items => VDict false (map (fun kv => (fst kv, json_image (snd kv))) items)
| _ => v
end.

Fixpoint distinct_keys (items : list (pyval * pyval)) : bool :=
match items with
| [] => true
| kv :: rest => negb (key_in py_key_eqb (fst kv) (map fst rest)) && distinct_keys rest
end.

Definition is_VStr (v : pyval) : bool :=
match v with VStr _ => true | _ => false end.

(** The values of JSON in the embedding: [None], booleans, integers,
    strings, lists and tuples of them, and dictionaries of them under
    distinct strings. *)
Fixpoint json_value (v : pyval) : bool :=
match v with
| VNone | VBool _ | VInt _ | VStr _ => true
| VList l | VTuple l => forallb json_value l
| VDict _ items =>
    forallb (fun kv => is_VStr (fst kv) && json_value (snd kv)) items
    && distinct_keys items
| _ => false
end.

(** What the walkers need of [json]: decoding the text of a value gives its
    image, and the two keys of a component reference are no JSON text. *)
Definition json_codec (E : runtime) : Prop :=
(forall v text, json_value v = true -> json_dumps E v = Ok text ->
                json_loads E text = Some (json_image v)) /\
json_loads E "key" = None /\
json_loads E "step_name" = None.

Section Plain.
Variable E : runtime.






End Plain.




(** ** More of the extension ([openml/extensions/sklearn/extension.py]) *)

(** *** [_openml_param_name_to_sklearn] *)

(** The two attributes of an [OpenMLParameter] the function reads. *)
Record openml_parameter : Type := OpenMLParameter {
flow_name : string;
parameter_name : string
}.

(** Both arguments are typed, so the two [isinstance] checks have nothing
    to refuse. *)
Definition _openml_param_name_to_sklearn (openml_parameter : openml_parameter)
  (flow : flow) : result string :=
let* flow_structure := get_structure flow "name" in
match flow_structure !! SStr (flow_name openml_parameter) with
| None => Raise (ValueError "Obtained OpenMLParameter and OpenMLFlow do not correspond. ")
| Some path => Ok (str_join "__" (path ++ [parameter_name openml_parameter]))
end.

(** ** Predicates on flows used to state further properties *)

(** The identifiers of [components] are pairwise distinct, in the flow and
    in each of its components at any depth, as the keys of a dictionary
    are. *)
Fixpoint distinct_components (f : flow) : bool :=
  bool_decide (NoDup (dict_keys (components f))) &&
  forallb (fun c => distinct_components (snd c)) (components f).

(** Every component of [source], at any depth, has a component of [target]
    under the same identifiers. *)
Fixpoint covers (source target : flow) : bool :=
  forallb (fun c =>
             match dict_get String.eqb (fst c) (components target) with
             | Some t => covers (snd c) t
             | None => false
             end) (components source).

(** The flow of [example_A] as the server returns it once it is published:
    with an identifier at each level. *)
Definition example_A_published : flow :=
  bare_flow (SStr "A(B(C))") (SInt 10)
    [("b", bare_flow (SStr "B(C)") (SInt 11)
             [("c", bare_flow (SStr "C") (SInt 12) [])])].


(** *** [get_flow_dict], the inner function of [obtain_parameter_values] *)

(** [flow_map.update(sub_map)]: an entry of [sub_map] replaces the entry of
    [flow_map] under the same key. *)
Definition dict_update (sub_map flow_map : gmap scalar scalar) : gmap scalar scalar :=
  sub_map ∪ flow_map.

(** The map from the name of a flow and of each of its components to its
    identifier on the server.  The keys are stored under [scalar_key], as
    for [get_structure]; the loop goes through the identifiers of
    [components] and looks up the component of each. *)
Fixpoint get_flow_dict (_flow : flow) : gmap scalar scalar :=
  fold_left (fun flow_map c => dict_update (get_flow_dict (snd c)) flow_map)
    (components _flow)
    {[ scalar_key (name _flow) := flow_id _flow ]}.

(** The flows of a tree: the flow and its components at every depth. *)
Fixpoint subflows (f : flow) : list flow :=
  f :: flat_map (fun c => subflows (snd c)) (components f).


(** *** [seed_model] *)

Section SeedModel.
Variable E : runtime.

(** [issubclass(cls, np.random.RandomState)] for the class of an object. *)
Variable random_state_class : string -> bool.

(** [np.random.RandomState(seed)]: the generator is held as the results of
its successive calls of [randint(0, 2 ** 16)], counted from zero. *)
Variable RandomState : option Z -> nat -> Z.

(** The inner function.  A boolean is an [int]; a numpy scalar is not. *)
Definition _seed_current_object (current_value : pyval) : result bool :=
match current_value with
| VInt _ | VBool _ => Ok false
| VObject cls =>
if random_state_class cls
then Raise (ValueError "Models initialized with a RandomState object are not supported. Please seed with an integer. ")
else Raise (ValueError "Models should be seeded with int or None (this should never happen). ")
| VNone => Ok true
| _ => Raise (ValueError "Models should be seeded with int or None (this should never happen). ")
end.

(** What the loop has done so far: the number of calls of [randint], the
dictionary [random_states], and the assignments made to the attribute
[random_state] of splitters, each under the name of the parameter that
holds the splitter. *)
Record seeding : Type := Seeding {
drawn : nat;
random_states : list (string * pyval);
splitter_seeds : list (string * pyval)
}.

(** The loop over [sorted(model_params)].  A splitter has the attribute
[random_state] when it is among its attributes; the same splitter is
taken not to be held under two names, so that an assignment to it does
not change what the loop reads under a later name. *)
Fixpoint seed_parameters (rs : nat -> Z) (names : list string)
(model_params : list (string * pyval)) (st : seeding) : result seeding :=
match names with
| [] => Ok st
| param_name :: rest =>
match dict_get String.eqb param_name model_params with
| None => Raise (KeyError param_name)
| Some value =>
  if str_contains "random_state" param_name then
    let current_value := value in
    let new_value := rs (drawn st) in
    let* seed := _seed_current_object current_value in
    seed_parameters rs rest model_params
      (Seeding (S (drawn st))
         (if seed
          then dict_set String.eqb param_name (VInt new_value) (random_states st)
          else random_states st)
         (splitter_seeds st))
  else
    match value with
    | VCrossValidator _ attrs =>
        match dict_get String.eqb "random_state" attrs with
        | None => seed_parameters rs rest model_params st
        | Some current_value =>
            let new_value := rs (drawn st) in
            let* seed := _seed_current_object current_value in
            seed_parameters rs rest model_params
              (Seeding (S (drawn st)) (random_states st)
                 (if seed
                  then dict_set String.eqb param_name (VInt new_value)
                         (splitter_seeds st)
                  else splitter_seeds st))
        end
    | _ => seed_parameters rs rest model_params st
    end
end
end.

(** [seed_model(model, seed)] up to its last statement: the keyword
arguments [random_states] of the call of [model.set_params] and the seeds assigned
to the splitters of the model, which is then returned. *)
Definition seed_model (model : pyval) (seed : option Z) : result seeding :=
let rs := RandomState seed in
let model_params := get_params_deep E model in
seed_parameters rs (str_sorted (dict_keys model_params)) model_params
(Seeding 0 [] []).
End SeedModel.

(** The parameters for which the loop of [seed_model] calls the generator:
    those with [random_state] in their name, and those that hold a splitter
    with the attribute [random_state]. *)
Definition draws_seed (model_params : list (string * pyval)) (param_name : string)
    : bool :=
  str_contains "random_state" param_name ||
  match dict_get String.eqb param_name model_params with
  | Some (VCrossValidator _ attrs) => dict_in String.eqb "random_state" attrs
  | _ => false
  end.

(** The value a parameter is seeded from: its own, or the attribute
    [random_state] of the splitter it holds. *)
Definition seeded_value (model_params : list (string * pyval)) (param_name : string)
    : option pyval :=
  if str_contains "random_state" param_name
  then dict_get String.eqb param_name model_params
  else match dict_get String.eqb param_name model_params with
       | Some (VCrossValidator _ attrs) => dict_get String.eqb "random_state" attrs
       | _ => None
       end.

(** A model with an unseeded classifier and an unseeded splitter. *)
Definition example_unseeded : pyval :=
  VEstimator "sklearn.calibration.CalibratedClassifierCV"
    [("base_estimator",
      VEstimator "sklearn.dummy.DummyClassifier"
        [("constant", VNone); ("random_state", VNone); ("strategy", VStr "prior")]);
     ("cv",
      VCrossValidator "sklearn.model_selection._split.KFold"
        [("n_splits", VInt 3); ("random_state", VNone); ("shuffle", VBool true)]);
     ("method", VStr "isotonic")].

(** The same model with a generator of numpy as the seed of the
    classifier. *)
Definition example_generator_seed : pyval :=
  VEstimator "sklearn.calibration.CalibratedClassifierCV"
    [("base_estimator",
      VEstimator "sklearn.dummy.DummyClassifier"
        [("constant", VNone); ("random_state", VObject "numpy.random.mtrand.RandomState");
         ("strategy", VStr "prior")]);
     ("cv",
      VCrossValidator "sklearn.model_selection._split.KFold"
        [("n_splits", VInt 3); ("random_state", VNone); ("shuffle", VBool true)]);
     ("method", VStr "isotonic")].

(** A generator for the examples: it counts up from the seed. *)
Definition example_generator (seed : option Z) (n : nat) : Z :=
  (match seed with Some s => s | None => 0 end + Z.of_nat n) mod 65536.

(** A value [seed_model] accepts where it looks for a seed: [None] or an
    integer. *)
Definition seedable (current_value : option pyval) : bool :=
  match current_value with
  | Some (VNone | VInt _ | VBool _) => true
  | _ => false
  end.


(** *** The probabilities of [_run_model_on_fold] *)

Section Probabilities.
(** The numbers of numpy, of which the code writes [0.0] and [1.0] and
copies the others. *)
Variable float : Type.
Variables zero one : float.

(** A two-dimensional array of numpy, held by its columns: [shape0] rows
and one list of [shape0] numbers for each column. *)
Record matrix : Type := Matrix {
shape0 : nat;
columns : list (list float)
}.

Definition shape1 (a : matrix) : nat := length (columns a).

(** [np.zeros((n, m))]. *)
Definition zeros (n m : nat) : matrix := Matrix n (replicate m (replicate n zero)).

(** [a[i][j]]. *)
Definition entry (a : matrix) (i j : nat) : option float :=
match columns a !! j with
| Some column => column !! i
| None => None
end.

(** The place an integer index has along an axis of length [n]: a
negative index counts from the end. *)
Definition axis_index (n : nat) (i : Z) : result nat :=
if (0 <=? i)%Z && (i <? Z.of_nat n)%Z then Ok (Z.to_nat i)
else if (- Z.of_nat n <=? i)%Z && (i <? 0)%Z then Ok (Z.to_nat (i + Z.of_nat n))
else Raise (IndexError "index is out of bounds for axis").

(** [a[i][j] = v] for a row [i] the array has. *)
Definition set_entry (a : matrix) (i j : nat) (v : float) : matrix :=
Matrix (shape0 a) (alter (fun column => <[i := v]> column) j (columns a)).

(** The loop of [_prediction_to_probabilities] over [enumerate(y)]. *)
Fixpoint mark_predictions (result_ : matrix) (obs : nat) (y : list Z) : result matrix :=
match y with
| [] => Ok result_
| prediction_idx :: rest =>
let* j := axis_index (shape1 result_) prediction_idx in
mark_predictions (set_entry result_ obs j one) (S obs) rest
end.

(** [_prediction_to_probabilities(y, classes)], the inner function of
[_run_model_on_fold]; [classes] is a list, as the one call passes one. *)
Definition _prediction_to_probabilities {A : Type} (y : list Z) (classes : list A)
: result matrix :=
mark_predictions (zeros (length y) (length classes)) 0 y.

(** The loop over [enumerate(model_classes)] that copies the columns. *)
Fixpoint remap_columns (proba_y proba_y_new : matrix) (idx : nat)
(model_classes : list Z) : result matrix :=
match model_classes with
| [] => Ok proba_y_new
| model_class :: rest =>
match columns proba_y !! idx with
| None => Raise (IndexError "index is out of bounds for axis")
| Some column =>
  let* j := axis_index (shape1 proba_y_new) model_class in
  remap_columns proba_y
    (Matrix (shape0 proba_y_new) (<[j := column]> (columns proba_y_new)))
    (S idx) rest
end
end.

(** The probabilities [_run_model_on_fold] returns for a task with the
labels [class_labels], from those the model predicts for the classes
[model_classes] it has seen. *)
Definition remap_probabilities {A : Type} (proba_y : matrix) (class_labels : list A)
(model_classes : list Z) : result matrix :=
if negb (shape1 proba_y =? length class_labels)%nat
then remap_columns proba_y (zeros (shape0 proba_y) (length class_labels)) 0
 model_classes
else Ok proba_y.
End Probabilities.

Arguments Matrix {float} shape0 columns.
Arguments shape0 {float} m.
Arguments columns {float} m.
Arguments shape1 {float} a.
Arguments entry {float} a i j.


(** *** The trace of a search: [_extract_trace_data] and [_obtain_arff_trace] *)

(** An entry of a masked array of numpy. *)
Inductive cell : Type :=
| Masked
| Value (v : pyval).

(** [s[n:]]. *)
Fixpoint str_drop (n : nat) (s : string) : string :=
  match n, s with
  | O, _ => s
  | S n', String _ s' => str_drop n' s'
  | S _, EmptyString => ""
  end.

Section Trace.
Variable E : runtime.

(** The numbers of [cv_results_['mean_test_score']], which the code copies. *)
Variable score : Type.

(** What the two functions read of a fitted search: [cv_results_], when
the model has the attribute, and [best_index_].  [results] holds the
keys of [cv_results_] other than [mean_test_score] in their order, each
with its array. *)
Record cv_results : Type := CvResults {
mean_test_score : list score;
results : list (string * list cell)
}.

Record fitted_search : Type := FittedSearch {
search_model : pyval;
cv_results_ : option cv_results;
best_index_ : Z
}.

(** An entry of a line of the trace. *)
Inductive arff_value : Type :=
| ANumber (z : Z)
| AScore (s : score)
| AText (s : string)
| ANan.

(** The body of the loop over the keys of [cv_results_], for one key that
starts with [param_]. *)
Definition trace_parameter (column : list cell) (itt_no : nat) : result arff_value :=
match column !! itt_no with
| None => Raise (IndexError "index is out of bounds for axis")
| Some Masked => Ok ANan
| Some (Value value) => let* serialized_value := json_dumps E value in
                  Ok (AText serialized_value)
end.

Fixpoint trace_parameters (columns : list (string * list cell)) (itt_no : nat)
(arff_line : list arff_value) : result (list arff_value) :=
match columns with
| [] => Ok arff_line
| (key, column) :: rest =>
if String.prefix "param_" key then
let* serialized_value := trace_parameter column itt_no in
trace_parameters rest itt_no (arff_line ++ [serialized_value])
else trace_parameters rest itt_no arff_line
end.

(** The loop over [range(0, len(cv_results_['mean_test_score']))];
[scores] holds the scores from [itt_no] on. *)
Fixpoint trace_lines (columns : list (string * list cell)) (best_index : Z)
(rep_no fold_no : Z) (itt_no : nat) (scores : list score)
(arff_tracecontent : list (list arff_value)) : result (list (list arff_value)) :=
match scores with
| [] => Ok arff_tracecontent
| test_score :: rest =>
let selected := if (Z.of_nat itt_no =? best_index)%Z then "true" else "false" in
let arff_line := [ANumber rep_no; ANumber fold_no; ANumber (Z.of_nat itt_no);
                AScore test_score; AText selected] in
let* arff_line := trace_parameters columns itt_no arff_line in
trace_lines columns best_index rep_no fold_no (S itt_no) rest
(arff_tracecontent ++ [arff_line])
end.

Definition _extract_trace_data (model : fitted_search) (rep_no fold_no : Z)
: result (list (list arff_value)) :=
match cv_results_ model with
| None => Raise (AttributeError "cv_results_")
| Some cv =>
trace_lines (results cv) (best_index_ model) rep_no fold_no 0
(mean_test_score cv) []
end.

(** The type of an attribute of the trace: [NUMERIC], [STRING], or the
list of the values of a nominal attribute. *)
Inductive arff_type : Type :=
| NUMERIC
| STRING
| Nominal (values : list string).

(** How a call of [_obtain_arff_trace] ends other than by a result: an
exception of [exn], or the UnboundLocalError of a local variable read
before it is assigned. *)
Inductive trace_error : Type :=
| Raised (e : exn)
| UnboundLocalError (variable : string).

(** [isinstance(i, int)] for the elements of a list. *)
Definition is_int (v : pyval) : bool :=
match v with VInt _ | VBool _ => true | _ => false end.

(** The test of one value of a parameter: a value of a basic type, [None],
a masked entry or a list of integers.  Of the numpy scalars only a
string is an instance of a basic type. *)
Definition supported_param_value (param_value : cell) : bool :=
match param_value with
| Masked => true
| Value (VBool _ | VInt _ | VStr _ | VNone) => true
| Value (VNumpy (SStr _)) => true
| Value (VList l) => forallb is_int l
| Value _ => false
end.

(** The loop over the values of one parameter: the local variable [type]
after it, [None] while it is not assigned. *)
Fixpoint check_param_values (key : string) (column : list cell)
(type : option arff_type) : result (option arff_type) :=
match column with
| [] => Ok type
| param_value :: rest =>
if supported_param_value param_value
then check_param_values key rest (Some STRING)
else Raise (TypeError "Unsupported param type in param grid")
end.

(** The name the module of traces puts before the name of a parameter. *)
Variable PREFIX : string.

(** The loop over the keys of [cv_results_] that adds the attributes of
the parameters. *)
Fixpoint trace_attributes_of (columns : list (string * list cell))
(type : option arff_type) (trace_attributes : list (string * arff_type))
: trace_error + list (string * arff_type) :=
match columns with
| [] => inr trace_attributes
| (key, column) :: rest =>
if String.prefix "param_" key then
match check_param_values key column type with
| Raise e => inl (Raised e)
| Ok None => inl (UnboundLocalError "type")
| Ok (Some type) =>
    let attribute := ((PREFIX ++ str_drop 6 key)%string, type) in
    trace_attributes_of rest (Some type) (trace_attributes ++ [attribute])
end
else trace_attributes_of rest type trace_attributes
end.

(** [OpenMLRunTrace.generate(attributes, content)], of the module of
traces. *)
Variable trace : Type.
Variable generate :
list (string * arff_type) -> list (list arff_value) -> trace_error + trace.

Definition _obtain_arff_trace (model : fitted_search)
(trace_content : list (list arff_value)) : trace_error + trace :=
if negb (_is_hpo_class E (search_model model)) then inl (Raised AssertionError)
else
match cv_results_ model with
| None => inl (Raised (ValueError "model should contain `cv_results_`"))
| Some cv =>
let trace_attributes :=
[("repeat", NUMERIC); ("fold", NUMERIC); ("iteration", NUMERIC);
 ("evaluation", NUMERIC); ("selected", Nominal ["true"; "false"])] in
match trace_attributes_of (results cv) None trace_attributes with
| inl e => inl e
| inr trace_attributes => generate trace_attributes trace_content
end
end.
End Trace.

Arguments CvResults {score} mean_test_score results.
Arguments mean_test_score {score} c.
Arguments results {score} c.
Arguments FittedSearch {score} search_model cv_results_ best_index_.
Arguments search_model {score} f.
Arguments cv_results_ {score} f.
Arguments best_index_ {score} f.
Arguments ANumber {score} z.
Arguments AScore {score} s.
Arguments AText {score} s.
Arguments ANan {score}.

(** The keys of [cv_results_] that hold the values of a parameter. *)
Definition param_keys (columns : list (string * list cell)) : list string :=
  List.filter (String.prefix "param_") (dict_keys columns).

(** The part of a line that says whether its iteration is the selected
    one. *)
Definition selected_of {score : Type} (arff_line : list (arff_value score))
    : option string :=
  match arff_line !! 4%nat with
  | Some (AText selected) => Some selected
  | _ => None
  end.

(** The results of a search over three candidates, the second of which is
    the best; the scores are held in hundredths. *)
Definition example_cv_results : cv_results Z :=
  CvResults [70; 90; 81]
    [("mean_fit_time", [Masked; Masked; Masked]);
     ("param_estimator__strategy",
      [Value (VStr "prior"); Value (VStr "uniform"); Value (VStr "stratified")]);
     ("param_estimator__constant", [Masked; Masked; Value (VInt 1)]);
     ("rank_test_score", [Value (VInt 3); Value (VInt 1); Value (VInt 2)])].

Definition example_fitted_search : fitted_search Z :=
  FittedSearch example_grid_search (Some example_cv_results) 1.

(** The five attributes every trace has. *)
Definition fixed_trace_attributes : list (string * arff_type) :=
  [("repeat", NUMERIC); ("fold", NUMERIC); ("iteration", NUMERIC);
   ("evaluation", NUMERIC); ("selected", Nominal ["true"; "false"])].

(** A trace that is the attributes and the lines it is generated from, for
    the examples. *)
Definition example_trace : Type :=
  list (string * arff_type) * list (list (arff_value Z)).

Definition example_generate (attributes : list (string * arff_type))
    (content : list (list (arff_value Z))) : trace_error + example_trace :=
  inr (attributes, content).

(** A search that has not gone through any candidate. *)
Definition example_empty_search : fitted_search Z :=
  FittedSearch example_grid_search
    (Some (CvResults [] [("mean_fit_time", []); ("param_n_jobs", [])])) 0.

(** *** Predicates used to state the round trip of a splitter *)

(** [None], a boolean, an integer or a string. *)
Definition simple_value (v : pyval) : bool :=
  match v with
  | VNone | VBool _ | VInt _ | VStr _ => true
  | _ => false
  end.

(** What comes back for an attribute stored by [_serialize_cross_validator]:
    the attribute, or [None] for an empty one. *)
Definition attribute_back (v : pyval) : pyval :=
  if is_empty_sized v then VNone else v.

(** A splitter of the reference runtime. *)
Definition example_kfold : pyval :=
  VCrossValidator "sklearn.model_selection._split.KFold"
    [("n_splits", VInt 5); ("random_state", VInt 7); ("shuffle", VBool true)].

(** What the forward walker returns for it in the reference runtime. *)
Definition example_kfold_serialized : pyval :=
  match model_to_flow Ref.env example_kfold with
  | Ok serialized => serialized
  | Raise _ => VNone
  end.

(** *** [obtain_parameter_values] *)






Section ObtainParameterValues.
Variable E : runtime.

(** [openml.flows.functions._check_flow_for_server_id], of another module
of the package: it raises when the flow or one of its components has no
identifier of the server. *)
Variable _check_flow_for_server_id : flow -> result unit.









End ObtainParameterValues.


(** *** Predicates used to state what the forward walker refuses *)

Definition is_tuple (v : pyval) : bool :=
  match v with VTuple _ => true | _ => false end.

(** A pipeline with a step named as its parameter [memory]. *)
Definition example_pipeline_shadowing : pyval :=
  VEstimator "sklearn.pipeline.Pipeline"
    [("memory", VNone);
     ("steps", VList [VTuple [VStr "scaler"; example_scaler];
                      VTuple [VStr "memory"; example_one_vs_rest]]);
     ("verbose", VBool false)].


(** * An induction principle for values *)

(** Induction on a value with the hypothesis for every value it holds. *)
Lemma pyval_ind_nested (P : pyval -> Prop) :
  P VNone -> (forall b, P (VBool b)) -> (forall z, P (VInt z)) ->
  (forall s, P (VStr s)) ->
  (forall l, Forall P l -> P (VList l)) ->
  (forall l, Forall P l -> P (VTuple l)) ->
  (forall ordered items,
     Forall (fun kv => P (fst kv) /\ P (snd kv)) items -> P (VDict ordered items)) ->
  (forall item, P (VNumpy item)) ->
  (forall t, P (VType t)) ->
  (forall m n, P (VFunction m n)) ->
  (forall dist a b args kwds, P a -> P b -> P args -> P kwds ->
     P (VRvFrozen dist a b args kwds)) ->
  (forall cls attrs, Forall (fun kv => P (snd kv)) attrs -> P (VCrossValidator cls attrs)) ->
  (forall cls params, Forall (fun kv => P (snd kv)) params -> P (VEstimator cls params)) ->
  (forall f, P (VFlow f)) ->
  (forall cls, P (VObject cls)) ->
  forall v, P v.
Proof.
  intros HNone HBool HInt HStr HList HTuple HDict HNumpy HType HFun HRv HCv HEst
    HFlow HObj.
  fix IH 1. intros v. destruct v.
  - exact HNone.
  - apply HBool.
  - apply HInt.
  - apply HStr.
  - apply HList. revert l. fix IHl 1. intros [|x l]; constructor; [apply IH | apply IHl].
  - apply HTuple. revert l. fix IHl 1. intros [|x l]; constructor; [apply IH | apply IHl].
  - apply HDict. revert items. fix IHl 1.
    intros [|[k x] l]; constructor; [split; apply IH | apply IHl].
  - apply HNumpy.
  - apply HType.
  - apply HFun.
  - apply HRv; apply IH.
  - apply HCv. revert attrs. fix IHl 1.
    intros [|[k x] l]; constructor; [apply IH | apply IHl].
  - apply HEst. revert params. fix IHl 1.
    intros [|[k x] l]; constructor; [apply IH | apply IHl].
  - apply HFlow.
  - apply HObj.
Qed.


(** * Properties of the flow entity *)

(** ** Keys of dictionaries *)


Lemma key_eqb_true a b : key_eqb a b = true <-> scalar_key a = scalar_key b.
Proof. unfold key_eqb. apply bool_decide_eq_true. Qed.

Lemma key_in_true k ks :
  key_in key_eqb k ks = true <-> exists k', In k' ks /\ scalar_key k' = scalar_key k.
Proof.
  unfold key_in. rewrite existsb_exists.
  split; intros (k' & Hin & Hk); exists k'; split; trivial; now apply key_eqb_true.
Qed.

Lemma key_in_proper k1 k2 ks :
  scalar_key k1 = scalar_key k2 -> key_in key_eqb k1 ks = key_in key_eqb k2 ks.
Proof.
  intros Hk. apply eq_true_iff_eq. rewrite !key_in_true.
  split; intros (k' & Hin & Hk'); exists k'; split; trivial; congruence.
Qed.

Lemma keys_difference_nil a b :
  keys_difference a b = [] <-> forall k, In k a -> key_in key_eqb k b = true.
Proof.
  unfold keys_difference. induction a as [|x a IH]; simpl.
  - split; [intros _ k [] | reflexivity].
  - destruct (key_in key_eqb x b) eqn:Hx; simpl.
    + rewrite IH. split.
      * intros H k [<-|Hk]; auto.
      * intros H k Hk. apply H. now right.
    + split; [discriminate|].
      intros H. specialize (H x (or_introl eq_refl)). congruence.
Qed.

Lemma same_keys_differences {A B : Type} (ps : list (scalar * A)) (ms : list (scalar * B)) :
  same_keys ps ms <->
  keys_difference (dict_keys ps) (dict_keys ms) = [] /\
  keys_difference (dict_keys ms) (dict_keys ps) = [].
Proof.
  rewrite !keys_difference_nil. unfold same_keys. split.
  - intros H. split; intros k Hk.
    + rewrite <- H. apply key_in_true. now exists k.
    + rewrite H. apply key_in_true. now exists k.
  - intros [H1 H2] k. apply eq_true_iff_eq. rewrite !key_in_true. split.
    + intros (k' & Hin & Hk). apply H1 in Hin. apply key_in_true in Hin.
      destruct Hin as (k'' & Hin & Hk''). exists k''. split; trivial. congruence.
    + intros (k' & Hin & Hk). apply H2 in Hin. apply key_in_true in Hin.
      destruct Hin as (k'' & Hin & Hk''). exists k''. split; trivial. congruence.
Qed.

Lemma length_pos_nil {A : Type} (l : list A) : (0 <? length l)%nat = false <-> l = [].
Proof. destruct l; simpl; split; intros H; try reflexivity; discriminate. Qed.

(** ** What [_copy_server_fields] leaves alone *)

(** An induction principle for flows that reaches the components. *)
Lemma flow_ind_components (P : flow -> Prop) :
  (forall f, Forall (fun c => P (snd c)) (components f) -> P f) ->
  forall f, P f.
Proof.
  intros H. fix IH 1. intros f. apply H.
  destruct f as [? ? cs]. simpl.
  induction cs as [|[k c] cs IHcs]; constructor; [apply IH | exact IHcs].
Qed.

Lemma flow_keys_unchanged_refl f : flow_keys_unchanged f f.
Proof.
  induction f as [f IH] using flow_ind_components.
  constructor; trivial.
  induction IH as [|c cs Hc _ IHcs]; constructor; auto.
Qed.

Definition components_unchanged (cs ts : list (string * flow)) : Prop :=
  Forall2 (fun c c' => fst c' = fst c /\ flow_keys_unchanged (snd c) (snd c')) cs ts.

Lemma components_unchanged_refl cs : components_unchanged cs cs.
Proof. induction cs; constructor; auto using flow_keys_unchanged_refl. Qed.

Lemma flow_keys_unchanged_trans f g h :
  flow_keys_unchanged f g -> flow_keys_unchanged g h -> flow_keys_unchanged f h.
Proof.
  revert g h. induction f as [f IH] using flow_ind_components.
  intros g h Hfg Hgh. inversion Hfg as [? ? P1 M1 C1]; subst.
  inversion Hgh as [? ? P2 M2 C2]; subst.
  constructor; [congruence | congruence |].
  clear P1 M1 P2 M2 Hfg Hgh.
  revert IH C1 C2. generalize (components f) (components g) (components h).
  intros cf cg ch IH C1. revert ch.
  induction C1 as [|a b cf cg [Hab1 Hab2] C1 IHC]; intros ch C2.
  - inversion C2. constructor.
  - inversion C2 as [|? c ? ch' [Hbc1 Hbc2] C2']; subst.
    inversion IH as [|? ? Ha IH']; subst.
    constructor; [split; [congruence | eapply Ha; eauto] | apply IHC; trivial].
Qed.

Lemma components_unchanged_trans cs ts us :
  components_unchanged cs ts -> components_unchanged ts us -> components_unchanged cs us.
Proof.
  intros H. revert us. induction H as [|a b cs ts [H1 H2] H IH]; intros us Hu.
  - inversion Hu. constructor.
  - inversion Hu as [|? c ? us' [H3 H4] Hu']; subst.
    constructor; [split; [congruence | eapply flow_keys_unchanged_trans; eauto] | apply IH; exact Hu'].
Qed.

(** Replacing the component under [name] by one with the same keys. *)
Lemma components_unchanged_set name t t' (ts : list (string * flow)) :
  dict_get String.eqb name ts = Some t ->
  flow_keys_unchanged t t' ->
  components_unchanged ts (dict_set String.eqb name t' ts).
Proof.
  induction ts as [|[k x] ts IH]; simpl; [discriminate|].
  destruct (String.eqb k name).
  - intros [= ->] Ht. constructor; [now split | apply components_unchanged_refl].
  - intros Hg Ht. constructor; [split; auto using flow_keys_unchanged_refl | apply IH; assumption].
Qed.

Lemma copy_components_keys copy cs :
  Forall (fun c => forall target, flow_keys_unchanged target (fst (copy (snd c) target))) cs ->
  forall tcs, components_unchanged tcs (fst (copy_components copy cs tcs)).
Proof.
  induction 1 as [|[k c] cs Hc _ IH]; intros tcs; simpl.
  - apply components_unchanged_refl.
  - destruct (dict_get String.eqb k tcs) as [t|] eqn:Hget; simpl;
      [|apply components_unchanged_refl].
    simpl in Hc. specialize (Hc t).
    destruct (copy c t) as [t' [e|]]; simpl in *.
    + eapply components_unchanged_set; eauto.
    + eapply components_unchanged_trans; [|apply IH].
      eapply components_unchanged_set; eauto.
Qed.

Lemma copy_server_fields_keys source : forall target,
  flow_keys_unchanged target (fst (_copy_server_fields source target)).
Proof.
  induction source as [source IH] using flow_ind_components.
  intros target. destruct source as [? ? cs]. destruct target as [? ? ts].
  simpl in *.
  pose proof (copy_components_keys _copy_server_fields cs IH ts) as H.
  destruct (copy_components _copy_server_fields cs ts) as [tcs' st]. simpl in *.
  constructor; simpl; trivial.
Qed.


(** ** Construction of a flow (C6) *)



(** ** Serialization of parameters by [_to_dict] (C9) *)

Lemma check_param_item_ok v :
  check_param_item (DScalar v) = if str_or_none v then Ok tt
    else Raise (ValueError "Parameter value cannot be serialized").
Proof. destruct v; reflexivity. Qed.

Lemma param_to_dict_spec params meta key m v :
  dict_get key_eqb key meta = Some m ->
  dict_get key_eqb key params = Some v ->
  (param_strings_ok params meta key = true -> is_ok (param_to_dict params meta key) = true) /\
  (param_strings_ok params meta key = false ->
   param_to_dict params meta key = Raise (ValueError "Parameter value cannot be serialized")).
Proof.
  intros Hm Hv. unfold param_strings_ok, param_to_dict. rewrite Hm, Hv.
  destruct m as [d t]. simpl.
  destruct key, t, v, d; simpl; split; intros; try reflexivity; discriminate.
Qed.

Lemma dict_get_key_in {A : Type} k (d : list (scalar * A)) :
  key_in key_eqb k (dict_keys d) = true -> exists v, dict_get key_eqb k d = Some v.
Proof.
  induction d as [|[k' v] d IH]; simpl; [discriminate|].
  destruct (key_eqb k' k); simpl; eauto.
Qed.

Lemma params_to_dict_spec params meta keys :
  (forall k, In k keys -> key_in key_eqb k (dict_keys params) = true) ->
  (forall k, In k keys -> key_in key_eqb k (dict_keys meta) = true) ->
  (forallb (param_strings_ok params meta) keys = true ->
   is_ok (params_to_dict params meta keys) = true) /\
  (forallb (param_strings_ok params meta) keys = false ->
   params_to_dict params meta keys = Raise (ValueError "Parameter value cannot be serialized")).
Proof.
  induction keys as [|k keys IH]; intros Hp Hm; simpl.
  - split; [reflexivity | discriminate].
  - destruct (dict_get_key_in k params (Hp k (or_introl eq_refl))) as [v Hv].
    destruct (dict_get_key_in k meta (Hm k (or_introl eq_refl))) as [m Hmeta].
    destruct (param_to_dict_spec params meta k m v Hmeta Hv) as [H1 H2].
    destruct IH as [IH1 IH2]; [intros; apply Hp; now right | intros; apply Hm; now right |].
    destruct (param_strings_ok params meta k); simpl.
    + specialize (H1 eq_refl). destruct (param_to_dict params meta k); [|discriminate]. simpl.
      split; intros H.
      * specialize (IH1 H). destruct (params_to_dict params meta keys); [reflexivity|discriminate].
      * rewrite (IH2 H). reflexivity.
    + rewrite (H2 eq_refl). split; [discriminate | reflexivity].
Qed.

Lemma components_to_dict_spec to_dict cs :
  Forall (fun c =>
    (flow_params_ok (snd c) = true -> is_ok (to_dict (snd c)) = true) /\
    (flow_params_ok (snd c) = false ->
     to_dict (snd c) = Raise (ValueError "Parameter value cannot be serialized"))) cs ->
  (forallb (fun c => flow_params_ok (snd c)) cs = true ->
   is_ok (components_to_dict to_dict cs) = true) /\
  (forallb (fun c => flow_params_ok (snd c)) cs = false ->
   components_to_dict to_dict cs = Raise (ValueError "Parameter value cannot be serialized")).
Proof.
  induction 1 as [|[k c] cs [H1 H2] _ [IH1 IH2]]; simpl.
  - split; [reflexivity | discriminate].
  - simpl in *. destruct (flow_params_ok c); simpl.
    + specialize (H1 eq_refl). destruct (to_dict c); [|discriminate]. simpl.
      split; intros H.
      * specialize (IH1 H). destruct (components_to_dict to_dict cs); [reflexivity|discriminate].
      * rewrite (IH2 H). reflexivity.
    + rewrite (H2 eq_refl). split; [discriminate | reflexivity].
Qed.

Lemma to_flow_dict_spec f :
  flow_constructed f = true ->
  (flow_params_ok f = true -> is_ok (to_flow_dict f) = true) /\
  (flow_params_ok f = false ->
   to_flow_dict f = Raise (ValueError "Parameter value cannot be serialized")).
Proof.
  induction f as [f IH] using flow_ind_components.
  destruct f as [nm ds cs ps ms ev]. simpl in *.
  intros Hcons. rewrite !andb_true_iff in Hcons.
  destruct Hcons as [[[[Hn He] D1] D2] Hc].
  unfold required_present; simpl.
  destruct (is_none nm); [discriminate|]. destruct (is_none ev); [discriminate|]. simpl.
  apply Nat.eqb_eq, length_zero_iff_nil in D1, D2.
  assert (Hs : same_keys ps ms) by (apply same_keys_differences; now split).
  destruct (params_to_dict_spec ps ms (dict_keys ps)) as [P1 P2].
  { intros k Hk. apply key_in_true. now exists k. }
  { intros k Hk. rewrite <- Hs. apply key_in_true. now exists k. }
  destruct (components_to_dict_spec to_flow_dict cs) as [C1 C2].
  { rewrite forallb_forall in Hc. rewrite List.Forall_forall in IH |- *.
    intros c Hin. apply IH; [assumption | now apply Hc]. }
  destruct (forallb (param_strings_ok ps ms) (dict_keys ps)); simpl.
  - specialize (P1 eq_refl). destruct (params_to_dict ps ms (dict_keys ps)); [|discriminate].
    simpl. split; intros H.
    + specialize (C1 H). destruct (components_to_dict to_flow_dict cs); [reflexivity|discriminate].
    + rewrite (C2 H). reflexivity.
  - rewrite (P2 eq_refl). split; [discriminate | reflexivity].
Qed.

Lemma reconstruct_constructed f : flow_constructed f = true -> reconstruct f = Ok f.
Proof.
  destruct f as [nm ds cs ps ms ev]. unfold reconstruct, OpenMLFlow_init. simpl.
  intros Hcons. rewrite !andb_true_iff in Hcons.
  destruct Hcons as [[[[Hn He] D1] D2] Hc].
  apply Nat.eqb_eq in D1, D2. rewrite D1, D2. reflexivity.
Qed.





(** ** The structure map of a flow (C7) *)

Section Structure.
Variable key_item : string.
Hypothesis key_item_allowed : key_item = "flow_id" \/ key_item = "name".

Let skey (f : flow) : scalar := scalar_key (getattr_key f key_item).
Let forest_keys (cs : list (string * flow)) : list scalar :=
flat_map (fun c => tree_keys key_item (snd c)) cs.

Lemma key_item_check :
negb (String.eqb key_item "flow_id" || String.eqb key_item "name") = false.
Proof. destruct key_item_allowed as [-> | ->]; reflexivity. Qed.

Lemma get_structure_eq f :
get_structure f key_item =
let* structure :=
sub_structures (fun sub => get_structure sub key_item) (components f) ∅ in
Ok (<[skey f := []]> structure).
Proof. destruct f. simpl. rewrite key_item_check. reflexivity. Qed.

Lemma tree_keys_eq f :
tree_keys key_item f = skey f :: forest_keys (components f).
Proof. destruct f. reflexivity. Qed.

Lemma subflow_at_cons f k rest c :
subflow_at f (k :: rest) = Some c ->
exists sub, In (k, sub) (components f) /\ subflow_at sub rest = Some c.
Proof.
simpl. generalize (components f). intros cs.
induction cs as [|[k' sub] cs IH]; [discriminate|].
destruct (String.eqb k' k) eqn:E.
- apply String.eqb_eq in E. subst k'. intros H. exists sub. split; [now left | exact H].
- intros H. destruct (IH H) as (sub' & Hin & Hs). exists sub'. split; [now right | exact Hs].
Qed.

Lemma subflow_at_key f : forall path c,
subflow_at f path = Some c -> In (skey c) (tree_keys key_item f).
Proof.
induction f as [f IH] using flow_ind_components.
intros [|k rest] c H; rewrite tree_keys_eq.
- simpl in H. injection H as <-. now left.
- apply subflow_at_cons in H. destruct H as (sub & Hin & Hs).
rewrite List.Forall_forall in IH. specialize (IH _ Hin rest c Hs).
right. apply in_flat_map. exists (k, sub). split; assumption.
Qed.

(** What the structure map of one flow satisfies when its keys are
pairwise distinct. *)
Definition structure_of_distinct (f : flow) : Prop :=
NoDup (tree_keys key_item f) ->
exists m, get_structure f key_item = Ok m /\
(forall x, is_Some (m !! x) -> In x (tree_keys key_item f)) /\
(forall path c, subflow_at f path = Some c -> m !! skey c = Some path).

Lemma sub_structures_distinct cs :
Forall (fun c => structure_of_distinct (snd c)) cs ->
NoDup (forest_keys cs) ->
forall acc, exists m,
sub_structures (fun sub => get_structure sub key_item) cs acc = Ok m /\
(forall x, ~ In x (forest_keys cs) -> m !! x = acc !! x) /\
(forall x, is_Some (m !! x) -> In x (forest_keys cs) \/ is_Some (acc !! x)) /\
(forall k sub path c, In (k, sub) cs -> subflow_at sub path = Some c ->
   m !! skey c = Some (k :: path)).
Proof.
induction 1 as [|[k sub] cs Hsub _ IH]; intros Hnd acc; simpl.
- exists acc. repeat split; auto. intros k sub path c [].
- simpl in Hnd. apply NoDup_app in Hnd. destruct Hnd as (Hnd1 & Hdisj & Hnd2).
destruct (Hsub Hnd1) as (ms & Hms & Hdom & Hpaths). simpl in *.
rewrite Hms. simpl.
destruct (IH Hnd2 (add_sub_structure k ms acc)) as (m & Hm & Hout & Hin & Hreach).
exists m. split; [exact Hm|]. split; [|split].
+ intros x Hx. rewrite Hout by (intros Hc; apply Hx, in_or_app; now right).
  unfold add_sub_structure. rewrite lookup_union_r; [reflexivity|].
  rewrite lookup_fmap. destruct (ms !! x) eqn:E; [|reflexivity].
  exfalso. apply Hx, in_or_app. left. apply Hdom. rewrite E. eauto.
+ intros x Hx. destruct (Hin x Hx) as [H|H].
  * left. apply in_or_app. now right.
  * unfold add_sub_structure in H. destruct H as [v Hv].
    apply lookup_union_Some_raw in Hv. destruct Hv as [Hv | [_ Hv]].
    -- left. apply in_or_app. left. apply Hdom.
       rewrite lookup_fmap in Hv. destruct (ms !! x); [eauto | discriminate].
    -- right. eauto.
+ intros k' sub' path c [Heq | Hin'] Hc.
  * injection Heq as <- <-.
    assert (Hk : In (skey c) (tree_keys key_item sub)) by (eapply subflow_at_key; eauto).
    rewrite Hout.
    -- unfold add_sub_structure. apply lookup_union_Some_raw. left.
       rewrite lookup_fmap, (Hpaths _ _ Hc). reflexivity.
    -- intros Hc'. apply (Hdisj (skey c)); [apply list_elem_of_In; exact Hk|].
       apply list_elem_of_In. exact Hc'.
  * eapply Hreach; eauto.
Qed.

Lemma get_structure_distinct f : structure_of_distinct f.
Proof.
induction f as [f IH] using flow_ind_components.
intros Hnd. rewrite get_structure_eq. rewrite tree_keys_eq in Hnd.
apply NoDup_cons in Hnd. destruct Hnd as [Hroot Hnd].
destruct (sub_structures_distinct (components f) IH Hnd ∅)
as (m & Hm & Hout & Hin & Hreach).
rewrite Hm. simpl. eexists. split; [reflexivity|]. split.
- intros x [v Hx]. rewrite tree_keys_eq. apply lookup_insert_Some in Hx.
destruct Hx as [[<- _] | [Hne Hx]]; [now left|]. right.
destruct (Hin x (ex_intro _ v Hx)) as [H | [w Hw]]; [exact H|].
rewrite lookup_empty in Hw. discriminate.
- intros [|k rest] c Hc.
+ simpl in Hc. injection Hc as <-. apply lookup_insert_eq.
+ destruct (subflow_at_cons f k rest c Hc) as (sub & Hin' & Hs).
  rewrite lookup_insert_ne.
  * eapply Hreach; eauto.
  * intros Heq. apply Hroot. apply list_elem_of_In. rewrite Heq.
    apply in_flat_map. exists (k, sub). split; [exact Hin'|].
    eapply subflow_at_key. exact Hs.
Qed.

Lemma sub_structures_ok cs :
Forall (fun c => is_ok (get_structure (snd c) key_item) = true) cs ->
forall acc,
is_ok (sub_structures (fun sub => get_structure sub key_item) cs acc) = true.
Proof.
induction 1 as [|[k sub] cs Hsub _ IH]; intros acc; simpl; [reflexivity|].
simpl in Hsub. destruct (get_structure sub key_item); [apply IH | discriminate].
Qed.

Lemma get_structure_ok f : is_ok (get_structure f key_item) = true.
Proof.
induction f as [f IH] using flow_ind_components.
rewrite get_structure_eq.
pose proof (sub_structures_ok (components f) IH ∅) as H.
destruct (sub_structures _ (components f) ∅); [reflexivity | discriminate].
Qed.

Lemma get_structure_root f :
exists m, get_structure f key_item = Ok m /\ m !! skey f = Some [].
Proof.
pose proof (get_structure_ok f) as H. rewrite get_structure_eq in *.
destruct (sub_structures _ (components f) ∅); [|discriminate].
simpl. eexists. split; [reflexivity|]. apply lookup_insert_eq.
Qed.
End Structure.

(** C7, as amended.  For [key_item] one of [flow_id] and [name],
    [get_structure] returns a map that sends the key of the flow itself to
    the empty path; when the keys of the flow and of its nested components
    are pairwise distinct, the map sends the key of every component to the
    list of identifiers that leads to it from the root. *)
Theorem get_structure_maps_components_to_paths :
  forall (f : flow) (key_item : string),
  key_item = "flow_id" \/ key_item = "name" ->
  exists m, get_structure f key_item = Ok m /\
    m !! scalar_key (getattr_key f key_item) = Some [] /\
    (NoDup (tree_keys key_item f) ->
     forall path c, subflow_at f path = Some c ->
       m !! scalar_key (getattr_key c key_item) = Some path).
Proof.
  intros f key_item Hk.
  destruct (get_structure_root key_item Hk f) as (m & Hm & Hroot).
  exists m. split; [exact Hm|]. split; [exact Hroot|].
  intros Hnd path c Hc.
  destruct (get_structure_distinct key_item Hk f Hnd) as (m' & Hm' & _ & Hp).
  rewrite Hm in Hm'. injection Hm' as <-. apply Hp, Hc.
Qed.


Lemma get_structure_maps_components_to_paths_witness :
  exists m, get_structure example_A "name" = Ok m /\
    m !! SStr "A(B(C))" = Some [] /\
    m !! SStr "C" = Some ["b"; "c"].
Proof.
  destruct (get_structure_maps_components_to_paths example_A "name" (or_intror eq_refl))
    as (m & Hm & Hroot & Hpaths).
  exists m. split; [exact Hm|]. split; [exact Hroot|].
  apply (Hpaths ltac:(apply (bool_decide_unpack _); vm_compute; exact I)
           ["b"; "c"] example_C eq_refl).
Defined.

(** The claim C7 as stated fails for a flow whose keys repeat: keyed by
    [flow_id], the structure of the unpublished flow [example_A] sends the
    key of its component [example_B], reached by the path [b], to the empty
    path. *)
Lemma get_structure_repeated_key :
  exists m, get_structure example_A "flow_id" = Ok m /\
    subflow_at example_A ["b"] = Some example_B /\
    m !! scalar_key (getattr_key example_B "flow_id") = Some [].
Proof. eexists. split; [reflexivity|]. split; reflexivity. Qed.

(** ** The path argument of [get_subflow] (C10) *)

Lemma list_copy_fresh structure h l h1 :
  list_copy structure h = (Ok l, h1) ->
  h !! l = None /\ h1 = <[l := default [] (h !! structure)]> h /\
  is_Some (h !! structure).
Proof.
  unfold list_copy. destruct (h !! structure) as [elements|] eqn:E; [|discriminate].
  intros [= <- <-]. split; [|split; [reflexivity | eauto]].
  apply not_elem_of_dom. apply is_fresh.
Qed.

Lemma list_copy_raise structure h e h1 :
  list_copy structure h = (Raise e, h1) -> h1 = h.
Proof.
  unfold list_copy. destruct (h !! structure); [discriminate|]. now intros [= _ <-].
Qed.

(** A call extends the heap: every list that was there is there unchanged. *)
Lemma get_subflow_heap depth : forall self structure h,
  h ⊆ snd (get_subflow depth self structure h).
Proof.
  induction depth as [|depth IH]; intros self structure h; simpl; [reflexivity|].
  destruct (list_copy structure h) as [[l|e] h1] eqn:Hcopy.
  - apply list_copy_fresh in Hcopy. destruct Hcopy as (Hfresh & -> & _).
    assert (Hsub : h ⊆ <[l := default [] (h !! structure)]> h)
      by (apply insert_subseteq; exact Hfresh).
    rewrite lookup_insert_eq.
    destruct (default [] (h !! structure)) as [|sub_identifier rest]; [exact Hsub|].
    destruct (dict_get String.eqb sub_identifier (components self)) as [sub|];
      [|exact Hsub].
    destruct rest as [|x rest]; [exact Hsub|].
    etransitivity; [|apply IH].
    unfold list_pop0. rewrite lookup_insert_eq, insert_insert_eq.
    apply insert_subseteq; exact Hfresh.
  - apply list_copy_raise in Hcopy. subst h1. reflexivity.
Qed.

Lemma get_subflow_result depth : forall self structure h path,
  h !! structure = Some path -> path <> [] -> (length path <= depth)%nat ->
  fst (get_subflow depth self structure h) =
  match subflow_at self path with
  | Some sub => Ok sub
  | None => Raise (ValueError "Flow does not contain component with identifier")
  end.
Proof.
  induction depth as [|depth IH]; intros self structure h path Hpath Hne Hlen.
  - destruct path; [contradiction | simpl in Hlen; lia].
  - simpl. unfold list_copy. rewrite Hpath. rewrite lookup_insert_eq.
    destruct path as [|sub_identifier rest]; [contradiction|].
    assert (Hfind : forall cs,
      (fix find (cs : list (string * flow)) : option flow :=
         match cs with
         | [] => None
         | (key, sub) :: cs' =>
             if String.eqb key sub_identifier then subflow_at sub rest else find cs'
         end) cs
      = match dict_get String.eqb sub_identifier cs with
        | Some sub => subflow_at sub rest
        | None => None
        end).
    { induction cs as [|[k c] cs IHcs]; simpl; [reflexivity|].
      destruct (String.eqb k sub_identifier); [reflexivity | exact IHcs]. }
    simpl subflow_at. rewrite Hfind.
    destruct (dict_get String.eqb sub_identifier (components self)) as [sub|];
      [|reflexivity].
    destruct rest as [|x rest]; [reflexivity|].
    rewrite (IH sub _ _ (x :: rest)); [reflexivity | | discriminate | simpl in *; lia].
    unfold list_pop0. rewrite lookup_insert_eq. apply lookup_insert_eq.
Qed.

(** C10.  A call of [get_subflow] leaves the list the caller passed as it
    was, and every other list of the heap with it, whatever the call ends
    in; for a non-empty path within the recursion limit the call returns the
    component the path leads to, or raises the ValueError for an identifier
    that is absent. *)
Theorem get_subflow_keeps_path :
  forall (depth : nat) (self : flow) (structure : loc) (h : heap),
  h ⊆ snd (get_subflow depth self structure h) /\
  snd (get_subflow depth self structure h) !! structure = h !! structure /\
  (forall path, h !! structure = Some path -> path <> [] ->
     (length path <= depth)%nat ->
     fst (get_subflow depth self structure h) =
     match subflow_at self path with
     | Some sub => Ok sub
     | None => Raise (ValueError "Flow does not contain component with identifier")
     end).
Proof.
  intros depth self structure h.
  pose proof (get_subflow_heap depth self structure h) as Hsub.
  split; [exact Hsub|]. split.
  - destruct (h !! structure) as [path|] eqn:E.
    + eapply lookup_weaken; eauto.
    + destruct depth; simpl; [exact E|].
      unfold list_copy. rewrite E. exact E.
  - intros path. apply get_subflow_result.
Qed.

Lemma get_subflow_keeps_path_witness :
  let h : heap := {[ 1%positive := ["b"; "c"] ]} in
  snd (get_subflow 2 example_A 1%positive h) !! 1%positive = Some ["b"; "c"] /\
  fst (get_subflow 2 example_A 1%positive h) = Ok example_C /\
  snd (get_subflow 2 example_A 1%positive {[ 1%positive := ["b"; "x"] ]}) !! 1%positive
    = Some ["b"; "x"].
Proof.
  intros h.
  destruct (get_subflow_keeps_path 2 example_A 1%positive h) as (_ & Hkeep & Hres).
  destruct (get_subflow_keeps_path 2 example_A 1%positive {[ 1%positive := ["b"; "x"] ]})
    as (_ & Hkeep' & _).
  split; [rewrite Hkeep; reflexivity|].
  split; [|rewrite Hkeep'; reflexivity].
  rewrite (Hres ["b"; "c"]); [reflexivity | reflexivity | discriminate | simpl; lia].
Defined.


(** * Properties of the inverse walker *)

Section DecodeFacts.
Variable E : runtime.

Lemma item_get_in key items v :
item_get key items = Some v -> dict_in py_key_eqb (VStr key) items = true.
Proof. unfold item_get, dict_in. intros ->. reflexivity. Qed.

Lemma subscript_dict ord items key :
subscript (VDict ord items) key =
match item_get key items with
| Some v => Ok v
| None => Raise (KeyError key)
end.
Proof. reflexivity. Qed.

(** One step of [_deserialize_sklearn] on a mapping that carries the
marker. *)
Lemma deserialize_special depth ord items components init tag :
item_get serialized_object items = Some tag ->
_deserialize_sklearn E (S depth) (VDict ord items) components init =
let rec := _deserialize_sklearn E depth in
let* value := subscript (VDict ord items) "value" in
if has_tag tag "type" then
let* rval := _deserialize_type value in Ok (rval, components)
else if has_tag tag "rv_frozen" then
let* rval := _deserialize_rv_frozen E value in Ok (rval, components)
else if has_tag tag "function" then
let* rval := _deserialize_function E value in Ok (rval, components)
else if has_tag tag "component_reference" then
deserialize_component_reference rec value components init
else if has_tag tag "cv_object" then
let* rval := _deserialize_cross_validator E rec value in Ok (rval, components)
else Raise (ValueError "Cannot flow_to_sklearn").
Proof.
intros Htag. simpl. rewrite (item_get_in _ _ _ Htag), Htag. reflexivity.
Qed.
End DecodeFacts.

(** C5.  At a mapping that carries the marker key, [_deserialize_sklearn]
    goes by the tag: for each of the five tags of the enumeration the result
    is that of the decoder of the tag, and for any other tag the call raises
    (the ValueError for the tag, or the KeyError for a mapping without
    [value]). *)
Theorem special_value_tag_dispatch :
  forall (E : runtime) (depth : nat) (ordered : bool) (items : list (pyval * pyval))
         (components : pool) (init : bool) (tag : pyval),
  item_get serialized_object items = Some tag ->
  let r := _deserialize_sklearn E (S depth) (VDict ordered items) components init in
  let rec := _deserialize_sklearn E depth in
  match item_get "value" items with
  | None => r = Raise (KeyError "value")
  | Some value =>
      (tag = VStr "type" ->
       r = let* rval := _deserialize_type value in Ok (rval, components)) /\
      (tag = VStr "rv_frozen" ->
       r = let* rval := _deserialize_rv_frozen E value in Ok (rval, components)) /\
      (tag = VStr "function" ->
       r = let* rval := _deserialize_function E value in Ok (rval, components)) /\
      (tag = VStr "component_reference" ->
       r = deserialize_component_reference rec value components init) /\
      (tag = VStr "cv_object" ->
       r = let* rval := _deserialize_cross_validator E rec value in
           Ok (rval, components)) /\
      (tag <> VStr "type" -> tag <> VStr "rv_frozen" -> tag <> VStr "function" ->
       tag <> VStr "component_reference" -> tag <> VStr "cv_object" ->
       r = Raise (ValueError "Cannot flow_to_sklearn"))
  end.
Proof.
  intros E depth ordered items components init tag Htag r rec. subst r rec.
  rewrite (deserialize_special E depth ordered items components init tag Htag).
  rewrite subscript_dict.
  destruct (item_get "value" items) as [value|]; [|reflexivity].
  cbn [bind].
  repeat split; try (intros ->; reflexivity).
  intros H1 H2 H3 H4 H5.
  assert (Hno : forall s, tag <> VStr s -> has_tag tag s = false).
  { intros s Hs. destruct tag; try reflexivity. simpl.
    apply String.eqb_neq. congruence. }
  rewrite !Hno by assumption. reflexivity.
Qed.

Lemma special_value_tag_dispatch_witness :
  _deserialize_sklearn Ref.env 1 example_unknown_tag None false
  = Raise (ValueError "Cannot flow_to_sklearn").
Proof.
  pose proof (special_value_tag_dispatch Ref.env 0 false
    [(VStr serialized_object, VStr "estimator"); (VStr "value", VInt 1)]
    None false (VStr "estimator") eq_refl) as H.
  cbv zeta in H. simpl (item_get "value" _) in H.
  destruct H as (_ & _ & _ & _ & _ & H).
  apply H; discriminate.
Defined.


(** ** Component references (C4) *)

Lemma dict_del_not_in {A : Type} k (d : list (string * A)) :
  NoDup (dict_keys d) -> dict_in String.eqb k (dict_del String.eqb k d) = false.
Proof.
  unfold dict_in. induction d as [|[k' v] d IH]; simpl; [reflexivity|].
  intros Hnd. apply NoDup_cons in Hnd. destruct Hnd as [Hk' Hnd].
  destruct (String.eqb k' k) eqn:E.
  - apply String.eqb_eq in E. subst k'.
    destruct (dict_get String.eqb k d) eqn:G; [|reflexivity].
    exfalso. apply Hk'. clear -G. induction d as [|[k'' v'] d IH]; [discriminate|].
    simpl in *. destruct (String.eqb k'' k) eqn:E.
    + apply String.eqb_eq in E. subst. left.
    + right. auto.
  - simpl. rewrite E. auto.
Qed.

(** C4, as amended.  A component reference whose decoded [value] names a
    key of the pool decodes to the decoded component when the decoded
    [step_name] is None, and otherwise to the pair of the step name and the
    component when [argument_1] is absent, or to the triple with
    [argument_1] when it is present; the key is taken out of the pool the
    call hands back, so that the second loop of [_deserialize_model] passes
    over it. *)
Theorem component_reference_resolution :
  forall (E : runtime) (depth : nat) (ordered ordered' : bool)
         (items d : list (pyval * pyval)) (value step_name comp : pyval)
         (components_ : list (string * flow)) (init : bool) (key : string)
         (sub : flow) (p1 p2 : pool),
  item_get serialized_object items = Some (VStr "component_reference") ->
  item_get "value" items = Some value ->
  _deserialize_sklearn E depth value None false = Ok (VDict ordered' d, p1) ->
  item_get "step_name" d = Some step_name ->
  item_get "key" d = Some (VStr key) ->
  dict_get String.eqb key components_ = Some sub ->
  _deserialize_sklearn E depth (VFlow sub) None init = Ok (comp, p2) ->
  _deserialize_sklearn E (S depth) (VDict ordered items) (Some components_) init
  = Ok (match step_name with
        | VNone => comp
        | _ =>
            match item_get "argument_1" d with
            | None => VTuple [step_name; comp]
            | Some argument_1 => VTuple [step_name; comp; argument_1]
            end
        end,
        Some (dict_del String.eqb key components_)) /\
  (NoDup (dict_keys components_) ->
   dict_in String.eqb key (dict_del String.eqb key components_) = false).
Proof.
  intros E depth ordered ordered' items d value step_name comp components_ init
    key sub p1 p2 Htag Hvalue Hdec Hstep Hkey Hsub Hcomp.
  split; [|apply dict_del_not_in].
  rewrite (deserialize_special E depth ordered items _ init _ Htag).
  rewrite subscript_dict, Hvalue. cbn [bind has_tag String.eqb Ascii.eqb Bool.eqb].
  unfold deserialize_component_reference. rewrite Hdec. cbn [bind].
  rewrite !subscript_dict, Hstep, Hkey. cbn [bind hashable negb].
  rewrite Hsub, Hcomp. cbn [bind]. unfold resolve_reference.
  destruct step_name; try reflexivity;
    destruct (item_get "argument_1" d); reflexivity.
Qed.

Lemma component_reference_resolution_witness :
  _deserialize_sklearn Ref.env 4 example_reference
    (Some [("scaler", flow_of example_scaler)]) false
  = Ok (VTuple [VStr "scaler"; example_scaler], Some []).
Proof.
  refine (proj1 (component_reference_resolution Ref.env 3 true true _
    [(VStr "key", VStr "scaler"); (VStr "step_name", VStr "scaler")]
    _ (VStr "scaler") example_scaler
    [("scaler", flow_of example_scaler)] false "scaler" (flow_of example_scaler)
    None None _ _ _ _ _ _ _)); reflexivity.
Defined.

(** The claim C4 as stated fails in its last part: the value returned for
    the reference [example_reference_quoted] holds a mapping with the marker
    key and the tag of a component reference. *)
Lemma component_reference_in_returned_value :
  exists rval components_,
    _deserialize_sklearn Ref.env 5 example_reference_quoted
      (Some [("scaler", flow_of example_scaler)]) false = Ok (rval, components_) /\
    contains_reference rval = true.
Proof. eexists. eexists. split; vm_compute; reflexivity. Qed.


(** ** Initialization with defaults (C3) *)

(** No two keys of the dictionary are equal as keys. *)
Definition keys_unique {A : Type} (d : list (scalar * A)) : Prop :=
  NoDup (map scalar_key (dict_keys d)).

Lemma dict_in_key_in {A : Type} k (d : list (scalar * A)) :
  dict_in key_eqb k d = key_in key_eqb k (dict_keys d).
Proof.
  unfold dict_in. induction d as [|[k' v] d IH]; simpl; [reflexivity|].
  destruct (key_eqb k' k); [reflexivity | exact IH].
Qed.

Lemma dict_set_keys {A : Type} k (v : A) d :
  dict_keys (dict_set key_eqb k v d) =
  if dict_in key_eqb k d then dict_keys d else dict_keys d ++ [k].
Proof.
  unfold dict_in. induction d as [|[k' v'] d IH]; simpl; [reflexivity|].
  destruct (key_eqb k' k); simpl; [reflexivity|].
  rewrite IH. destruct (dict_get key_eqb k d); reflexivity.
Qed.

Lemma dict_set_unique {A : Type} k (v : A) d :
  keys_unique d -> keys_unique (dict_set key_eqb k v d).
Proof.
  unfold keys_unique. rewrite dict_set_keys.
  destruct (dict_in key_eqb k d) eqn:Hin; [trivial|].
  intros Hnd. rewrite map_app. apply NoDup_app. split; [exact Hnd|]. split.
  - intros x Hx Hx'. apply list_elem_of_In in Hx, Hx'.
    destruct Hx' as [<-|[]]. rewrite dict_in_key_in in Hin.
    apply in_map_iff in Hx. destruct Hx as (k' & Hk' & Hin').
    assert (key_in key_eqb k (dict_keys d) = true)
      by (apply key_in_true; eauto).
    congruence.
  - simpl. apply NoDup_singleton.
Qed.

Section Defaults.
Variable rec : pyval -> pool -> bool -> result (pyval * pool).

Lemma deserialize_parameters_unique parameters names : forall components_ kd pd pd' c',
deserialize_parameters rec parameters names components_ kd pd = Ok (pd', c') ->
keys_unique pd -> keys_unique pd'.
Proof.
induction names as [|n names IH]; intros components_ kd pd pd' c'; simpl.
- intros [= <- _]. trivial.
- destruct (rec _ components_ kd) as [[rval c1]|]; [|discriminate]. simpl.
intros H Hu. eapply IH; [exact H|]. now apply dict_set_unique.
Qed.

Lemma deserialize_components_unique components names : forall components_ pd pd',
deserialize_components rec components names components_ pd = Ok pd' ->
keys_unique pd -> keys_unique pd'.
Proof.
induction names as [|n names IH]; intros components_ pd pd'; simpl.
- intros [= <-]. trivial.
- destruct (dict_in key_eqb (SStr n) pd); [apply IH|].
destruct (negb (dict_in String.eqb n components_)); [apply IH|].
destruct (dict_get String.eqb n components); [|discriminate].
destruct (rec _ None false) as [[rval c1]|]; [|discriminate]. simpl.
intros H Hu. eapply IH; [exact H|]. now apply dict_set_unique.
Qed.

Lemma decoded_parameters_unique f kd pd :
decoded_parameters rec f kd = Ok pd -> keys_unique pd.
Proof.
unfold decoded_parameters.
destruct (deserialize_parameters rec _ _ _ kd []) as [[pd0 c0]|] eqn:H1;
[|discriminate]. simpl. intros H2.
eapply deserialize_components_unique; [exact H2|].
eapply deserialize_parameters_unique; [exact H1|]. constructor.
Qed.
End Defaults.

(** Deleting a key of a dictionary without repeated keys. *)
Lemma dict_del_filter {A : Type} p (d : list (scalar * A)) :
  keys_unique d ->
  dict_del key_eqb (SStr p) d =
  List.filter (fun kv => negb (key_eqb (fst kv) (SStr p))) d.
Proof.
  unfold keys_unique. induction d as [|[k v] d IH]; simpl; [reflexivity|].
  intros Hnd. apply NoDup_cons in Hnd. destruct Hnd as [Hk Hnd].
  destruct (key_eqb k (SStr p)) eqn:E; simpl.
  - apply key_eqb_true in E.
    symmetry. apply forallb_filter_id. apply forallb_forall.
    intros [k' v'] Hin. simpl. apply negb_true_iff.
    destruct (key_eqb k' (SStr p)) eqn:E'; [|reflexivity].
    apply key_eqb_true in E'. exfalso. apply Hk. apply list_elem_of_In.
    rewrite E, <- E'. apply in_map. apply in_map_iff. exists (k', v'). now split.
  - rewrite IH by exact Hnd. reflexivity.
Qed.

Lemma filter_unique {A : Type} (P : scalar * A -> bool) d :
  keys_unique d -> keys_unique (List.filter P d).
Proof.
  unfold keys_unique. induction d as [|kv d IH]; simpl; [trivial|].
  intros Hnd. apply NoDup_cons in Hnd. destruct Hnd as [Hk Hnd].
  destruct (P kv); simpl; [|auto].
  apply NoDup_cons. split; [|auto].
  intros Hin. apply Hk. apply list_elem_of_In in Hin. apply list_elem_of_In.
  apply in_map_iff in Hin. destruct Hin as (k & Hk' & Hin).
  apply in_map_iff in Hin. destruct Hin as (kv' & <- & Hin).
  apply filter_In in Hin. destruct Hin as [Hin _].
  rewrite <- Hk'. apply in_map. apply in_map. exact Hin.
Qed.

Lemma dict_in_filter {A : Type} (P : scalar * A -> bool) k (d : list (scalar * A)) :
  (forall kv, In kv d -> key_eqb (fst kv) k = true -> P kv = true) ->
  dict_in key_eqb k (List.filter P d) = dict_in key_eqb k d.
Proof.
  unfold dict_in. induction d as [|[k' v] d IH]; simpl; [reflexivity|].
  intros HP. destruct (key_eqb k' k) eqn:E.
  - rewrite (HP (k', v)); [|now left|exact E]. simpl. rewrite E. reflexivity.
  - destruct (P (k', v)); simpl; [rewrite E|]; apply IH;
      intros kv Hin; apply HP; now right.
Qed.

Lemma list_filter_filter {A : Type} (g h : A -> bool) (l : list A) :
  List.filter g (List.filter h l) = List.filter (fun x => h x && g x) l.
Proof.
  induction l as [|x l IH]; simpl; [reflexivity|].
  destruct (h x); simpl; [destruct (g x)|]; now rewrite IH.
Qed.

Lemma drop_defaults_filter defaults components : forall pd,
  NoDup defaults -> keys_unique pd ->
  (forall p, In p defaults -> dict_in String.eqb p components = false ->
     dict_in key_eqb (SStr p) pd = true) ->
  drop_defaults defaults components pd =
  Ok (List.filter (fun kv => negb (defaulted_away defaults components (fst kv))) pd).
Proof.
  induction defaults as [|p defaults IH]; intros pd Hnd Hu Hin; simpl.
  - f_equal. symmetry. apply forallb_filter_id. apply forallb_forall.
    intros [[] v] _; reflexivity.
  - apply NoDup_cons in Hnd. destruct Hnd as [Hp Hnd].
    assert (Heq : forall (g : scalar * pyval -> bool),
      (forall kv, g kv = negb (defaulted_away (p :: defaults) components (fst kv))) ->
      List.filter (fun kv => negb (defaulted_away (p :: defaults) components (fst kv))) pd
      = List.filter g pd).
    { intros g Hg. apply filter_ext. intros kv. now rewrite Hg. }
    destruct (dict_in String.eqb p components) eqn:Hc; simpl.
    + rewrite IH; trivial; [|intros q Hq; apply Hin; now right].
      f_equal. symmetry. apply Heq. intros [[| | |s] v]; simpl; try reflexivity.
      destruct (String.eqb p s) eqn:E; simpl; [|reflexivity].
      apply String.eqb_eq in E. subst s. rewrite Hc. simpl.
      rewrite andb_false_r. reflexivity.
    + rewrite (Hin p (or_introl eq_refl) Hc).
      rewrite dict_del_filter by exact Hu.
      rewrite IH; trivial.
      * f_equal. rewrite list_filter_filter. symmetry. apply Heq.
        intros [[| | |s] v]; simpl; try reflexivity.
        unfold key_eqb. simpl. rewrite (String.eqb_sym p s).
        destruct (String.eqb s p) eqn:E; simpl.
        -- apply String.eqb_eq in E. subst s. rewrite Hc. simpl.
           rewrite bool_decide_eq_true_2 by reflexivity. reflexivity.
        -- apply String.eqb_neq in E.
           rewrite bool_decide_eq_false_2 by congruence. reflexivity.
      * now apply filter_unique.
      * intros q Hq Hqc. rewrite dict_in_filter; [apply Hin; [now right | exact Hqc]|].
        intros [k v] _ Hk. simpl in *. apply negb_true_iff.
        destruct (key_eqb k (SStr p)) eqn:E; [|reflexivity].
        exfalso. apply key_eqb_true in Hk, E. apply Hp.
        apply list_elem_of_In. simpl in *. congruence.
Qed.

Lemma dict_set_string_nodup {A : Type} k (v : A) (d : list (string * A)) :
  NoDup (dict_keys d) -> NoDup (dict_keys (dict_set String.eqb k v d)).
Proof.
  induction d as [|[k' v'] d IH]; simpl.
  - intros _. apply NoDup_singleton.
  - intros Hnd. apply NoDup_cons in Hnd. destruct Hnd as [Hk' Hnd].
    destruct (String.eqb k' k) eqn:E; simpl.
    + apply NoDup_cons. now split.
    + apply NoDup_cons. split; [|auto].
      intros Hin. apply Hk'. apply list_elem_of_In in Hin. apply list_elem_of_In.
      clear -Hin E. induction d as [|[k'' v''] d IH]; simpl in *.
      * destruct Hin as [->|[]]. rewrite String.eqb_refl in E. discriminate.
      * destruct (String.eqb k'' k); simpl in *; tauto.
Qed.

Lemma optional_params_nodup (E : runtime) cls :
  NoDup (dict_keys (fst (_get_fn_arguments_with_defaults E cls))).
Proof.
  unfold _get_fn_arguments_with_defaults.
  destruct (getfullargspec_init E cls) as [args defaults].
  destruct defaults as [|d0 defaults]; simpl; [constructor|].
  unfold optional_params_of.
  assert (H : forall l (d : list (string * pyval)), NoDup (dict_keys d) ->
    NoDup (dict_keys (fold_left (fun d kv => dict_set String.eqb (fst kv) (snd kv) d) l d))).
  { induction l as [|x l IH]; intros d Hd; simpl; [exact Hd|].
    apply IH. now apply dict_set_string_nodup. }
  apply H. constructor.
Qed.

Lemma dict_in_filter_away defaults (comps : list (string * flow)) key
    (pd : list (scalar * pyval)) :
  dict_in key_eqb key
    (List.filter (fun kv => negb (defaulted_away defaults comps (fst kv))) pd)
  = dict_in key_eqb key pd && negb (defaulted_away defaults comps (scalar_key key)).
Proof.
  assert (Hsame : forall k', key_eqb k' key = true ->
    defaulted_away defaults comps k' = defaulted_away defaults comps (scalar_key key)).
  { intros k' Hk. apply key_eqb_true in Hk.
    destruct k' as [| | |s]; destruct key; simpl in *; try discriminate; try reflexivity.
    injection Hk as ->. reflexivity. }
  unfold dict_in. induction pd as [|[k v] pd IH]; simpl; [reflexivity|].
  destruct (key_eqb k key) eqn:Ek.
  - rewrite <- (Hsame k Ek).
    destruct (defaulted_away defaults comps k) eqn:Ed; simpl.
    + rewrite IH. rewrite <- (Hsame k Ek), Ed. apply andb_false_r.
    + rewrite Ek. reflexivity.
  - destruct (negb (defaulted_away defaults comps k)); simpl;
      [rewrite Ek|]; exact IH.
Qed.

(** C3.  With [initialize_with_defaults] set, the keyword dictionary the
    class of a flow is called with is the dictionary of the decoded
    parameters and components without the parameters that have a default
    in the signature of the class and are no key of the components of the
    flow; a key of the components stays, and so does a parameter without
    default.  The stored value of a parameter taken out plays no part. *)
Theorem defaults_taken_out_of_keywords :
  forall (E : runtime) (depth : nat) (f : flow) (cls : pyval)
         (parameter_dict : list (scalar * pyval)),
  _is_sklearn_flow f = Ok true ->
  decoded_parameters (_deserialize_sklearn E depth) f true = Ok parameter_dict ->
  import_dotted E (of_scalar (class_name f)) = Ok cls ->
  let defaults := dict_keys (fst (_get_fn_arguments_with_defaults E cls)) in
  (forall p, In p defaults -> dict_in String.eqb p (components f) = false ->
     dict_in key_eqb (SStr p) parameter_dict = true) ->
  let keywords :=
    List.filter (fun kv => negb (defaulted_away defaults (components f) (fst kv)))
      parameter_dict in
  model_arguments E (_deserialize_sklearn E depth) f true = Ok (cls, keywords) /\
  flow_to_model E (S depth) f true =
    (let* kwargs := kwargs_of_parameters keywords in call_with_kwargs E cls kwargs) /\
  (forall key, dict_in key_eqb key keywords =
     dict_in key_eqb key parameter_dict
     && negb (defaulted_away defaults (components f) (scalar_key key))).
Proof.
  intros E depth f cls pd Hsk Hdec Himp defaults Hpresent keywords.
  assert (Hargs : model_arguments E (_deserialize_sklearn E depth) f true
                  = Ok (cls, keywords)).
  { unfold model_arguments. rewrite Hdec. cbn [bind]. rewrite Himp. cbn [bind].
    fold defaults. rewrite (drop_defaults_filter defaults (components f) pd).
    - reflexivity.
    - apply optional_params_nodup.
    - eapply decoded_parameters_unique. exact Hdec.
    - exact Hpresent. }
  split; [exact Hargs|]. split.
  - unfold flow_to_model. cbn [_deserialize_sklearn]. rewrite Hsk. cbn [bind negb].
    unfold deserialize_model. rewrite Hargs. cbn [bind].
    destruct (kwargs_of_parameters keywords) as [kwargs|]; cbn [bind]; [|reflexivity].
    destruct (call_with_kwargs E cls kwargs); reflexivity.
  - intros key. apply dict_in_filter_away.
Qed.

Lemma defaults_taken_out_of_keywords_witness :
  flow_to_model Ref.env 4 (flow_of example_calibrated) true
  = Ok (VEstimator "sklearn.calibration.CalibratedClassifierCV"
          [("base_estimator",
            VEstimator "sklearn.dummy.DummyClassifier"
              [("constant", VNone); ("random_state", VNone);
               ("strategy", VStr "stratified")]);
           ("cv", VStr "warn"); ("method", VStr "sigmoid")]).
Proof.
  destruct (defaults_taken_out_of_keywords Ref.env 3 (flow_of example_calibrated)
              (VType (TClass "sklearn.calibration.CalibratedClassifierCV"))
              [(SStr "base_estimator",
                VEstimator "sklearn.dummy.DummyClassifier"
                  [("constant", VNone); ("random_state", VNone);
                   ("strategy", VStr "stratified")]);
               (SStr "cv", VInt 3); (SStr "method", VStr "isotonic")]
              eq_refl eq_refl eq_refl) as (_ & H & _).
  - intros p Hp Hc. vm_compute in Hp.
    destruct Hp as [<-|[<-|[<-|[]]]]; reflexivity.
  - exact H.
Defined.


(** * The guard on the number of jobs (C8) *)

Section Guard.
Variable E : runtime.


End Guard.




(** * The duplicate check of the forward walker (C2) *)













(** ** Names of the flows the forward walker builds *)






Lemma dict_set_Forall_values {K A} (eqb : K -> K -> bool) (P : A -> Prop) k v d :
  Forall (fun c => P (snd c)) d -> P v ->
  Forall (fun c => P (snd c)) (dict_set eqb k v d).
Proof.
  intros Hd Hv. induction Hd as [|[k' v'] d Hc Hd IH]; simpl.
  - constructor; [exact Hv | constructor].
  - destruct (eqb k' k); constructor; trivial.
Qed.

Lemma items_sorted_In {A} (l : list (string * A)) x :
  In x (items_sorted l) -> In x l.
Proof.
  assert (Hins : forall y l', In x (item_insert y l') -> x = y \/ In x l').
  { intros y l'. induction l' as [|z l' IH]; simpl.
    - intros [<- | []]. now left.
    - destruct (String.leb (fst y) (fst z)); simpl.
      + intros [<- | [<- | H]]; auto.
      + intros [<- | H]; auto. destruct (IH H); auto. }
  induction l as [|y l IH]; simpl; [trivial|].
  intros H. destruct (Hins _ _ H) as [-> | H']; auto.
Qed.

Section SerializedNames.
Variable E : runtime.






Lemma string_length_app (a b : string) :
String.length (a ++ b) = (String.length a + String.length b)%nat.
Proof. induction a as [|c a IH]; simpl; [reflexivity | now rewrite IH]. Qed.


Lemma string_keyed_values subs : forall comps,
string_keyed subs = Ok comps ->
map snd comps = map snd subs /\ map (fun c => VStr (fst c)) comps = map fst subs.
Proof.
induction subs as [|[key sub] subs IH]; intros comps; cbn [string_keyed].
- intros [= <-]. split; reflexivity.
- destruct key; try discriminate.
  destruct (string_keyed subs) as [rest|e]; cbn [bind]; [|discriminate].
  intros [= <-]. destruct (IH rest eq_refl) as [H1 H2]. simpl. now rewrite H1, H2.
Qed.

Lemma OpenMLFlow_init_ok nm ds cs ps ms ev tgs lang deps cls cn bu bf bm up ud fid ver f :
OpenMLFlow_init nm ds cs ps ms ev tgs lang deps cls cn bu bf bm up ud fid ver = Ok f ->
f = Flow nm ds cs ps ms ev (match tgs with Some t => t | None => [] end)
      lang deps cls cn bu bf bm up ud fid ver.
Proof.
unfold OpenMLFlow_init.
destruct (0 <? _)%nat; [discriminate|]. destruct (0 <? _)%nat; [discriminate|].
now intros [= <-].
Qed.

(** What [_serialize_model] went through when it returns a flow. *)
Lemma serialize_model_ok cls rvals f :
_serialize_model E cls rvals = Ok f ->
exists ex names,
  _extract_information_from_model E rvals = Ok ex /\
  _check_multiple_occurence_of_component_in_flow (ex_sub_components ex) = Ok tt /\
  sub_components_names_of (ex_sub_components ex) (ex_sub_components_explicit ex) ""
    = Ok names /\
  string_keyed (ex_sub_components ex) = Ok (components f) /\
  name f = SStr (if negb (String.eqb names "")
                 then cls ++ "(" ++ str_tail names ++ ")" else cls) /\
  parameters f = ex_parameters ex /\
  class_name f = SStr cls /\
  exists ev, _get_external_version_string E cls (ex_sub_components ex) = Ok ev /\
             external_version f = SStr ev.
Proof.
unfold _serialize_model.
destruct (_extract_information_from_model E rvals) as [ex|e]; cbn [bind]; [|discriminate].
destruct (_check_multiple_occurence_of_component_in_flow _) as [[]|e] eqn:Hcheck;
  cbn [bind]; [|discriminate].
destruct (sub_components_names_of _ _ _) as [names|e] eqn:Hnames;
  cbn [bind]; [|discriminate].
destruct (_get_external_version_string E cls _) as [ev|e] eqn:Hev;
  cbn [bind]; [|discriminate].
destruct (string_keyed _) as [comps|e] eqn:Hkeyed; cbn [bind]; [|discriminate].
intros H. apply OpenMLFlow_init_ok in H. subst f. cbn.
exists ex, names. repeat split; trivial. now exists ev.
Qed.


Lemma sequence_Forall (P : pyval -> Prop) (rs : list (result pyval)) : forall l,
Forall (fun r => forall v, r = Ok v -> P v) rs ->
sequence rs = Ok l -> Forall P l.
Proof.
induction rs as [|r rs IH]; intros l Hall; cbn [sequence].
- intros [= <-]. constructor.
- inversion Hall as [|? ? Hr Hall']; subst.
  destruct r as [v|e]; cbn [bind]; [|discriminate].
  destruct (sequence rs) as [rest|e]; cbn [bind]; [|discriminate].
  intros [= <-]. constructor; [now apply Hr | now apply IH].
Qed.

End SerializedNames.

Section DuplicateCheck.
Variable E : runtime.






(** ** C2 *)

End DuplicateCheck.



(** * From a model to its flow and back (C1) *)

(** ** The flow of an estimator of sklearn is a sklearn flow *)

Lemma prefix_app (a b : string) : String.prefix a (a ++ b) = true.
Proof.
  induction a as [|c a IH]; simpl; [now destruct b|].
  destruct (ascii_dec c c); [exact IH | congruence].
Qed.

Lemma prefix_app_l (a b s : string) :
  String.prefix (a ++ b) s = true -> String.prefix a s = true.
Proof.
  revert s. induction a as [|c a IH]; intros s; [now destruct s|].
  destruct s as [|c' s]; simpl; [discriminate|].
  destruct (ascii_dec c c'); [apply IH | discriminate].
Qed.

Lemma str_contains_prefix (sub s : string) :
  String.prefix sub s = true -> str_contains sub s = true.
Proof. intros H. destruct s; simpl in *; now rewrite H. Qed.

Lemma str_contains_app_r (sub p s : string) :
  str_contains sub s = true -> str_contains sub (p ++ s) = true.
Proof.
  intros H. induction p as [|c p IH]; [exact H|].
  change (String c p ++ s)%string with (String c (p ++ s)). cbn [str_contains].
  rewrite IH. apply orb_true_r.
Qed.

Lemma str_contains_app_l (a b s : string) :
  str_contains (a ++ b) s = true -> str_contains a s = true.
Proof.
  induction s as [|c s IH]; cbn [str_contains]; intros H;
    apply orb_true_iff in H; destruct H as [H | H];
    try (apply prefix_app_l in H; rewrite H; reflexivity); try discriminate.
  rewrite (IH H). apply orb_true_r.
Qed.

Lemma str_join_contains (x : string) (l : list string) :
  In x l ->
  String.prefix x (str_join "," l) = true \/
  str_contains ("," ++ x) (str_join "," l) = true.
Proof.
  induction l as [|p l IH]; [intros []|].
  intros Hin. destruct l as [|q l].
  - destruct Hin as [-> | []]. left. cbn [str_join].
    assert (Happ : (x ++ "")%string = x).
    { clear. induction x as [|c x IH]; [reflexivity|].
      change (String c x ++ "")%string with (String c (x ++ "")). now rewrite IH. }
    pose proof (prefix_app x "") as H. now rewrite Happ in H.
  - change (str_join "," (p :: q :: l)) with (p ++ "," ++ str_join "," (q :: l))%string.
    destruct Hin as [-> | Hin]; [left; apply prefix_app|].
    right. apply str_contains_app_r.
    destruct (IH Hin) as [H | H].
    + apply str_contains_prefix. simpl.
      destruct (ascii_dec "," ","); [exact H | congruence].
    + apply (str_contains_app_r _ ","). exact H.
Qed.

Lemma str_set_add_In (x v : string) (s : list string) :
  In x s -> In x (str_set_add v s).
Proof.
  unfold str_set_add. destruct (existsb _ s); [trivial|].
  intros H. apply in_or_app. now left.
Qed.

Lemma str_sorted_In (x : string) (l : list string) :
  In x l -> In x (str_sorted l).
Proof.
  assert (Hins : forall y l', x = y \/ In x l' -> In x (str_insert y l')).
  { intros y l'. induction l' as [|z l' IH]; simpl.
    - intros [-> | []]. now left.
    - destruct (String.leb y z); simpl; intros [-> | [-> | H]]; auto. }
  induction l as [|y l IH]; simpl; [trivial|].
  intros [-> | H]; apply Hins; auto.
Qed.

Lemma add_external_versions_In (x : string) visitees : forall versions versions',
  add_external_versions visitees versions = Ok versions' ->
  In x versions -> In x versions'.
Proof.
  induction visitees as [|visitee rest IH]; intros versions versions';
    cbn [add_external_versions].
  - now intros [= <-].
  - destruct (external_version visitee) as [| | |ev]; try discriminate.
    intros H Hin. apply (IH _ _ H). clear H.
    revert versions Hin. induction (str_split "," ev) as [|v vs IHvs]; intros versions Hin;
      [exact Hin|]. simpl. apply IHvs. now apply str_set_add_In.
Qed.

Lemma serialized_is_sklearn_flow E cls rvals f :
  first_segment cls = "sklearn" ->
  _serialize_model E cls rvals = Ok f ->
  _is_sklearn_flow f = Ok true.
Proof.
  intros Hcls Hf.
  destruct (serialize_model_ok E _ _ _ Hf)
    as (ex & names & _ & _ & _ & _ & _ & _ & _ & ev & Hev & Hversion).
  unfold _is_sklearn_flow. rewrite Hversion. f_equal.
  unfold _get_external_version_string in Hev. rewrite Hcls in Hev.
  destruct (package_version E "sklearn") as [ver|e]; cbn [bind] in Hev; [|discriminate].
  destruct (add_external_versions _ _) as [versions|e] eqn:Hadd; cbn [bind] in Hev;
    [|discriminate].
  injection Hev as <-.
  assert (Hin : In ("sklearn==" ++ ver)%string (str_sorted versions)).
  { apply str_sorted_In. eapply add_external_versions_In; [exact Hadd|].
    apply str_set_add_In. now left. }
  apply str_join_contains in Hin. apply orb_true_iff.
  destruct Hin as [H | H].
  - left. now apply (prefix_app_l "sklearn==" ver).
  - right. now apply (str_contains_app_l ",sklearn==" ver).
Qed.

(** ** Decoding what the forward walker stores *)

Section Decoding.
Variable E : runtime.
Hypothesis Hcodec : json_codec E.



(** A text that decodes is replaced by its value, a string among them being
  left as it is. *)
Lemma deserialize_text d text v components b :
json_loads E text = Some v ->
_deserialize_sklearn E (S d) (VStr text) components b =
match v with
| VStr _ => Ok (v, components)
| _ => _deserialize_sklearn E (S d) v components b
end.
Proof.
intros Hv. cbn [_deserialize_sklearn]. rewrite Hv. destruct v; reflexivity.
Qed.




(** *** Dictionaries with string keys *)

Definition skeyed {A} (l : list (string * A)) : list (scalar * A) :=
map (fun kv => (SStr (fst kv), snd kv)) l.

Definition vkeyed {A} (l : list (string * A)) : list (pyval * A) :=
map (fun kv => (VStr (fst kv), snd kv)) l.

Lemma dict_set_fresh {K A} (eqb : K -> K -> bool) k (v : A) d :
Forall (fun kv => eqb (fst kv) k = false) d ->
dict_set eqb k v d = d ++ [(k, v)].
Proof.
induction 1 as [|[k' v'] d Hk _ IH]; simpl; [reflexivity|].
simpl in Hk. now rewrite Hk, IH.
Qed.

Lemma string_eqb_neq (a b : string) : a <> b -> String.eqb a b = false.
Proof. intros H. now apply String.eqb_neq. Qed.

Lemma skeyed_set_fresh {A} k (v : A) l :
~ In k (map fst l) ->
dict_set key_eqb (SStr k) v (skeyed l) = skeyed (l ++ [(k, v)]).
Proof.
intros Hk. unfold skeyed. rewrite map_app. apply dict_set_fresh.
rewrite List.Forall_map. apply List.Forall_forall. intros [k' v'] Hin.
cbn [fst]. destruct (key_eqb (SStr k') (SStr k)) eqn:He; [|reflexivity].
apply key_eqb_true in He. injection He as ->.
exfalso. apply Hk. apply in_map_iff. now exists (k, v').
Qed.

Lemma vkeyed_set_fresh {A} k (v : A) l :
~ In k (map fst l) ->
dict_set py_key_eqb (VStr k) v (vkeyed l) = vkeyed (l ++ [(k, v)]).
Proof.
intros Hk. unfold vkeyed. rewrite map_app. apply dict_set_fresh.
rewrite List.Forall_map. apply List.Forall_forall. intros [k' v'] Hin.
cbn [fst py_key_eqb]. apply string_eqb_neq. intros ->.
apply Hk. apply in_map_iff. now exists (k, v').
Qed.

Lemma skeyed_in_fresh {A} k (l : list (string * A)) :
~ In k (map fst l) -> dict_in key_eqb (SStr k) (skeyed l) = false.
Proof.
intros Hk. unfold dict_in. induction l as [|[k' v'] l IH]; [reflexivity|].
cbn [skeyed map dict_get fst snd].
destruct (key_eqb (SStr k') (SStr k)) eqn:He.
- apply key_eqb_true in He. injection He as ->. exfalso. apply Hk. now left.
- apply IH. intros Hin. apply Hk. now right.
Qed.


(** *** What a parameter is stored as, and what it is decoded to *)










(** *** Lists of steps *)










(** *** Every parameter of a plain model *)






(** *** The model *)


Lemma items_sorted_map {A B} (g : A -> B) (l : list (string * A)) :
items_sorted (map (fun kv => (fst kv, g (snd kv))) l)
= map (fun kv => (fst kv, g (snd kv))) (items_sorted l).
Proof.
assert (Hins : forall x l',
  item_insert (fst x, g (snd x)) (map (fun kv => (fst kv, g (snd kv))) l')
  = map (fun kv => (fst kv, g (snd kv))) (item_insert x l')).
{ intros x l'. induction l' as [|y l' IH]; [reflexivity|].
  cbn [map item_insert fst]. destruct (String.leb (fst x) (fst y)); [reflexivity|].
  cbn [map]. now rewrite IH. }
induction l as [|x l IH]; [reflexivity|].
cbn [map]. unfold items_sorted in *. cbn [fold_right]. now rewrite IH, Hins.
Qed.






End Decoding.

(** ** C1 *)



(** * The reference codec decodes what it writes *)

Section CodecStrings.
Local Open Scope string_scope.

Lemma string_app_assoc (a b c : string) : (a ++ b) ++ c = a ++ (b ++ c).
Proof.
induction a as [|x a IH]; [reflexivity|].
change (String x a ++ b) with (String x (a ++ b)).
change (String x (a ++ b) ++ c) with (String x ((a ++ b) ++ c)).
change (String x a ++ (b ++ c)) with (String x (a ++ (b ++ c))).
now rewrite IH.
Qed.

Lemma string_app_nil_r (a : string) : a ++ "" = a.
Proof.
induction a as [|x a IH]; [reflexivity|].
change (String x a ++ "") with (String x (a ++ "")). now rewrite IH.
Qed.

Lemma string_app_cons (x : ascii) (a b : string) : String x a ++ b = String x (a ++ b).
Proof. reflexivity. Qed.

(** One character of a string and its escape. *)
Lemma loads_chars_escape_char (c : ascii) (tail : string) :
Json.loads_chars (Json.escape_char c ++ tail) =
match Json.loads_chars tail with
| Some (t, rest) => Some (String c t, rest)
| None => None
end.
Proof.
destruct c as [[] [] [] [] [] [] [] []]; reflexivity.
Qed.

Lemma loads_chars_escape (s rest : string) :
Json.loads_chars (Json.escape s ++ String Json.quote rest) = Some (s, rest).
Proof.
induction s as [|c s IH]; [reflexivity|].
cbn [Json.escape]. rewrite string_app_assoc, loads_chars_escape_char, IH. reflexivity.
Qed.
End CodecStrings.

Section CodecIntegers.
Local Open Scope string_scope.

(** What follows a value in the text of a list or of a dictionary, or the
  end of the text. *)
Definition safe_rest (rest : string) : Prop :=
match rest with
| EmptyString => True
| String c _ => c = ","%char \/ c = "]"%char \/ c = "}"%char
end.

Lemma loads_digits_uint (d : Decimal.uint) (rest : string) :
safe_rest rest ->
Json.loads_digits (NilEmpty.string_of_uint d ++ rest) = (d, rest).
Proof.
intros Hrest.
induction d as [|d IH|d IH|d IH|d IH|d IH|d IH|d IH|d IH|d IH|d IH];
  try (cbn [NilEmpty.string_of_uint]; rewrite string_app_cons;
       cbn [Json.loads_digits]; change (Json.digit_of _) with (Some Decimal.D0)
       || change (Json.digit_of _) with (Some Decimal.D1)
       || change (Json.digit_of _) with (Some Decimal.D2)
       || change (Json.digit_of _) with (Some Decimal.D3)
       || change (Json.digit_of _) with (Some Decimal.D4)
       || change (Json.digit_of _) with (Some Decimal.D5)
       || change (Json.digit_of _) with (Some Decimal.D6)
       || change (Json.digit_of _) with (Some Decimal.D7)
       || change (Json.digit_of _) with (Some Decimal.D8)
       || change (Json.digit_of _) with (Some Decimal.D9);
       now rewrite IH).
cbn [NilEmpty.string_of_uint]. change ("" ++ rest) with rest.
destruct rest as [|c rest]; [reflexivity|].
destruct Hrest as [-> | [-> | ->]]; reflexivity.
Qed.

Lemma uint_eqb_refl d : Json.uint_eqb d d = true.
Proof. unfold Json.uint_eqb. apply String.eqb_refl. Qed.

Lemma loads_nat_uint (d : Decimal.uint) (rest : string) :
d <> Decimal.Nil -> Decimal.unorm d = d -> safe_rest rest ->
Json.loads_nat (NilEmpty.string_of_uint d ++ rest) = Some (Z.of_uint d, rest).
Proof.
intros Hnil Hnorm Hrest. unfold Json.loads_nat.
rewrite (loads_digits_uint d rest Hrest), Hnorm, uint_eqb_refl. cbn [negb].
destruct d; try contradiction;
  (destruct rest as [|c rest]; [reflexivity|];
   destruct Hrest as [-> | [-> | ->]]; reflexivity).
Qed.

Lemma to_int_normal (z : Z) :
match Z.to_int z with
| Decimal.Pos d | Decimal.Neg d => d <> Decimal.Nil /\ Decimal.unorm d = d
end.
Proof.
assert (Hnorm : Decimal.norm (Z.to_int z) = Z.to_int z).
{ rewrite <- (DecimalZ.to_of (Z.to_int z)). now rewrite DecimalZ.of_to. }
destruct (Z.to_int z) as [d|d]; cbn [Decimal.norm] in Hnorm.
- injection Hnorm as Hd. split; [|exact Hd].
  rewrite <- Hd. apply DecimalFacts.unorm_nonnil.
- unfold Decimal.unorm.
  destruct (Decimal.nzhead d) eqn:Hhead; try discriminate;
    injection Hnorm as <-; split; [discriminate | reflexivity | discriminate | reflexivity
    | discriminate | reflexivity | discriminate | reflexivity | discriminate | reflexivity
    | discriminate | reflexivity | discriminate | reflexivity | discriminate | reflexivity
    | discriminate | reflexivity | discriminate | reflexivity].
Qed.

(** The branch of [loads_value] for a text that starts with a digit. *)
Lemma loads_value_digits fuel (d : Decimal.uint) (rest : string) :
d <> Decimal.Nil ->
Json.loads_value (S fuel) (NilEmpty.string_of_uint d ++ rest) =
match Json.loads_nat (NilEmpty.string_of_uint d ++ rest) with
| Some (z, rest') => Some (VInt z, rest')
| None => None
end.
Proof.
intros Hnil. destruct d; try contradiction; reflexivity.
Qed.

Lemma loads_value_int fuel (z : Z) (rest : string) :
safe_rest rest ->
Json.loads_value (S fuel) (Json.dumps_int z ++ rest) = Some (VInt z, rest).
Proof.
intros Hrest. unfold Json.dumps_int.
pose proof (to_int_normal z) as Hnormal. pose proof (DecimalZ.of_to z) as Hz.
destruct (Z.to_int z) as [d|d]; destruct Hnormal as [Hnil Hnorm]; cbn [Z.of_int] in Hz.
- rewrite (loads_value_digits _ d rest Hnil), (loads_nat_uint d rest Hnil Hnorm Hrest).
  now rewrite Hz.
- rewrite string_app_cons.
  change (Json.loads_value (S fuel) (String "-" (NilEmpty.string_of_uint d ++ rest)))
    with (match Json.loads_nat (NilEmpty.string_of_uint d ++ rest) with
          | Some (z', rest') => Some (VInt (- z'), rest')
          | None => None
          end).
  rewrite (loads_nat_uint d rest Hnil Hnorm Hrest). now rewrite Hz.
Qed.
End CodecIntegers.

Section CodecValues.
Local Open Scope string_scope.

Lemma loads_value_string fuel (s : string) :
Json.loads_value (S fuel) (String Json.quote s) =
match Json.loads_chars s with
| Some (t, rest) => Some (VStr t, rest)
| None => None
end.
Proof. reflexivity. Qed.

Lemma loads_value_list fuel (s : string) :
Json.loads_value (S fuel) (String "[" s) =
match Json.skip_ws s with
| String "]" rest => Some (VList [], rest)
| s1 =>
    match Json.loads_elements fuel s1 with
    | Some (l, rest) => Some (VList l, rest)
    | None => None
    end
end.
Proof. reflexivity. Qed.

Lemma loads_value_dict fuel (s : string) :
Json.loads_value (S fuel) (String "{" s) =
match Json.skip_ws s with
| String "}" rest => Some (VDict false [], rest)
| s1 =>
    match Json.loads_pairs fuel s1 with
    | Some (pairs, rest) => Some (VDict false (Json.dict_of_pairs pairs), rest)
    | None => None
    end
end.
Proof. reflexivity. Qed.

Lemma loads_elements_eq fuel (s : string) :
Json.loads_elements (S fuel) s =
match Json.loads_value fuel s with
| None => None
| Some (v, r) =>
    match Json.skip_ws r with
    | String "," r' =>
        match Json.loads_elements fuel (Json.skip_ws r') with
        | Some (l, rest) => Some (v :: l, rest)
        | None => None
        end
    | String "]" r' => Some ([v], r')
    | _ => None
    end
end.
Proof. reflexivity. Qed.

Lemma loads_pairs_eq fuel (s : string) :
Json.loads_pairs (S fuel) (String Json.quote s) =
match Json.loads_chars s with
| None => None
| Some (k, r) =>
    match Json.skip_ws r with
    | String ":" r1 =>
        match Json.loads_value fuel (Json.skip_ws r1) with
        | None => None
        | Some (v, r2) =>
            match Json.skip_ws r2 with
            | String "," r3 =>
                match Json.loads_pairs fuel (Json.skip_ws r3) with
                | Some (pairs, rest) => Some ((VStr k, v) :: pairs, rest)
                | None => None
                end
            | String "}" r3 => Some ([(VStr k, v)], r3)
            | _ => None
            end
        end
    | _ => None
    end
end.
Proof. reflexivity. Qed.

Lemma loads_elements_last fuel (s : string) v r :
Json.loads_value fuel s = Some (v, String "]" r) ->
Json.loads_elements (S fuel) s = Some ([v], r).
Proof. intros H. rewrite loads_elements_eq, H. reflexivity. Qed.

Lemma loads_elements_more fuel (s : string) v r :
Json.loads_value fuel s = Some (v, String "," (String " " r)) ->
Json.loads_elements (S fuel) s =
match Json.loads_elements fuel (Json.skip_ws r) with
| Some (l, rest) => Some (v :: l, rest)
| None => None
end.
Proof. intros H. rewrite loads_elements_eq, H. reflexivity. Qed.

Lemma loads_pairs_last fuel (s : string) k xs v r :
Json.loads_chars s = Some (k, String ":" (String " " xs)) ->
Json.loads_value fuel (Json.skip_ws xs) = Some (v, String "}" r) ->
Json.loads_pairs (S fuel) (String Json.quote s) = Some ([(VStr k, v)], r).
Proof. intros H1 H2. rewrite loads_pairs_eq, H1. simpl. rewrite H2. reflexivity. Qed.

Lemma loads_pairs_more fuel (s : string) k xs v r :
Json.loads_chars s = Some (k, String ":" (String " " xs)) ->
Json.loads_value fuel (Json.skip_ws xs) = Some (v, String "," (String " " r)) ->
Json.loads_pairs (S fuel) (String Json.quote s) =
match Json.loads_pairs fuel (Json.skip_ws r) with
| Some (pairs, rest) => Some ((VStr k, v) :: pairs, rest)
| None => None
end.
Proof. intros H1 H2. rewrite loads_pairs_eq, H1. simpl. rewrite H2. reflexivity. Qed.

(** The first character of the text of a value. *)
Definition starts_value (text : string) : Prop :=
exists c t, text = String c t /\ Json.is_ws c = false /\
            c <> "]"%char /\ c <> "}"%char.

Lemma dumps_starts_value (v : pyval) (text : string) :
Json.dumps v = Ok text -> starts_value text.
Proof.
assert (Hchar : forall (c : ascii) t, Json.is_ws c = false ->
          Ascii.eqb c "]" = false -> Ascii.eqb c "}" = false ->
          starts_value (String c t)).
{ intros c t H1 H2 H3. exists c, t. repeat split; trivial.
  - intros ->. discriminate.
  - intros ->. discriminate. }
destruct v as [|[]|z|s|l|l|o items| | | | | | | |]; cbn [Json.dumps];
  try discriminate; try (intros [= <-]; now apply Hchar).
- intros [= <-]. unfold Json.dumps_int.
  pose proof (to_int_normal z) as Hnormal.
  destruct (Z.to_int z) as [d|d]; [|now apply Hchar].
  destruct Hnormal as [Hnil _]. destruct d; try contradiction; now apply Hchar.
- destruct (sequence _); cbn [bind]; [|discriminate]. intros [= <-]. now apply Hchar.
- destruct (sequence _); cbn [bind]; [|discriminate]. intros [= <-]. now apply Hchar.
- destruct (sequence _); cbn [bind]; [|discriminate]. intros [= <-]. now apply Hchar.
Qed.

Lemma skip_ws_starts_value (text rest : string) :
starts_value text -> Json.skip_ws (text ++ rest) = text ++ rest.
Proof.
intros (c & t & -> & Hws & _). rewrite string_app_cons. cbn [Json.skip_ws].
now rewrite Hws.
Qed.

Lemma match_bracket {A} (c : ascii) (s : string) (a : string -> A) (b : string -> A) :
c <> "]"%char ->
match String c s with
| String "]" rest => a rest
| s1 => b s1
end = b (String c s).
Proof.
intros Hc. destruct c as [[] [] [] [] [] [] [] []]; try reflexivity.
now contradiction Hc.
Qed.
(** A value whose text is decoded to its image, whatever follows. *)
Definition decoded (v : pyval) : Prop :=
json_value v = true ->
forall text, Json.dumps v = Ok text ->
forall fuel rest, (String.length text <= fuel)%nat -> safe_rest rest ->
Json.loads_value fuel (text ++ rest) = Some (json_image v, rest).

Lemma starts_value_join (sep p : string) (ps : list string) :
starts_value p -> starts_value (str_join sep (p :: ps)).
Proof.
intros (c & t & -> & H). destruct ps as [|q ps]; [now exists c, t|].
change (str_join sep (String c t :: q :: ps))
  with (String c (t ++ sep ++ str_join sep (q :: ps))).
now eexists _, _.
Qed.

Lemma loads_elements_texts (l : list pyval) : forall parts rest fuel,
Forall decoded l -> forallb json_value l = true ->
sequence (map Json.dumps l) = Ok parts -> l <> [] ->
(S (String.length (str_join ", " parts)) <= fuel)%nat ->
Json.loads_elements fuel (str_join ", " parts ++ String "]" rest)
= Some (map json_image l, rest).
Proof.
induction l as [|x l IH]; intros parts rest fuel Hall Hjson Hseq Hne Hfuel;
  [contradiction|].
inversion Hall as [|? ? Hx Hall']; subst.
cbn [forallb] in Hjson. apply andb_true_iff in Hjson. destruct Hjson as [Hjx Hjl].
cbn [map sequence] in Hseq.
destruct (Json.dumps x) as [p|e] eqn:Hp; cbn [bind] in Hseq; [|discriminate].
destruct (sequence (map Json.dumps l)) as [ps|e] eqn:Hps; cbn [bind] in Hseq;
  [|discriminate].
injection Hseq as <-.
destruct fuel as [|fuel]; [lia|].
destruct l as [|y l].
- cbn [map sequence] in Hps. injection Hps as <-. cbn [str_join] in *.
  apply loads_elements_last. apply (Hx Hjx p Hp); [lia|]. right. now left.
- assert (Hq : exists q ps', ps = q :: ps' /\ Json.dumps y = Ok q).
  { cbn [map sequence] in Hps.
    destruct (Json.dumps y) as [q|e]; cbn [bind] in Hps; [|discriminate].
    destruct (sequence _) as [ps'|e]; cbn [bind] in Hps; [|discriminate].
    injection Hps as <-. now exists q, ps'. }
  destruct Hq as (q & ps' & -> & Hq).
  change (str_join ", " (p :: q :: ps'))
    with (p ++ ", " ++ str_join ", " (q :: ps')) in *.
  rewrite !string_length_app in Hfuel. cbn [String.length] in Hfuel.
  rewrite !string_app_assoc, !string_app_cons.
  change ("" ++ str_join ", " (q :: ps') ++ String "]" rest)
    with (str_join ", " (q :: ps') ++ String "]" rest).
  rewrite (loads_elements_more fuel _ (json_image x)
             (str_join ", " (q :: ps') ++ String "]" rest))
    by (apply (Hx Hjx p Hp); [lia | now left]).
  rewrite skip_ws_starts_value
    by (apply starts_value_join; exact (dumps_starts_value y q Hq)).
  rewrite (IH (q :: ps') rest fuel); trivial; [discriminate | lia].
Qed.
Definition pair_text (kv : pyval * pyval) : result string :=
let* k := Json.dumps_key (fst kv) in
let* x := Json.dumps (snd kv) in
Ok (k ++ ": " ++ x).

Lemma pair_text_app (k xt tail : string) :
(Json.dumps_str k ++ ": " ++ xt) ++ tail
= String Json.quote
    (Json.escape k ++ String Json.quote (String ":" (String " " (xt ++ tail)))).
Proof.
unfold Json.dumps_str. rewrite !string_app_cons, !string_app_assoc.
rewrite !string_app_cons. reflexivity.
Qed.

Lemma starts_value_pair (k rest : string) : starts_value (Json.dumps_str k ++ rest).
Proof.
unfold Json.dumps_str. rewrite string_app_cons. eexists _, _.
split; [reflexivity|]. repeat split; discriminate.
Qed.

Lemma loads_pairs_texts (sitems : list (string * pyval)) : forall parts rest fuel,
Forall (fun kv => decoded (snd kv)) sitems ->
forallb (fun kv => json_value (snd kv)) sitems = true ->
sequence (map pair_text (vkeyed sitems)) = Ok parts -> sitems <> [] ->
(S (String.length (str_join ", " parts)) <= fuel)%nat ->
Json.loads_pairs fuel (str_join ", " parts ++ String "}" rest)
= Some (vkeyed (map (fun kv => (fst kv, json_image (snd kv))) sitems), rest).
Proof.
induction sitems as [|[k x] l IH]; intros parts rest fuel Hall Hjson Hseq Hne Hfuel;
  [contradiction|].
inversion Hall as [|? ? Hx Hall']; subst. cbn [snd] in Hx.
cbn [forallb snd] in Hjson. apply andb_true_iff in Hjson. destruct Hjson as [Hjx Hjl].
cbn [vkeyed map sequence fst snd] in Hseq. fold (vkeyed l) in Hseq.
unfold pair_text at 1 in Hseq. cbn [fst snd Json.dumps_key bind] in Hseq.
destruct (Json.dumps x) as [xt|e] eqn:Hxt; cbn [bind] in Hseq; [|discriminate].
destruct (sequence (map pair_text (vkeyed l))) as [ps|e] eqn:Hps; cbn [bind] in Hseq;
  [|discriminate].
injection Hseq as <-.
destruct fuel as [|fuel]; [lia|].
pose proof (dumps_starts_value x xt Hxt) as Hstart.
destruct l as [|[k' y] l].
- cbn [vkeyed map sequence] in Hps. injection Hps as <-. cbn [str_join] in *.
  rewrite !string_length_app in Hfuel. cbn [String.length] in Hfuel.
  rewrite pair_text_app.
  apply (loads_pairs_last fuel _ k (xt ++ String "}" rest)).
  + apply loads_chars_escape.
  + rewrite (skip_ws_starts_value _ _ Hstart).
    apply (Hx Hjx xt Hxt); [lia|]. right. now right.
- assert (Hq : exists q ps', ps = q :: ps' /\ exists t, q = Json.dumps_str k' ++ t).
  { cbn [vkeyed map sequence fst snd] in Hps. unfold pair_text at 1 in Hps.
    cbn [fst snd Json.dumps_key bind] in Hps.
    destruct (Json.dumps y) as [yt|e]; cbn [bind] in Hps; [|discriminate].
    destruct (sequence _) as [ps'|e]; cbn [bind] in Hps; [|discriminate].
    injection Hps as <-. eexists _, ps'. split; [reflexivity|]. now eexists. }
  destruct Hq as (q & ps' & -> & t & Hq).
  change (str_join ", " ((Json.dumps_str k ++ ": " ++ xt) :: q :: ps'))
    with ((Json.dumps_str k ++ ": " ++ xt) ++ ", " ++ str_join ", " (q :: ps')) in *.
  rewrite !string_length_app in Hfuel. cbn [String.length] in Hfuel.
  rewrite string_app_assoc, pair_text_app, !string_app_cons.
  change ("" ++ str_join ", " (q :: ps') ++ String "}" rest)
    with (str_join ", " (q :: ps') ++ String "}" rest).
  rewrite (loads_pairs_more fuel _ k
             (xt ++ String "," (String " " (str_join ", " (q :: ps') ++ String "}" rest)))
             (json_image x) (str_join ", " (q :: ps') ++ String "}" rest)).
  + rewrite skip_ws_starts_value
      by (apply starts_value_join; rewrite Hq; apply starts_value_pair).
    rewrite (IH (q :: ps') rest fuel); trivial; [discriminate | lia].
  + apply loads_chars_escape.
  + rewrite (skip_ws_starts_value _ _ Hstart).
    apply (Hx Hjx xt Hxt); [lia|]. now left.
Qed.

Lemma vstr_items (items : list (pyval * pyval)) :
forallb (fun kv => is_VStr (fst kv) && json_value (snd kv)) items = true ->
exists sitems, items = vkeyed sitems /\
               forallb (fun kv => json_value (snd kv)) sitems = true.
Proof.
induction items as [|[k x] items IH]; [exists []; split; reflexivity|].
cbn [forallb fst snd]. rewrite !andb_true_iff. intros [[Hk Hx] Hitems].
destruct (IH Hitems) as (sitems & -> & Hall).
destruct k; try discriminate. exists ((s, x) :: sitems).
split; [reflexivity|]. cbn [forallb snd]. now rewrite Hx, Hall.
Qed.

Lemma distinct_keys_NoDup {A} (g : A -> pyval) (sitems : list (string * A)) :
distinct_keys (map (fun kv => (VStr (fst kv), g (snd kv))) sitems) = true ->
List.NoDup (map fst sitems).
Proof.
induction sitems as [|[k x] l IH]; [constructor|].
cbn [map distinct_keys fst snd]. rewrite andb_true_iff, negb_true_iff.
intros [Hk Hl]. constructor; [|now apply IH].
intros Hin. apply in_map_iff in Hin. destruct Hin as ([k' x'] & Hk' & Hin).
cbn [fst] in Hk'. subst k'.
assert (Htrue : key_in py_key_eqb (VStr k)
                  (map fst (map (fun kv => (VStr (fst kv), g (snd kv))) l)) = true).
{ unfold key_in. apply existsb_exists. exists (VStr k). split.
  - rewrite map_map. cbn [fst]. apply in_map_iff. now exists (k, x').
  - cbn [py_key_eqb]. apply String.eqb_refl. }
congruence.
Qed.

Lemma dict_of_pairs_vkeyed (l : list (string * pyval)) :
List.NoDup (map fst l) -> Json.dict_of_pairs (vkeyed l) = vkeyed l.
Proof.
unfold Json.dict_of_pairs.
assert (Hgen : forall acc, List.NoDup (map fst acc ++ map fst l) ->
  fold_left (fun d kv => dict_set py_key_eqb (fst kv) (snd kv) d) (vkeyed l) (vkeyed acc)
  = vkeyed (acc ++ l)).
{ induction l as [|[k x] l IH]; intros acc Hnd; [now rewrite app_nil_r|].
  cbn [vkeyed map fold_left fst snd]. fold (vkeyed l). fold (vkeyed acc).
  rewrite vkeyed_set_fresh.
  2:{ cbn [map fst] in Hnd. apply NoDup_remove_2 in Hnd. intros Hin. apply Hnd.
      apply in_or_app. now left. }
  rewrite IH; [now rewrite <- app_assoc|].
  rewrite map_app, <- app_assoc. exact Hnd. }
intros Hnd. exact (Hgen [] Hnd).
Qed.
Lemma loads_value_list_nonempty fuel (c : ascii) (s : string) :
Json.is_ws c = false -> c <> "]"%char ->
Json.loads_value (S fuel) (String "[" (String c s)) =
match Json.loads_elements fuel (String c s) with
| Some (l, rest) => Some (VList l, rest)
| None => None
end.
Proof.
intros Hws Hc. rewrite loads_value_list. cbn [Json.skip_ws]. rewrite Hws.
destruct c as [[] [] [] [] [] [] [] []]; try reflexivity. now contradiction Hc.
Qed.

Lemma loads_value_dict_nonempty fuel (s : string) :
Json.loads_value (S fuel) (String "{" (String Json.quote s)) =
match Json.loads_pairs fuel (String Json.quote s) with
| Some (pairs, rest) => Some (VDict false (Json.dict_of_pairs pairs), rest)
| None => None
end.
Proof. reflexivity. Qed.

Lemma decoded_sequence (l : list pyval) :
Forall decoded l -> forallb json_value l = true ->
forall text, (let* parts := sequence (map Json.dumps l) in
              Ok ("[" ++ str_join ", " parts ++ "]")) = Ok text ->
forall fuel rest, (String.length text <= fuel)%nat -> safe_rest rest ->
Json.loads_value fuel (text ++ rest) = Some (VList (map json_image l), rest).
Proof.
intros Hall Hjson text Htext fuel rest Hfuel Hrest.
destruct (sequence (map Json.dumps l)) as [parts|e] eqn:Hparts; cbn [bind] in Htext;
  [|discriminate].
injection Htext as <-.
rewrite !string_app_cons in *. rewrite !string_app_assoc.
change ("" ++ str_join ", " parts ++ "]" ++ rest)
  with (str_join ", " parts ++ String "]" rest).
change ("" ++ str_join ", " parts ++ "]") with (str_join ", " parts ++ "]") in Hfuel.
cbn [String.length] in Hfuel. rewrite string_length_app in Hfuel.
cbn [String.length] in Hfuel.
destruct fuel as [|fuel]; [lia|].
destruct l as [|x l].
- cbn [map sequence] in Hparts. injection Hparts as <-. reflexivity.
- assert (Hstart : starts_value (str_join ", " parts)).
  { cbn [map sequence] in Hparts.
    destruct (Json.dumps x) as [p|e] eqn:Hp; cbn [bind] in Hparts; [|discriminate].
    destruct (sequence _) as [ps|e]; cbn [bind] in Hparts; [|discriminate].
    injection Hparts as <-. apply starts_value_join.
    exact (dumps_starts_value x p Hp). }
  pose proof (loads_elements_texts (x :: l) parts rest fuel Hall Hjson Hparts) as Hel.
  destruct Hstart as (c & t & Hjoin & Hws & Hc & _).
  rewrite Hjoin in *. rewrite string_app_cons in *.
  rewrite (loads_value_list_nonempty fuel c _ Hws Hc).
  rewrite Hel; [reflexivity | discriminate |]. cbn [String.length] in *. lia.
Qed.

Lemma all_decoded (v : pyval) : decoded v.
Proof.
induction v as [| | | |l IH|l IH|ordered items IH| | | | | | | |]
  using pyval_ind_nested; intros Hjson text Htext fuel rest Hfuel Hrest;
  try discriminate.
- injection Htext as <-.
  destruct fuel as [|fuel]; [cbn in Hfuel; lia | now destruct rest].
- destruct b; injection Htext as <-;
    (destruct fuel as [|fuel]; [cbn in Hfuel; lia | now destruct rest]).
- cbn [Json.dumps] in Htext. injection Htext as <-.
  destruct fuel as [|fuel]; [|now apply loads_value_int].
  destruct (dumps_starts_value (VInt z) _ eq_refl) as (c & t & Ht & _).
  rewrite Ht in Hfuel. cbn in Hfuel. lia.
- cbn [Json.dumps] in Htext. injection Htext as <-.
  destruct fuel as [|fuel]; [cbn in Hfuel; lia|].
  unfold Json.dumps_str. rewrite string_app_cons, string_app_assoc, string_app_cons.
  rewrite loads_value_string. change ("" ++ rest) with rest.
  now rewrite loads_chars_escape.
- apply (decoded_sequence l IH Hjson text Htext fuel rest Hfuel Hrest).
- apply (decoded_sequence l IH Hjson text Htext fuel rest Hfuel Hrest).
- cbn [json_value] in Hjson. apply andb_true_iff in Hjson.
  destruct Hjson as [Hitems Hdistinct].
  destruct (vstr_items items Hitems) as (sitems & -> & Hvalues).
  cbn [Json.dumps] in Htext.
  change (fun kv : pyval * pyval =>
            let* k := Json.dumps_key (fst kv) in
            let* x := Json.dumps (snd kv) in Ok (k ++ ": " ++ x))
    with pair_text in Htext.
  destruct (sequence (map pair_text (vkeyed sitems))) as [parts|e] eqn:Hparts;
    cbn [bind] in Htext; [|discriminate].
  injection Htext as <-.
  assert (Hdec : Forall (fun kv => decoded (snd kv)) sitems).
  { unfold vkeyed in IH. rewrite List.Forall_map in IH.
    eapply List.Forall_impl; [|exact IH]. cbn [snd]. now intros kv [_ H]. }
  assert (Himage : json_image (VDict ordered (vkeyed sitems))
                   = VDict false
                       (vkeyed (map (fun kv => (fst kv, json_image (snd kv))) sitems))).
  { cbn [json_image]. unfold vkeyed. now rewrite !map_map. }
  rewrite Himage.
  rewrite !string_app_cons in *. rewrite !string_app_assoc.
  change ("" ++ str_join ", " parts ++ "}" ++ rest)
    with (str_join ", " parts ++ String "}" rest).
  change ("" ++ str_join ", " parts ++ "}") with (str_join ", " parts ++ "}") in Hfuel.
  cbn [String.length] in Hfuel. rewrite string_length_app in Hfuel.
  cbn [String.length] in Hfuel.
  destruct fuel as [|fuel]; [lia|].
  destruct sitems as [|[k x] sitems].
  + cbn [vkeyed map sequence] in Hparts. injection Hparts as <-. reflexivity.
  + pose proof (loads_pairs_texts ((k, x) :: sitems) parts rest fuel Hdec Hvalues Hparts)
      as Hpairs.
    assert (Hstart : exists t, str_join ", " parts = String Json.quote t).
    { cbn [vkeyed map sequence fst snd] in Hparts. unfold pair_text at 1 in Hparts.
      cbn [fst snd Json.dumps_key bind] in Hparts.
      destruct (Json.dumps x) as [xt|e]; cbn [bind] in Hparts; [|discriminate].
      destruct (sequence _) as [ps|e]; cbn [bind] in Hparts; [|discriminate].
      injection Hparts as <-. unfold Json.dumps_str.
      destruct ps; cbn [str_join]; rewrite !string_app_cons; now eexists. }
    destruct Hstart as (t & Hjoin). rewrite Hjoin in *. rewrite string_app_cons in *.
    rewrite loads_value_dict_nonempty.
    rewrite Hpairs; [| discriminate | cbn [String.length] in *; lia].
    rewrite dict_of_pairs_vkeyed; [reflexivity|].
    rewrite map_map.
    exact (distinct_keys_NoDup (fun v => v) _ Hdistinct).
Qed.
End CodecValues.

(** [json.loads(json.dumps(v))] in the reference codec. *)
Lemma loads_dumps (v : pyval) (text : string) :
  json_value v = true -> Json.dumps v = Ok text ->
  Json.loads text = Some (json_image v).
Proof.
  intros Hjson Htext. unfold Json.loads.
  pose proof (dumps_starts_value v text Htext) as Hstart.
  pose proof (skip_ws_starts_value text "" Hstart) as Hskip.
  rewrite string_app_nil_r in Hskip. rewrite Hskip.
  rewrite <- (string_app_nil_r text) at 2.
  rewrite (all_decoded v Hjson text Htext _ ""%string); [reflexivity | lia | exact I].
Qed.

Lemma reference_codec : json_codec Ref.env.
Proof.
  split; [exact loads_dumps|]. split; reflexivity.
Qed.


(** * The round trip in the reference runtime *)











(** * Further properties of the flow entity and of the extension *)

(** ** Paths from [get_structure] given to [get_subflow] *)

Lemma get_subflow_empty depth self structure h :
  h !! structure = Some [] ->
  fst (get_subflow (S depth) self structure h)
  = Raise (ValueError "Please provide a structure list of size >= 1").
Proof.
  intros Hpath. cbn [get_subflow]. unfold list_copy. rewrite Hpath.
  now rewrite lookup_insert_eq.
Qed.

Lemma name_key c : scalar_key (getattr_key c "name") = scalar_key (name c).
Proof. reflexivity. Qed.

(** X1.  In a flow whose names are pairwise distinct, the path
    [get_structure] files under the name of a nested component is a path
    [get_subflow] accepts, and it leads back to that component; the path of
    the flow itself is empty, and [get_subflow] refuses it. *)
Theorem get_subflow_follows_structure :
  forall (f : flow) (path : list string) (c : flow),
  NoDup (tree_keys "name" f) ->
  subflow_at f path = Some c -> path <> [] ->
  exists m, get_structure f "name" = Ok m /\
    m !! scalar_key (name c) = Some path /\
    m !! scalar_key (name f) = Some [] /\
    (forall depth structure h,
       h !! structure = Some path -> (length path <= depth)%nat ->
       fst (get_subflow depth f structure h) = Ok c) /\
    (forall depth structure h,
       h !! structure = Some [] ->
       fst (get_subflow (S depth) f structure h)
       = Raise (ValueError "Please provide a structure list of size >= 1")).
Proof.
  intros f path c Hnd Hc Hne.
  destruct (get_structure_distinct "name" (or_intror eq_refl) f Hnd)
    as (m & Hm & _ & Hpaths).
  exists m. split; [exact Hm|].
  split; [rewrite <- name_key; now apply Hpaths|].
  split; [rewrite <- name_key; now apply (Hpaths [] f)|].
  split.
  - intros depth structure h Hpath Hlen.
    rewrite (get_subflow_result depth f structure h path Hpath Hne Hlen).
    now rewrite Hc.
  - intros depth structure h. apply get_subflow_empty.
Qed.

Lemma get_subflow_follows_structure_witness :
  exists m, get_structure example_A "name" = Ok m /\
    m !! SStr "C" = Some ["b"; "c"] /\
    fst (get_subflow 2 example_A 1%positive {[ 1%positive := ["b"; "c"] ]}) = Ok example_C.
Proof.
  destruct (get_subflow_follows_structure example_A ["b"; "c"] example_C)
    as (m & Hm & Hpath & _ & Hsub & _).
  - apply (bool_decide_unpack _). vm_compute. exact I.
  - reflexivity.
  - discriminate.
  - exists m. split; [exact Hm|]. split; [exact Hpath|].
    apply Hsub; [reflexivity | simpl; lia].
Defined.

(** ** [_openml_param_name_to_sklearn] *)

(** X2.  In a flow whose names are pairwise distinct, the name of a
    parameter of the component reached by a path of identifiers is those
    identifiers and the parameter name joined by double underscores (for the
    flow itself, the parameter name alone); for a flow name that is the name
    of no flow of the tree the function raises ValueError. *)
Theorem openml_param_name_is_path :
  forall (f : flow) (path : list string) (c : flow) (n p : string),
  NoDup (tree_keys "name" f) ->
  subflow_at f path = Some c -> name c = SStr n ->
  _openml_param_name_to_sklearn (OpenMLParameter n p) f
    = Ok (str_join "__" (path ++ [p])) /\
  (forall n', ~ In (SStr n') (tree_keys "name" f) ->
     _openml_param_name_to_sklearn (OpenMLParameter n' p) f
     = Raise (ValueError "Obtained OpenMLParameter and OpenMLFlow do not correspond. ")).
Proof.
  intros f path c n p Hnd Hc Hn.
  destruct (get_structure_distinct "name" (or_intror eq_refl) f Hnd)
    as (m & Hm & Hkeys & Hpaths).
  unfold _openml_param_name_to_sklearn. rewrite Hm. cbn [bind flow_name parameter_name].
  split.
  - specialize (Hpaths path c Hc). rewrite name_key, Hn in Hpaths. cbn in Hpaths.
    now rewrite Hpaths.
  - intros n' Hn'. destruct (m !! SStr n') as [path'|] eqn:Hlook; [|reflexivity].
    exfalso. apply Hn'. apply Hkeys. now rewrite Hlook.
Qed.

Lemma openml_param_name_is_path_witness :
  _openml_param_name_to_sklearn (OpenMLParameter "C" "max_depth") example_A
    = Ok "b__c__max_depth" /\
  _openml_param_name_to_sklearn (OpenMLParameter "A(B(C))" "max_depth") example_A
    = Ok "max_depth".
Proof.
  assert (Hnd : NoDup (tree_keys "name" example_A))
    by (apply (bool_decide_unpack _); vm_compute; exact I).
  split.
  - exact (proj1 (openml_param_name_is_path example_A ["b"; "c"] example_C "C" "max_depth"
                    Hnd eq_refl eq_refl)).
  - exact (proj1 (openml_param_name_is_path example_A [] example_A "A(B(C))" "max_depth"
                    Hnd eq_refl eq_refl)).
Defined.


(** ** What [_copy_server_fields] copies *)

Lemma subflow_at_step f k rest :
  subflow_at f (k :: rest)
  = match dict_get String.eqb k (components f) with
    | Some sub => subflow_at sub rest
    | None => None
    end.
Proof.
  simpl. generalize (components f). intros cs.
  induction cs as [|[k' sub] cs IH]; [reflexivity|].
  simpl. destruct (String.eqb k' k); [reflexivity | exact IH].
Qed.

Lemma components_unchanged_get k (ts ts' : list (string * flow)) :
  components_unchanged ts ts' ->
  match dict_get String.eqb k ts, dict_get String.eqb k ts' with
  | Some t, Some t' => flow_keys_unchanged t t'
  | None, None => True
  | _, _ => False
  end.
Proof.
  induction 1 as [|[k1 t] [k2 t'] ts ts' [Hk Ht] _ IH]; simpl; [exact I|].
  simpl in Hk, Ht. subst k2. destruct (String.eqb k1 k); [exact Ht | exact IH].
Qed.

(** [covers] looks at the identifiers of the target only. *)
Lemma covers_unchanged source : forall target target',
  flow_keys_unchanged target target' -> covers source target = covers source target'.
Proof.
  induction source as [source IH] using flow_ind_components.
  intros target target' Hu. destruct source as [? ? cs]. simpl in *.
  inversion Hu as [? ? _ _ Hcs]; subst.
  induction IH as [|[k c] cs Hc _ IHcs]; [reflexivity|].
  simpl. rewrite IHcs. f_equal.
  pose proof (components_unchanged_get k _ _ Hcs) as Hget.
  destruct (dict_get String.eqb k (components target)) as [t|],
           (dict_get String.eqb k (components target')) as [t'|];
    try reflexivity; try (exfalso; exact Hget).
  now apply Hc.
Qed.

Definition covered (cs ts : list (string * flow)) : bool :=
  forallb (fun c =>
             match dict_get String.eqb (fst c) ts with
             | Some t => covers (snd c) t
             | None => false
             end) cs.

Lemma covers_eq source target :
  covers source target = covered (components source) (components target).
Proof. destruct source. reflexivity. Qed.

Lemma covered_unchanged cs ts ts' :
  components_unchanged ts ts' -> covered cs ts = covered cs ts'.
Proof.
  intros Hu. induction cs as [|[k c] cs IH]; [reflexivity|].
  simpl. rewrite IH. f_equal.
  pose proof (components_unchanged_get k _ _ Hu) as Hget.
  destruct (dict_get String.eqb k ts) as [t|], (dict_get String.eqb k ts') as [t'|];
    try reflexivity; try (exfalso; exact Hget).
  now apply covers_unchanged.
Qed.

Definition status_of (ok : bool) : option exn :=
  if ok then None else Some AssertionError.

Lemma copy_components_status cs :
  Forall (fun c => forall target,
            snd (_copy_server_fields (snd c) target)
            = status_of (covers (snd c) target)) cs ->
  forall tcs, snd (copy_components _copy_server_fields cs tcs)
              = status_of (covered cs tcs).
Proof.
  induction 1 as [|[k c] cs Hc _ IH]; intros tcs; [reflexivity|].
  cbn [copy_components covered forallb fst snd].
  destruct (dict_get String.eqb k tcs) as [t|] eqn:Hget; [|reflexivity].
  cbn [snd] in Hc. specialize (Hc t).
  pose proof (copy_server_fields_keys c t) as Hkeys.
  destruct (_copy_server_fields c t) as [t' st] eqn:Hcopy. cbn [fst snd] in *.
  subst st. destruct (covers c t); cbn [status_of andb]; [|reflexivity].
  rewrite IH. f_equal. symmetry. apply covered_unchanged.
  eapply components_unchanged_set; eassumption.
Qed.

Lemma copy_server_fields_eq source target :
  _copy_server_fields source target
  = (set_server_fields target (flow_id source) (uploader source) (version source)
       (upload_date source)
       (fst (copy_components _copy_server_fields (components source)
               (components target))),
     snd (copy_components _copy_server_fields (components source) (components target))).
Proof.
  destruct source. cbn -[copy_components].
  now destruct (copy_components _ _ _).
Qed.

Lemma copy_server_fields_status source : forall target,
  snd (_copy_server_fields source target) = status_of (covers source target).
Proof.
  induction source as [source IH] using flow_ind_components. intros target.
  rewrite copy_server_fields_eq, covers_eq. cbn [snd].
  now apply copy_components_status.
Qed.

Lemma dict_get_set_eq {A : Type} k (v : A) (d : list (string * A)) :
  is_Some (dict_get String.eqb k d) ->
  dict_get String.eqb k (dict_set String.eqb k v d) = Some v.
Proof.
  induction d as [|[k' x] d IH]; simpl; [intros [? [=]]|].
  destruct (String.eqb k' k) eqn:E; simpl; rewrite E; [reflexivity | exact IH].
Qed.

Lemma dict_get_set_neq {A : Type} k k' (v : A) (d : list (string * A)) :
  k <> k' ->
  dict_get String.eqb k' (dict_set String.eqb k v d) = dict_get String.eqb k' d.
Proof.
  intros Hne. induction d as [|[k1 x] d IH]; simpl.
  - destruct (String.eqb k k') eqn:E; [|reflexivity].
    apply String.eqb_eq in E. contradiction.
  - destruct (String.eqb k1 k) eqn:E; simpl.
    + apply String.eqb_eq in E. subst k1.
      destruct (String.eqb k k') eqn:E'; [|reflexivity].
      apply String.eqb_eq in E'. contradiction.
    + destruct (String.eqb k1 k'); [reflexivity | exact IH].
Qed.

(** The loop of [_copy_server_fields] when it ends without an exception:
    the component of the target under each identifier of the source is the
    copy, the others are as before. *)
Lemma copy_components_get cs : forall tcs tcs',
  NoDup (dict_keys cs) ->
  copy_components _copy_server_fields cs tcs = (tcs', None) ->
  (forall k sub, In (k, sub) cs ->
     exists t, dict_get String.eqb k tcs = Some t /\
               dict_get String.eqb k tcs' = Some (fst (_copy_server_fields sub t))) /\
  (forall k, ~ In k (dict_keys cs) ->
     dict_get String.eqb k tcs' = dict_get String.eqb k tcs).
Proof.
  induction cs as [|[k c] cs IH]; intros tcs tcs' Hnd.
  - intros [= <-]. split; [intros ? ? [] | reflexivity].
  - cbn [copy_components].
    change (NoDup (k :: dict_keys cs)) in Hnd.
    apply NoDup_cons in Hnd. destruct Hnd as [Hk Hnd]. rewrite list_elem_of_In in Hk.
    destruct (dict_get String.eqb k tcs) as [t|] eqn:Hget; [|discriminate].
    destruct (_copy_server_fields c t) as [t' [e|]] eqn:Hcopy; [discriminate|].
    intros Hrest. destruct (IH _ _ Hnd Hrest) as [Hin Hout]. split.
    + intros k1 sub [[= <- <-] | Hin1].
      * exists t. split; [exact Hget|]. rewrite (Hout k Hk), Hcopy.
        apply dict_get_set_eq. now rewrite Hget.
      * destruct (Hin k1 sub Hin1) as (t1 & Hget1 & Hget1').
        assert (Hne : k <> k1).
        { intros <-. apply Hk. unfold dict_keys.
          change k with (fst (k, sub)). now apply in_map. }
        rewrite dict_get_set_neq in Hget1 by exact Hne. now exists t1.
    + intros k1 Hk1. rewrite Hout by (intros Hin1; apply Hk1; now right).
      apply dict_get_set_neq. intros <-. apply Hk1. now left.
Qed.

Lemma dict_get_In {A : Type} k (v : A) (d : list (string * A)) :
  dict_get String.eqb k d = Some v -> In (k, v) d.
Proof.
  induction d as [|[k' x] d IH]; simpl; [discriminate|].
  destruct (String.eqb k' k) eqn:E.
  - apply String.eqb_eq in E. subst k'. intros [= <-]. now left.
  - intros H. right. now apply IH.
Qed.

Lemma distinct_components_eq f :
  distinct_components f = true <->
  NoDup (dict_keys (components f)) /\
  Forall (fun c => distinct_components (snd c) = true) (components f).
Proof.
  destruct f as [? ? cs]. cbn [distinct_components components].
  rewrite andb_true_iff, bool_decide_eq_true, forallb_forall, List.Forall_forall.
  reflexivity.
Qed.

(** X3.  When every component of the source has a component of the target
    under the same identifiers, [_copy_server_fields] ends without an
    exception, and the flow the target holds under each path of the source
    is the one it held before with the four fields the server sets taken
    from the flow of the source under that path; a flow of the target under
    a path that is none of the source is as it was. *)
Theorem copy_server_fields_follows_paths :
  forall source target : flow,
  distinct_components source = true ->
  covers source target = true ->
  let copied := fst (_copy_server_fields source target) in
  snd (_copy_server_fields source target) = None /\
  (forall path s, subflow_at source path = Some s ->
     exists t t', subflow_at target path = Some t /\
       subflow_at copied path = Some t' /\
       t' = set_server_fields t (flow_id s) (uploader s) (version s)
              (upload_date s) (components t')) /\
  (forall path, subflow_at source path = None ->
     subflow_at copied path = subflow_at target path).
Proof.
  intros source. induction source as [source IH] using flow_ind_components.
  intros target Hdistinct Hcovers copied.
  assert (Hstatus : snd (_copy_server_fields source target) = None).
  { now rewrite copy_server_fields_status, Hcovers. }
  split; [exact Hstatus|].
  subst copied. rewrite copy_server_fields_eq in Hstatus |- *. cbn [fst snd] in *.
  apply distinct_components_eq in Hdistinct. destruct Hdistinct as [Hnd Hsubs].
  destruct (copy_components _copy_server_fields (components source) (components target))
    as [tcs' st] eqn:Hloop. cbn [fst snd] in *. subst st.
  destruct (copy_components_get _ _ _ Hnd Hloop) as [Hin Hout].
  split.
  - intros [|k rest] s.
    + intros [= <-]. exists target, (set_server_fields target (flow_id source)
        (uploader source) (version source) (upload_date source) tcs').
      repeat split.
    + rewrite !subflow_at_step. cbn [set_server_fields components].
      destruct (dict_get String.eqb k (components source)) as [sub|] eqn:Hsub;
        [|discriminate].
      apply dict_get_In in Hsub. intros Hs.
      destruct (Hin k sub Hsub) as (t & Hget & Hget'). rewrite Hget, Hget'.
      rewrite List.Forall_forall in IH, Hsubs.
      assert (Hc : covers sub t = true).
      { rewrite covers_eq in Hcovers. unfold covered in Hcovers.
        rewrite forallb_forall in Hcovers. specialize (Hcovers _ Hsub).
        cbn [fst snd] in Hcovers. now rewrite Hget in Hcovers. }
      destruct (IH _ Hsub t (Hsubs _ Hsub) Hc) as (_ & Hpaths & _).
      exact (Hpaths rest s Hs).
  - intros [|k rest]; [discriminate|].
    rewrite !subflow_at_step. cbn [set_server_fields components].
    destruct (dict_get String.eqb k (components source)) as [sub|] eqn:Hsub.
    + apply dict_get_In in Hsub. intros Hs.
      destruct (Hin k sub Hsub) as (t & Hget & Hget'). rewrite Hget, Hget'.
      rewrite List.Forall_forall in IH, Hsubs.
      assert (Hc : covers sub t = true).
      { rewrite covers_eq in Hcovers. unfold covered in Hcovers.
        rewrite forallb_forall in Hcovers. specialize (Hcovers _ Hsub).
        cbn [fst snd] in Hcovers. now rewrite Hget in Hcovers. }
      destruct (IH _ Hsub t (Hsubs _ Hsub) Hc) as (_ & _ & Hothers).
      exact (Hothers rest Hs).
    + intros _. rewrite Hout; [reflexivity|].
      intros Hk. apply in_map_iff in Hk. destruct Hk as ([k' sub] & Hk & Hin').
      cbn [fst] in Hk. subst k'.
      clear -Hsub Hin'. induction (components source) as [|[k1 x] cs IHcs]; [easy|].
      simpl in Hsub. destruct (String.eqb k1 k) eqn:E; [discriminate|].
      destruct Hin' as [[= -> ->] | Hin']; [|now apply IHcs].
      rewrite String.eqb_refl in E. discriminate.
Qed.

Lemma copy_server_fields_follows_paths_witness :
  snd (_copy_server_fields example_A_published example_A) = None /\
  exists t', subflow_at (fst (_copy_server_fields example_A_published example_A))
               ["b"; "c"] = Some t' /\
             flow_id t' = SInt 12 /\ name t' = SStr "C".
Proof.
  destruct (copy_server_fields_follows_paths example_A_published example_A
              eq_refl eq_refl) as (Hstatus & Hpaths & _).
  split; [exact Hstatus|].
  destruct (Hpaths ["b"; "c"] (bare_flow (SStr "C") (SInt 12) []) eq_refl)
    as (t & t' & Ht & Ht' & Heq).
  exists t'. split; [exact Ht'|]. rewrite Heq.
  injection Ht as <-. split; reflexivity.
Defined.

(** X4.  When some component of the source, at any depth, has no component
    of the target under the same identifiers, [_copy_server_fields] ends in
    an AssertionError; the four fields of the target itself are set from the
    source all the same, and its other attributes are as they were. *)
Theorem copy_server_fields_missing_component :
  forall source target : flow,
  covers source target = false ->
  let copied := fst (_copy_server_fields source target) in
  snd (_copy_server_fields source target) = Some AssertionError /\
  copied = set_server_fields target (flow_id source) (uploader source)
             (version source) (upload_date source) (components copied) /\
  flow_keys_unchanged target copied.
Proof.
  intros source target Hcovers copied. subst copied.
  split; [now rewrite copy_server_fields_status, Hcovers|].
  split; [|apply copy_server_fields_keys].
  rewrite copy_server_fields_eq. reflexivity.
Qed.

Lemma copy_server_fields_missing_component_witness :
  snd (_copy_server_fields example_A_published example_B) = Some AssertionError /\
  flow_id (fst (_copy_server_fields example_A_published example_B)) = SInt 10.
Proof.
  destruct (copy_server_fields_missing_component example_A_published example_B eq_refl)
    as (Hstatus & Heq & _).
  split; [exact Hstatus|]. rewrite Heq. reflexivity.
Defined.


(** ** The flows the forward walker builds *)

(** A property holds of every flow in a serialized value, looked for where
    the extraction of the parameters looks for flows. *)
Fixpoint flows_satisfy (P : flow -> Prop) (v : pyval) : Prop :=
  match v with
  | VFlow f => P f
  | VList l | VTuple l =>
      (fix all (l : list pyval) : Prop :=
         match l with
         | [] => True
         | x :: l' => flows_satisfy P x /\ all l'
         end) l
  | _ => True
  end.

Lemma flows_satisfy_list P l : flows_satisfy P (VList l) <-> Forall (flows_satisfy P) l.
Proof.
  cbn [flows_satisfy]. induction l as [|x l IH].
  - split; [constructor | trivial].
  - rewrite IH. split.
    + intros [Hx Hl]. now constructor.
    + intros H. inversion H; subst. now split.
Qed.

Lemma flows_satisfy_tuple P l : flows_satisfy P (VTuple l) <-> Forall (flows_satisfy P) l.
Proof. exact (flows_satisfy_list P l). Qed.

(** What [_serialize_model] went through when it returns a flow, with the
    call of [OpenMLFlow] it ends in. *)
Lemma serialize_model_init E cls rvals f :
  _serialize_model E cls rvals = Ok f ->
  exists ex nm ev tgs deps,
    _extract_information_from_model E rvals = Ok ex /\
    string_keyed (ex_sub_components ex) = Ok (components f) /\
    OpenMLFlow_init (SStr nm) (SStr "Automatically created scikit-learn flow.")
      (components f) (ex_parameters ex) (ex_parameters_meta_info ex) (SStr ev)
      (Some tgs) (SStr "English") (SStr deps) (SStr cls)
      SNone SNone SNone SNone SNone SNone SNone SNone = Ok f.
Proof.
  unfold _serialize_model.
  destruct (_extract_information_from_model E rvals) as [ex|e] eqn:Hex;
    cbn [bind]; [|discriminate].
  destruct (_check_multiple_occurence_of_component_in_flow _) as [[]|e];
    cbn [bind]; [|discriminate].
  destruct (sub_components_names_of _ _ _) as [names|e]; cbn [bind]; [|discriminate].
  destruct (_get_external_version_string E cls _) as [ev|e]; cbn [bind]; [|discriminate].
  destruct (string_keyed _) as [comps|e] eqn:Hkeyed; cbn [bind]; [|discriminate].
  intros H. pose proof (OpenMLFlow_init_ok _ _ _ _ _ _ _ _ _ _ _ _ _ _ _ _ _ _ _ H) as Hf.
  assert (Hc : components f = comps) by now subst f.
  rewrite Hc. do 5 eexists. split; [reflexivity|]. split; [exact Hkeyed|]. exact H.
Qed.

Section SerializedFlows.
Variable E : runtime.
Variable P : flow -> Prop.

(** [P] holds of a flow [_serialize_model] returns when it holds of its
components. *)
Hypothesis P_serialized : forall cls rvals f,
_serialize_model E cls rvals = Ok f ->
Forall (fun c => P (snd c)) (components f) -> P f.

Let components_satisfy (subs : list (pyval * flow)) : Prop :=
Forall (fun c => P (snd c)) subs.

Lemma extract_sub_component_satisfy reserved t pv subs expl pv' subs' expl' :
flows_satisfy P t -> components_satisfy subs ->
extract_sub_component reserved t (pv, subs, expl) = Ok (pv', subs', expl') ->
components_satisfy subs'.
Proof.
intros Ht Hsubs. unfold extract_sub_component.
assert (Hel : forall elements, Forall (flows_satisfy P) elements ->
match elements with
| [] | [_] => Raise (IndexError "index out of range")
| identifier :: sub_component :: others =>
  if negb ((2 <=? length elements)%nat && (length elements <=? 3)%nat)
  then Raise (ValueError "Length of tuple does not match assumptions")
  else
    match sub_component with
    | VFlow _ | VNone =>
        if negb (hashable identifier)
        then Raise (TypeError "unhashable type")
        else if key_in py_key_eqb identifier (map VStr reserved)
        then Raise (PyOpenMLError "Found element shadowing official parameter")
        else
          match sub_component with
          | VFlow sub_flow =>
              let cr := component_reference identifier identifier
                          (match others with a :: _ => Some a | [] => None end) in
              Ok (pv ++ [cr],
                  dict_set py_key_eqb identifier sub_flow subs,
                  if key_in py_key_eqb identifier expl
                  then expl
                  else expl ++ [identifier])
          | _ =>
              let pv0 := [identifier; VNone] in
              Ok (pv ++ [if match t with VTuple _ => true | _ => false end
                         then VTuple pv0 else VList pv0],
                  subs, expl)
          end
    | _ => Raise (TypeError "Second item of tuple does not match assumptions")
    end
end = Ok (pv', subs', expl') -> components_satisfy subs').
{ intros [|identifier [|sub_component others]] Hall; try discriminate.
destruct (negb _); [discriminate|].
inversion Hall as [|? ? _ Hall']; subst. inversion Hall' as [|? ? Hsub _]; subst.
destruct sub_component; try discriminate;
(destruct (negb (hashable identifier)); [discriminate|]);
(destruct (key_in py_key_eqb identifier (map VStr reserved)); [discriminate|]);
intros [= <- <- <-]; trivial.
apply dict_set_Forall_values; assumption. }
destruct t; try discriminate.
- apply Hel. now apply flows_satisfy_list.
- apply Hel. now apply flows_satisfy_tuple.
Qed.

Lemma extract_sub_components_satisfy reserved tuples : forall pv subs expl pv' subs' expl',
Forall (flows_satisfy P) tuples -> components_satisfy subs ->
extract_sub_components reserved tuples (pv, subs, expl) = Ok (pv', subs', expl') ->
components_satisfy subs'.
Proof.
induction tuples as [|t tuples IH]; intros pv subs expl pv' subs' expl' Hall Hsubs;
cbn [extract_sub_components].
- intros [= <- <- <-]. exact Hsubs.
- inversion Hall as [|? ? Ht Hall']; subst.
destruct (extract_sub_component reserved t (pv, subs, expl))
as [[[pv1 subs1] expl1]|e] eqn:Hstep; cbn [bind]; [|discriminate].
apply IH; trivial.
eapply extract_sub_component_satisfy; eassumption.
Qed.

Lemma extract_parameter_satisfy reserved k rval ex ex' :
flows_satisfy P rval -> components_satisfy (ex_sub_components ex) ->
extract_parameter E reserved k rval ex = Ok ex' ->
components_satisfy (ex_sub_components ex').
Proof.
intros Hrval Hex. unfold extract_parameter.
destruct (is_non_empty_list_of_lists_with_same_type rval
      && negb (is_non_empty_list_of_lists_with_same_type rval
               && all_simple_flat rval)).
- destruct (extract_sub_components reserved _ _) as [[[pv subs] expl]|e] eqn:Hsub;
[|simpl; discriminate].
simpl. destruct (json_dumps E _); [|simpl; discriminate]. simpl.
intros [= <-]. simpl.
eapply extract_sub_components_satisfy; [| exact Hex | exact Hsub].
destruct rval; try constructor.
+ now apply flows_satisfy_list.
+ now apply flows_satisfy_tuple.
- destruct rval;
try (destruct (negb (is_empty_sized _));
     [destruct (json_dumps E _); [|simpl; discriminate]|];
     simpl; intros [= <-]; exact Hex).
destruct (json_dumps E _); [|simpl; discriminate]. simpl. intros [= <-]. simpl.
apply dict_set_Forall_values; assumption.
Qed.

Lemma extract_parameters_satisfy reserved rvals : forall ex ex',
Forall (fun kr => forall r, snd kr = Ok r -> flows_satisfy P r) rvals ->
components_satisfy (ex_sub_components ex) ->
extract_parameters E reserved rvals ex = Ok ex' ->
components_satisfy (ex_sub_components ex').
Proof.
induction rvals as [|[k r] rvals IH]; intros ex ex' Hall Hex;
cbn [extract_parameters].
- intros [= <-]. exact Hex.
- inversion Hall as [|? ? Hr Hall']; subst.
destruct r as [rval|e]; cbn [bind]; [|discriminate].
destruct (extract_parameter E reserved k rval ex) as [ex1|e] eqn:Hstep;
cbn [bind]; [|discriminate].
apply IH; trivial.
eapply extract_parameter_satisfy; [| exact Hex | exact Hstep].
now apply Hr.
Qed.

Lemma serialize_model_satisfy cls rvals f :
Forall (fun kr => forall r, snd kr = Ok r -> flows_satisfy P r) rvals ->
_serialize_model E cls rvals = Ok f -> P f.
Proof.
intros Hall Hf. apply (P_serialized _ _ _ Hf).
destruct (serialize_model_init _ _ _ _ Hf) as (ex & nm & ev & tgs & deps & Hex & Hkeyed & _).
assert (Hsubs : components_satisfy (ex_sub_components ex)).
{ unfold _extract_information_from_model in Hex.
eapply extract_parameters_satisfy; [| | exact Hex]; [|constructor].
rewrite List.Forall_forall in Hall |- *. intros x Hx. apply Hall.
now apply items_sorted_In. }
apply string_keyed_values in Hkeyed. destruct Hkeyed as [Hvalues _].
unfold components_satisfy in Hsubs.
rewrite <- List.Forall_map in Hsubs |- *. now rewrite Hvalues.
Qed.

(** Every flow the forward walker returns or puts in a list satisfies [P]. *)
Lemma serialize_sklearn_satisfy v : forall r,
_serialize_sklearn E v = Ok r -> flows_satisfy P r.
Proof.
induction v using pyval_ind_nested; intros r; cbn [_serialize_sklearn].
- now intros [= <-].
- now intros [= <-].
- now intros [= <-].
- now intros [= <-].
- destruct (sequence _) as [rval|e] eqn:Hseq; cbn [bind]; [|discriminate].
intros [= <-]. apply flows_satisfy_list.
eapply sequence_Forall; [|exact Hseq]. rewrite List.Forall_map. exact H.
- destruct (sequence _) as [rval|e] eqn:Hseq; cbn [bind]; [|discriminate].
intros [= <-]. apply flows_satisfy_tuple.
eapply sequence_Forall; [|exact Hseq]. rewrite List.Forall_map. exact H.
- destruct (if ordered then _ else _) as [entries|e]; cbn [bind]; [|discriminate].
destruct (serialize_items _ _) as [rval|e]; cbn [bind]; [|discriminate].
now intros [= <-].
- destruct item; now intros [= <-].
- destruct t; try discriminate; now intros [= <-].
- now intros [= <-].
- now intros [= <-].
- unfold _serialize_cross_validator.
destruct (cross_validator_parameters E _ _) as [ps|e]; cbn [bind]; [|discriminate].
now intros [= <-].
- destruct (_serialize_model E cls _) as [f|e] eqn:Hf; cbn [bind]; [|discriminate].
intros [= <-]. cbn [flows_satisfy].
eapply serialize_model_satisfy; [|exact Hf].
rewrite List.Forall_map. exact H.
- discriminate.
- discriminate.
Qed.
End SerializedFlows.


(** ** The flow of a model has a document *)

Lemma dict_set_Forall_items {K A} (eqb : K -> K -> bool) (PK : K -> Prop)
    (PV : A -> Prop) k v d :
  Forall (fun c => PK (fst c) /\ PV (snd c)) d -> PK k -> PV v ->
  Forall (fun c => PK (fst c) /\ PV (snd c)) (dict_set eqb k v d).
Proof.
  intros Hd Hk Hv. induction Hd as [|[k' v'] d [Hk' Hv'] Hd IH]; simpl.
  - constructor; [now split | constructor].
  - destruct (eqb k' k); constructor; trivial; now split.
Qed.

Lemma dict_get_Forall {K A} (eqb : K -> K -> bool) (PK : K -> Prop) (PV : A -> Prop)
    k v (d : list (K * A)) :
  Forall (fun c => PK (fst c) /\ PV (snd c)) d -> dict_get eqb k d = Some v -> PV v.
Proof.
  induction 1 as [|[k' v'] d [_ Hv'] _ IH]; simpl; [discriminate|].
  destruct (eqb k' k); [now intros [= <-] | exact IH].
Qed.

(** The parameters the extraction stores: names that are strings, values
    that are strings or [None], and no meta information. *)
Definition stored_parameters (ex : extraction) : Prop :=
  Forall (fun c => is_str (fst c) = true /\ str_or_none (snd c) = true)
         (ex_parameters ex) /\
  Forall (fun c => is_str (fst c) = true /\ snd c = no_meta_info)
         (ex_parameters_meta_info ex).

Lemma extract_parameter_stored E reserved k rval ex ex' :
  stored_parameters ex ->
  extract_parameter E reserved k rval ex = Ok ex' -> stored_parameters ex'.
Proof.
  intros [Hps Hms]. unfold extract_parameter.
  match goal with
  | |- bind ?m _ = _ -> _ =>
      assert (Hstored : forall stored subs expl,
                m = Ok (stored, subs, expl) -> str_or_none stored = true)
  end.
  { intros stored subs expl.
    destruct (is_non_empty_list_of_lists_with_same_type rval
              && negb (is_non_empty_list_of_lists_with_same_type rval
                       && all_simple_flat rval)).
    - destruct (extract_sub_components reserved _ _) as [[[pv subs1] expl1]|e];
        cbn [bind]; [|discriminate].
      destruct (json_dumps E _); cbn [bind]; [|discriminate]. now intros [= <- _ _].
    - destruct rval;
        try (destruct (negb (is_empty_sized _));
             [destruct (json_dumps E _); cbn [bind]; [|discriminate]|];
             now intros [= <- _ _]).
      destruct (json_dumps E _); cbn [bind]; [|discriminate]. now intros [= <- _ _]. }
  match goal with
  | |- bind ?m _ = _ -> _ => destruct m as [[[stored subs] expl]|e]; cbn [bind]
  end; [|discriminate].
  intros [= <-]. split; cbn [ex_parameters ex_parameters_meta_info].
  - apply (dict_set_Forall_items key_eqb (fun k => is_str k = true)
             (fun v => str_or_none v = true)); trivial.
    now apply (Hstored stored subs expl).
  - now apply (dict_set_Forall_items key_eqb (fun k => is_str k = true)
                 (fun m => m = no_meta_info)).
Qed.

Lemma extract_parameters_stored E reserved rvals : forall ex ex',
  stored_parameters ex ->
  extract_parameters E reserved rvals ex = Ok ex' -> stored_parameters ex'.
Proof.
  induction rvals as [|[k r] rvals IH]; intros ex ex' Hex; cbn [extract_parameters].
  - now intros [= <-].
  - destruct r as [rval|e]; cbn [bind]; [|discriminate].
    destruct (extract_parameter E reserved k rval ex) as [ex1|e] eqn:Hstep;
      cbn [bind]; [|discriminate].
    apply IH. eapply extract_parameter_stored; eassumption.
Qed.

Lemma stored_parameters_ok ps ms :
  Forall (fun c => is_str (fst c) = true /\ str_or_none (snd c) = true) ps ->
  Forall (fun c => is_str (fst c) = true /\ snd c = no_meta_info) ms ->
  forallb (param_strings_ok ps ms) (dict_keys ps) = true.
Proof.
  intros Hps Hms. apply forallb_forall. intros key Hkey.
  apply in_map_iff in Hkey. destruct Hkey as ([k v] & <- & Hin). cbn [fst].
  unfold param_strings_ok. rewrite !andb_true_iff. split; [split|].
  - rewrite List.Forall_forall in Hps. destruct (Hps _ Hin) as [Hk _].
    unfold str_or_none. cbn [fst] in Hk. rewrite Hk. apply orb_true_r.
  - destruct (dict_get key_eqb k ps) as [v'|] eqn:Hget; [|reflexivity].
    exact (dict_get_Forall key_eqb (fun k => is_str k = true)
             (fun v => str_or_none v = true) _ _ _ Hps Hget).
  - destruct (dict_get key_eqb k ms) as [m|] eqn:Hget; [|reflexivity].
    rewrite (dict_get_Forall key_eqb (fun k => is_str k = true)
               (fun m => m = no_meta_info) _ _ _ Hms Hget).
    reflexivity.
Qed.

(** A flow the constructor accepts, with parameters [_to_dict] accepts, at
    every level. *)
Definition has_document (f : flow) : Prop :=
  flow_constructed f = true /\ flow_params_ok f = true.

Lemma serialize_model_has_document E cls rvals f :
  _serialize_model E cls rvals = Ok f ->
  Forall (fun c => has_document (snd c)) (components f) -> has_document f.
Proof.
  intros Hf Hcs.
  destruct (serialize_model_init _ _ _ _ Hf)
    as (ex & nm & ev & tgs & deps & Hex & _ & Hinit).
  assert (Hstored : stored_parameters ex).
  { unfold _extract_information_from_model in Hex.
    eapply extract_parameters_stored; [|exact Hex]. split; constructor. }
  destruct Hstored as [Hps Hms].
  assert (Hc1 : forallb (fun c => flow_constructed (snd c)) (components f) = true).
  { apply forallb_forall. rewrite List.Forall_forall in Hcs.
    intros c Hc. now destruct (Hcs c Hc). }
  assert (Hc2 : forallb (fun c => flow_params_ok (snd c)) (components f) = true).
  { apply forallb_forall. rewrite List.Forall_forall in Hcs.
    intros c Hc. now destruct (Hcs c Hc). }
  pose proof (stored_parameters_ok _ _ Hps Hms) as Hok.
  revert Hinit. unfold OpenMLFlow_init.
  destruct (0 <? length (keys_difference _ _))%nat eqn:D1; [discriminate|].
  destruct (0 <? length (keys_difference (dict_keys (ex_parameters_meta_info ex)) _))%nat
    eqn:D2; [discriminate|].
  intros [= Heq]. apply length_pos_nil in D1, D2.
  rewrite <- Heq in Hc1, Hc2 |- *. cbn [components] in Hc1, Hc2.
  split.
  - cbn [flow_constructed name external_version parameters parameters_meta_info
         components is_none negb andb].
    rewrite D1, D2. cbn [length Nat.eqb andb]. exact Hc1.
  - cbn [flow_params_ok parameters parameters_meta_info components].
    rewrite Hok. exact Hc2.
Qed.

(** X5.  Every flow [model_to_flow] returns is one [_to_dict] turns into a
    document: the names of its parameters are strings, the values stored
    for them are strings or [None], and so at every level of its
    components. *)
Theorem flow_of_a_model_has_a_document :
  forall (E : runtime) (model : pyval) (f : flow),
  model_to_flow E model = Ok (VFlow f) ->
  flow_params_ok f = true /\ reconstruct f = Ok f /\
  exists d, _to_dict f = Ok (DDict [("oml:flow", DDict d)]).
Proof.
  intros E model f Hf.
  assert (Hdoc : has_document f).
  { exact (serialize_sklearn_satisfy E has_document (serialize_model_has_document E)
             model (VFlow f) Hf). }
  destruct Hdoc as [Hcons Hok].
  split; [exact Hok|]. split; [now apply reconstruct_constructed|].
  destruct (to_flow_dict_spec f Hcons) as [Hdict _]. specialize (Hdict Hok).
  unfold _to_dict. destruct (to_flow_dict f) as [d|e]; [|discriminate].
  now exists d.
Qed.

Lemma flow_of_a_model_has_a_document_witness :
  exists d, _to_dict (flow_of example_pipeline) = Ok (DDict [("oml:flow", DDict d)]).
Proof.
  destruct (flow_of_a_model_has_a_document Ref.env example_pipeline
              (flow_of example_pipeline)) as (_ & _ & Hd).
  - vm_compute. reflexivity.
  - exact Hd.
Defined.


(** ** The identifiers [get_flow_dict] collects *)

Lemma get_flow_dict_eq f :
  get_flow_dict f
  = fold_left (fun flow_map c => dict_update (get_flow_dict (snd c)) flow_map)
      (components f) {[ scalar_key (name f) := flow_id f ]}.
Proof. destruct f. reflexivity. Qed.

Lemma tree_names_cons f :
  tree_keys "name" f
  = scalar_key (name f) :: flat_map (fun c => tree_keys "name" (snd c)) (components f).
Proof. destruct f. reflexivity. Qed.

Lemma flow_dict_loop_keys (cs : list (string * flow)) :
  Forall (fun c => forall x, is_Some (get_flow_dict (snd c) !! x)
                             <-> In x (tree_keys "name" (snd c))) cs ->
  forall acc x,
  is_Some (fold_left (fun flow_map c => dict_update (get_flow_dict (snd c)) flow_map)
             cs acc !! x)
  <-> In x (flat_map (fun c => tree_keys "name" (snd c)) cs) \/ is_Some (acc !! x).
Proof.
  induction 1 as [|c cs Hc _ IH]; intros acc x; cbn [fold_left flat_map].
  - split; [now right | now intros [[] | H]].
  - rewrite IH. unfold dict_update. rewrite in_app_iff, <- Hc.
    rewrite lookup_union_is_Some. tauto.
Qed.

Lemma subflows_eq f :
  subflows f = f :: flat_map (fun c => subflows (snd c)) (components f).
Proof. destruct f. reflexivity. Qed.

Lemma subflows_names f :
  tree_keys "name" f = map (fun c => scalar_key (name c)) (subflows f).
Proof.
  induction f as [f IH] using flow_ind_components.
  rewrite tree_names_cons, subflows_eq. cbn [map]. f_equal.
  induction IH as [|c cs Hc _ IHcs]; [reflexivity|].
  cbn [flat_map]. now rewrite map_app, Hc, IHcs.
Qed.

Lemma subflow_at_subflows f : forall path c,
  subflow_at f path = Some c -> In c (subflows f).
Proof.
  induction f as [f IH] using flow_ind_components. intros [|k rest] c Hc.
  - injection Hc as <-. rewrite subflows_eq. now left.
  - destruct (subflow_at_cons f k rest c Hc) as (sub & Hin & Hsub).
    rewrite subflows_eq. right. apply in_flat_map. exists (k, sub).
    split; [exact Hin|]. rewrite List.Forall_forall in IH. exact (IH _ Hin rest c Hsub).
Qed.

Lemma flow_dict_loop_distinct (cs : list (string * flow)) :
  Forall (fun c => (forall x, is_Some (get_flow_dict (snd c) !! x)
                              <-> In x (tree_keys "name" (snd c))) /\
                   (NoDup (tree_keys "name" (snd c)) ->
                    forall s, In s (subflows (snd c)) ->
                      get_flow_dict (snd c) !! scalar_key (name s) = Some (flow_id s)))
         cs ->
  NoDup (flat_map (fun c => tree_keys "name" (snd c)) cs) ->
  forall acc,
  let m := fold_left (fun flow_map c => dict_update (get_flow_dict (snd c)) flow_map)
             cs acc in
  (forall x, ~ In x (flat_map (fun c => tree_keys "name" (snd c)) cs) ->
     m !! x = acc !! x) /\
  (forall c s, In c cs -> In s (subflows (snd c)) ->
     m !! scalar_key (name s) = Some (flow_id s)).
Proof.
  induction 1 as [|[k sub] cs [Hkeys Hsub] _ IH]; intros Hnd acc; cbn [fold_left flat_map].
  - split; [reflexivity | intros ? ? []].
  - cbn [flat_map] in Hnd. apply NoDup_app in Hnd. destruct Hnd as (Hnd1 & Hdisj & Hnd2).
    cbn [snd] in *.
    destruct (IH Hnd2 (dict_update (get_flow_dict sub) acc)) as [Hout Hreach].
    split.
    + intros x Hx. rewrite Hout by (intros Hc; apply Hx, in_or_app; now right).
      unfold dict_update. apply lookup_union_r.
      destruct (get_flow_dict sub !! x) eqn:Hget; [|reflexivity].
      exfalso. apply Hx, in_or_app. left. apply Hkeys. now rewrite Hget.
    + intros c s [<- | Hin] Hs.
      * cbn [snd] in Hs.
        assert (Hk : In (scalar_key (name s)) (tree_keys "name" sub)).
        { rewrite subflows_names. now apply (in_map (fun c => scalar_key (name c))). }
        rewrite Hout.
        -- unfold dict_update. apply lookup_union_Some_raw. left. now apply (Hsub Hnd1).
        -- intros Hc. apply (Hdisj (scalar_key (name s))); now apply list_elem_of_In.
      * eapply Hreach; eassumption.
Qed.

Lemma get_flow_dict_keys f :
  forall x, is_Some (get_flow_dict f !! x) <-> In x (tree_keys "name" f).
Proof.
  induction f as [f IH] using flow_ind_components. intros x.
  rewrite get_flow_dict_eq, tree_names_cons, (flow_dict_loop_keys _ IH).
  rewrite lookup_singleton_is_Some. cbn [In]. split; intros [H | H]; auto.
Qed.

Lemma get_flow_dict_distinct f :
  NoDup (tree_keys "name" f) ->
  forall s, In s (subflows f) ->
    get_flow_dict f !! scalar_key (name s) = Some (flow_id s).
Proof.
  induction f as [f IH] using flow_ind_components. intros Hnd.
  rewrite tree_names_cons in Hnd. apply NoDup_cons in Hnd. destruct Hnd as [Hroot Hnd].
  assert (Hall : Forall (fun c =>
            (forall x, is_Some (get_flow_dict (snd c) !! x)
                       <-> In x (tree_keys "name" (snd c))) /\
            (NoDup (tree_keys "name" (snd c)) ->
             forall s, In s (subflows (snd c)) ->
               get_flow_dict (snd c) !! scalar_key (name s) = Some (flow_id s)))
          (components f)).
  { rewrite List.Forall_forall in IH |- *. intros c Hc.
    split; [apply get_flow_dict_keys | now apply IH]. }
  destruct (flow_dict_loop_distinct _ Hall Hnd {[ scalar_key (name f) := flow_id f ]})
    as [Hout Hreach].
  rewrite get_flow_dict_eq, subflows_eq. intros s [<- | Hs].
  - rewrite Hout; [apply lookup_singleton_eq|].
    intros Hin. apply Hroot. now apply list_elem_of_In.
  - apply in_flat_map in Hs. destruct Hs as (c & Hc & Hs). eapply Hreach; eassumption.
Qed.

(** X6.  The keys of the map [get_flow_dict] returns are the names of the
    flow and of its components at every depth; when these names are
    pairwise distinct, the map sends the name of each of these flows to its
    own identifier on the server. *)
Theorem get_flow_dict_maps_names_to_ids :
  forall f : flow,
  (forall x, is_Some (get_flow_dict f !! x) <-> In x (tree_keys "name" f)) /\
  (NoDup (tree_keys "name" f) ->
   forall c, In c (subflows f) ->
     get_flow_dict f !! scalar_key (name c) = Some (flow_id c)).
Proof.
  intros f. split; [apply get_flow_dict_keys | apply get_flow_dict_distinct].
Qed.

Lemma get_flow_dict_maps_names_to_ids_witness :
  get_flow_dict example_A_published !! SStr "C" = Some (SInt 12).
Proof.
  apply (proj2 (get_flow_dict_maps_names_to_ids example_A_published)
           (ltac:(apply (bool_decide_unpack _); vm_compute; exact I))
           (bare_flow (SStr "C") (SInt 12) [])).
  right. right. now left.
Defined.


(** ** The seeds [seed_model] assigns *)

Lemma str_insert_In x y l : In x (str_insert y l) <-> x = y \/ In x l.
Proof.
  induction l as [|z l IH]; simpl.
  - intuition.
  - destruct (String.leb y z); simpl; [intuition|]. rewrite IH. intuition.
Qed.

Lemma str_sorted_In_iff x l : In x (str_sorted l) <-> In x l.
Proof.
  induction l as [|y l IH]; simpl; [reflexivity|].
  rewrite str_insert_In, IH. intuition.
Qed.

Lemma str_insert_NoDup y l :
  ~ In y l -> List.NoDup l -> List.NoDup (str_insert y l).
Proof.
  intros Hy Hl. induction Hl as [|z l Hz Hl IH]; simpl.
  - constructor; [intros [] | constructor].
  - destruct (String.leb y z).
    + constructor; [exact Hy | now constructor].
    + constructor.
      * rewrite str_insert_In. intros [-> | H]; [apply Hy; now left | contradiction].
      * apply IH. intros H. apply Hy. now right.
Qed.

Lemma str_sorted_NoDup l : List.NoDup l -> List.NoDup (str_sorted l).
Proof.
  induction 1 as [|y l Hy Hl IH]; simpl; [constructor|].
  apply str_insert_NoDup; [|exact IH]. now rewrite str_sorted_In_iff.
Qed.

Lemma dict_get_set_same {A : Type} k (v : A) (d : list (string * A)) :
  dict_get String.eqb k (dict_set String.eqb k v d) = Some v.
Proof.
  induction d as [|[k' x] d IH]; simpl; [now rewrite String.eqb_refl|].
  destruct (String.eqb k' k) eqn:E; simpl; rewrite E; [reflexivity | exact IH].
Qed.

Lemma dict_get_keys {A : Type} k (d : list (string * A)) :
  In k (dict_keys d) -> is_Some (dict_get String.eqb k d).
Proof.
  induction d as [|[k' x] d IH]; simpl; [intros []|].
  destruct (String.eqb k' k) eqn:E; [eauto|].
  intros [-> | H]; [|now apply IH]. rewrite String.eqb_refl in E. discriminate.
Qed.

Section Seeds.
Variable random_state_class : string -> bool.
Variable rs : nat -> Z.
Variable model_params : list (string * pyval).

Let slots (names : list string) : list string :=
List.filter (draws_seed model_params) names.

(** The entry the loop leaves for a parameter it draws the [k]th number
for. *)
Let seeded_at (st : seeding) (k : nat) (param_name : string) : Prop :=
dict_get String.eqb param_name
(if str_contains "random_state" param_name
then random_states st else splitter_seeds st)
= match seeded_value model_params param_name with
| Some VNone => Some (VInt (rs k))
| _ => None
end.

Let untouched (st st' : seeding) (param_name : string) : Prop :=
dict_get String.eqb param_name (random_states st')
= dict_get String.eqb param_name (random_states st) /\
dict_get String.eqb param_name (splitter_seeds st')
= dict_get String.eqb param_name (splitter_seeds st).

Lemma seed_current_object_seedable v :
seedable (Some v) = true ->
_seed_current_object random_state_class v
= Ok (match v with VNone => true | _ => false end).
Proof. destruct v; try discriminate; reflexivity. Qed.

Lemma seed_current_object_refused v :
seedable (Some v) = false ->
exists msg, _seed_current_object random_state_class v = Raise (ValueError msg).
Proof.
destruct v; try discriminate; intros _; cbn [_seed_current_object]; eauto.
destruct (random_state_class cls); eauto.
Qed.

Lemma seed_parameters_seeds names : forall st,
List.NoDup names ->
(forall n, In n names -> is_Some (dict_get String.eqb n model_params)) ->
(forall n, In n (slots names) -> seedable (seeded_value model_params n) = true) ->
(forall n, In n names ->
dict_get String.eqb n (random_states st) = None /\
dict_get String.eqb n (splitter_seeds st) = None) ->
exists st',
seed_parameters random_state_class rs names model_params st = Ok st' /\
drawn st' = (drawn st + length (slots names))%nat /\
(forall k n, nth_error (slots names) k = Some n -> seeded_at st' (drawn st + k) n) /\
(forall n, ~ In n names -> untouched st st' n).
Proof.
induction names as [|name names IH]; intros st Hnd Hkeys Hseedable Hfresh.
- exists st. split; [reflexivity|]. split; [cbn; lia|]. split.
+ intros [|k] n; discriminate.
+ intros n _. split; reflexivity.
- inversion Hnd as [|? ? Hname Hnd']; subst.
destruct (Hkeys name (or_introl eq_refl)) as [value Hvalue].
assert (Hne : forall n, In n names -> name <> n).
{ intros n Hn <-. contradiction. }
assert (Hkeys' : forall n, In n names -> is_Some (dict_get String.eqb n model_params)).
{ intros n Hn. apply Hkeys. now right. }
destruct (Hfresh name (or_introl eq_refl)) as [Hfresh1 Hfresh2].
(* the rounds after this one, from the state [st1] it leaves *)
assert (Hskip : draws_seed model_params name = false ->
seed_parameters random_state_class rs (name :: names) model_params st
= seed_parameters random_state_class rs names model_params st ->
exists st',
  seed_parameters random_state_class rs (name :: names) model_params st = Ok st' /\
  drawn st' = (drawn st + length (slots (name :: names)))%nat /\
  (forall k n, nth_error (slots (name :: names)) k = Some n ->
               seeded_at st' (drawn st + k) n) /\
  (forall n, ~ In n (name :: names) -> untouched st st' n)).
{ intros Hdraw Hstep. unfold slots in *. cbn [List.filter] in *.
rewrite Hdraw in *. rewrite Hstep.
destruct (IH st Hnd' Hkeys' Hseedable) as (st' & Hrun & Hdrawn & Hseeded & Houtside).
{ intros n Hn. apply Hfresh. now right. }
exists st'. split; [exact Hrun|]. split; [exact Hdrawn|]. split; [exact Hseeded|].
intros n Hn. apply Houtside. intros H. apply Hn. now right. }
assert (Hdrawn1 : forall current seeds1 seeds2,
draws_seed model_params name = true ->
seeded_value model_params name = Some current ->
(let seed := match current with VNone => true | _ => false end in
 (seeds1, seeds2) =
 if str_contains "random_state" name
 then (if seed then dict_set String.eqb name (VInt (rs (drawn st))) (random_states st)
       else random_states st, splitter_seeds st)
 else (random_states st,
       if seed then dict_set String.eqb name (VInt (rs (drawn st))) (splitter_seeds st)
       else splitter_seeds st)) ->
seed_parameters random_state_class rs (name :: names) model_params st
= (let* seed := _seed_current_object random_state_class current in
   seed_parameters random_state_class rs names model_params
     (Seeding (S (drawn st))
        (if str_contains "random_state" name
         then (if seed then dict_set String.eqb name (VInt (rs (drawn st)))
                              (random_states st)
               else random_states st)
         else random_states st)
        (if str_contains "random_state" name
         then splitter_seeds st
         else (if seed then dict_set String.eqb name (VInt (rs (drawn st)))
                              (splitter_seeds st)
               else splitter_seeds st)))) ->
exists st',
  seed_parameters random_state_class rs (name :: names) model_params st = Ok st' /\
  drawn st' = (drawn st + length (slots (name :: names)))%nat /\
  (forall k n, nth_error (slots (name :: names)) k = Some n ->
               seeded_at st' (drawn st + k) n) /\
  (forall n, ~ In n (name :: names) -> untouched st st' n)).
{ intros current seeds1 seeds2 Hdraw Hcurrent Hseeds Hstep.
unfold slots in *. cbn [List.filter] in *. rewrite Hdraw in *.
assert (Hok : seedable (Some current) = true).
{ rewrite <- Hcurrent. apply Hseedable. now left. }
rewrite Hstep, (seed_current_object_seedable _ Hok). cbn [bind].
cbv zeta in Hseeds.
match goal with
| |- exists st', seed_parameters _ _ _ _ ?s = _ /\ _ => set (st1 := s)
end.
assert (Hst1 : random_states st1 = seeds1 /\ splitter_seeds st1 = seeds2).
{ subst st1. cbn [random_states splitter_seeds].
  destruct (str_contains "random_state" name); injection Hseeds as -> ->;
    now split. }
destruct Hst1 as [Hst1 Hst2].
assert (Hother : forall n, name <> n -> untouched st st1 n).
{ intros n Hn. unfold untouched. rewrite Hst1, Hst2.
  destruct (str_contains "random_state" name),
           (match current with VNone => true | _ => false end);
    injection Hseeds as -> ->; split; trivial; now apply dict_get_set_neq. }
destruct (IH st1 Hnd' Hkeys') as (st' & Hrun & Hdrawn & Hseeded & Houtside).
{ intros n Hn. apply Hseedable. now right. }
{ intros n Hn. destruct (Hother n (Hne n Hn)) as [H1 H2].
  destruct (Hfresh n (or_intror Hn)) as [H3 H4]. split; congruence. }
exists st'. split; [exact Hrun|].
split; [rewrite Hdrawn; subst st1; cbn [drawn length]; lia|].
split.
- intros [|k] n.
  + intros [= <-]. unfold seeded_at. rewrite Hcurrent, Nat.add_0_r.
    destruct (Houtside name Hname) as [H1 H2].
    destruct (str_contains "random_state" name).
    * rewrite H1, Hst1. injection Hseeds as -> _.
      destruct current; try discriminate; trivial. apply dict_get_set_same.
    * rewrite H2, Hst2. injection Hseeds as _ ->.
      destruct current; try discriminate; trivial. apply dict_get_set_same.
  + cbn [nth_error]. intros Hn. specialize (Hseeded k n Hn).
    subst st1. cbn [drawn] in Hseeded.
    replace (drawn st + S k)%nat with (S (drawn st) + k)%nat by lia.
    exact Hseeded.
- intros n Hn. destruct (Houtside n) as [H1 H2]; [intros H; apply Hn; now right|].
  destruct (Hother n) as [H3 H4]; [intros <-; apply Hn; now left|].
  split; congruence. }
cbn [seed_parameters] in Hskip, Hdrawn1 |- *. rewrite Hvalue in Hskip, Hdrawn1 |- *.
unfold draws_seed, seeded_value in Hskip, Hdrawn1. rewrite Hvalue in Hskip, Hdrawn1.
destruct (str_contains "random_state" name) eqn:Hcontains.
+ eapply (Hdrawn1 value); reflexivity.
+ cbn [orb] in Hskip, Hdrawn1.
destruct value as [| | | | | | | | | | |cls attrs| | |];
  try (apply Hskip; reflexivity).
unfold dict_in in Hskip, Hdrawn1.
destruct (dict_get String.eqb "random_state" attrs) as [current|] eqn:Hattr.
* eapply (Hdrawn1 current); reflexivity.
* apply Hskip; reflexivity.
Qed.
End Seeds.

Lemma seed_parameters_refused random_state_class rs model_params names : forall st,
  (forall n, In n names -> is_Some (dict_get String.eqb n model_params)) ->
  (exists n, In n (List.filter (draws_seed model_params) names) /\
             seedable (seeded_value model_params n) = false) ->
  exists msg,
    seed_parameters random_state_class rs names model_params st = Raise (ValueError msg).
Proof.
  induction names as [|name names IH]; intros st Hkeys (n & Hn & Hbad);
    [destruct Hn|].
  assert (Hkeys' : forall n, In n names -> is_Some (dict_get String.eqb n model_params)).
  { intros n' Hn'. apply Hkeys. now right. }
  destruct (Hkeys name (or_introl eq_refl)) as [value Hvalue].
  cbn [List.filter] in Hn.
  assert (Hlater : name <> n \/ draws_seed model_params name = false ->
                   exists n, In n (List.filter (draws_seed model_params) names) /\
                             seedable (seeded_value model_params n) = false).
  { intros Hcase. exists n. split; [|exact Hbad].
    destruct (draws_seed model_params name) eqn:Hdraw; [|exact Hn].
    destruct Hn as [-> | Hn]; [|exact Hn]. destruct Hcase; [contradiction | discriminate]. }
  assert (Hround : forall current,
            seeded_value model_params name = Some current ->
            draws_seed model_params name = true ->
            forall k : bool -> result seeding,
            (forall seed, exists msg,
               seedable (Some current) = true -> k seed = Raise (ValueError msg)) ->
            exists msg,
              (let* seed := _seed_current_object random_state_class current in k seed)
              = Raise (ValueError msg)).
  { intros current Hcurrent Hdraw k Hk.
    destruct (seedable (Some current)) eqn:Hok.
    - rewrite (seed_current_object_seedable _ _ Hok). cbn [bind].
      destruct (Hk (match current with VNone => true | _ => false end)) as [msg Hmsg].
      exists msg. now apply Hmsg.
    - destruct (seed_current_object_refused random_state_class _ Hok) as [msg ->].
      now exists msg. }
  cbn [seed_parameters]. rewrite Hvalue.
  unfold draws_seed, seeded_value in Hlater, Hround. rewrite Hvalue in Hlater, Hround.
  destruct (str_contains "random_state" name) eqn:Hcontains.
  - apply (Hround value eq_refl eq_refl). intros seed.
    destruct (seedable (Some value)) eqn:Hok.
    + destruct (IH (Seeding (S (drawn st))
                     (if seed
                      then dict_set String.eqb name (VInt (rs (drawn st))) (random_states st)
                      else random_states st) (splitter_seeds st)) Hkeys') as [msg Hmsg].
      { apply Hlater. left. intros <-. unfold seeded_value in Hbad.
        rewrite Hcontains, Hvalue in Hbad. congruence. }
      now exists msg.
    + exists "". discriminate.
  - cbn [orb] in Hlater, Hround.
    destruct value as [| | | | | | | | | | |cls attrs| | |];
      try (apply IH; [exact Hkeys' | apply Hlater; now right]).
    unfold dict_in in Hlater, Hround.
    destruct (dict_get String.eqb "random_state" attrs) as [current|] eqn:Hattr.
    + apply (Hround current eq_refl eq_refl). intros seed.
      destruct (seedable (Some current)) eqn:Hok.
      * destruct (IH (Seeding (S (drawn st)) (random_states st)
                       (if seed
                        then dict_set String.eqb name (VInt (rs (drawn st)))
                               (splitter_seeds st)
                        else splitter_seeds st)) Hkeys') as [msg Hmsg].
        { apply Hlater. left. intros <-. unfold seeded_value in Hbad.
          rewrite Hcontains, Hvalue, Hattr in Hbad. congruence. }
        now exists msg.
      * exists "". discriminate.
    + apply IH; [exact Hkeys' | apply Hlater; now right].
Qed.

(** X7.  When every value [seed_model] looks at for a seed is [None] or an
    integer, the call draws one number for each parameter that has
    [random_state] in its name or holds a splitter with that attribute, in
    the sorted order of the names and whether the number is used or not: a
    parameter that is [None] is given the number of its place among them,
    whatever the others hold, and one that is an integer is left as it
    is. *)
Theorem seed_model_seeds_by_position :
  forall (E : runtime) (random_state_class : string -> bool)
         (RandomState : option Z -> nat -> Z) (model : pyval) (seed : option Z),
  let model_params := get_params_deep E model in
  let slots :=
    List.filter (draws_seed model_params) (str_sorted (dict_keys model_params)) in
  List.NoDup (dict_keys model_params) ->
  (forall n, In n slots -> seedable (seeded_value model_params n) = true) ->
  exists st,
    seed_model E random_state_class RandomState model seed = Ok st /\
    drawn st = length slots /\
    forall k n, nth_error slots k = Some n ->
      dict_get String.eqb n
        (if str_contains "random_state" n then random_states st else splitter_seeds st)
      = match seeded_value model_params n with
        | Some VNone => Some (VInt (RandomState seed k))
        | _ => None
        end.
Proof.
  intros E random_state_class RandomState model seed model_params slots Hnd Hseedable.
  destruct (seed_parameters_seeds random_state_class (RandomState seed) model_params
              (str_sorted (dict_keys model_params)) (Seeding 0 [] []))
    as (st & Hrun & Hdrawn & Hseeded & _).
  - now apply str_sorted_NoDup.
  - intros n Hn. apply dict_get_keys. now apply str_sorted_In_iff.
  - exact Hseedable.
  - intros n _. split; reflexivity.
  - exists st. split; [exact Hrun|]. split; [exact Hdrawn|]. exact Hseeded.
Qed.

Lemma seed_model_seeds_by_position_witness :
  exists st,
    seed_model Ref.env (String.eqb "numpy.random.mtrand.RandomState") example_generator
      example_unseeded (Some 42) = Ok st /\
    dict_get String.eqb "base_estimator__random_state" (random_states st)
      = Some (VInt 42) /\
    dict_get String.eqb "cv" (splitter_seeds st) = Some (VInt 43).
Proof.
  destruct (seed_model_seeds_by_position Ref.env
              (String.eqb "numpy.random.mtrand.RandomState") example_generator
              example_unseeded (Some 42)) as (st & Hrun & _ & Hseeded).
  - vm_compute. repeat (constructor; [simpl; intuition discriminate|]). constructor.
  - vm_compute. intros n [<- | [<- | []]]; reflexivity.
  - exists st. split; [exact Hrun|]. split.
    + exact (Hseeded 0%nat "base_estimator__random_state" eq_refl).
    + exact (Hseeded 1%nat "cv" eq_refl).
Defined.

(** X8.  When a value [seed_model] looks at for a seed is neither [None]
    nor an integer, a generator of numpy or a numpy integer for instance,
    the call raises a ValueError. *)
Theorem seed_model_refuses_other_seeds :
  forall (E : runtime) (random_state_class : string -> bool)
         (RandomState : option Z -> nat -> Z) (model : pyval) (seed : option Z),
  let model_params := get_params_deep E model in
  let slots :=
    List.filter (draws_seed model_params) (str_sorted (dict_keys model_params)) in
  (exists n, In n slots /\ seedable (seeded_value model_params n) = false) ->
  exists msg,
    seed_model E random_state_class RandomState model seed = Raise (ValueError msg).
Proof.
  intros E random_state_class RandomState model seed model_params slots Hbad.
  apply seed_parameters_refused; [|exact Hbad].
  intros n Hn. apply dict_get_keys. now apply str_sorted_In_iff.
Qed.

Lemma seed_model_refuses_other_seeds_witness :
  exists msg,
    seed_model Ref.env (String.eqb "numpy.random.mtrand.RandomState") example_generator
      example_generator_seed None = Raise (ValueError msg).
Proof.
  apply seed_model_refuses_other_seeds.
  exists "base_estimator__random_state". split; [|reflexivity].
  vm_compute. now left.
Defined.


(** ** The probabilities of a fold *)

Section ProbabilityFacts.
Variable float : Type.
Variables zero one : float.

(** Every column has as many numbers as the array has rows. *)
Definition shaped (a : matrix float) : Prop :=
Forall (fun column => length column = shape0 a) (columns a).

Lemma axis_index_in_range n i :
(- Z.of_nat n <= i < Z.of_nat n)%Z ->
axis_index n i = Ok (Z.to_nat (i mod Z.of_nat n)) /\
(Z.to_nat (i mod Z.of_nat n) < n)%nat.
Proof.
intros Hi. unfold axis_index.
assert (Hlt : (Z.to_nat (i mod Z.of_nat n) < n)%nat).
{ assert (0 <= i mod Z.of_nat n < Z.of_nat n)%Z by (apply Z.mod_pos_bound; lia). lia. }
split; [|exact Hlt].
destruct (0 <=? i)%Z eqn:H0.
- apply Z.leb_le in H0.
assert (H1 : (i <? Z.of_nat n)%Z = true) by (apply Z.ltb_lt; lia).
rewrite H1. cbn [andb]. now rewrite Z.mod_small by lia.
- apply Z.leb_gt in H0. cbn [andb].
assert (H1 : (- Z.of_nat n <=? i)%Z = true) by (apply Z.leb_le; lia).
assert (H2 : (i <? 0)%Z = true) by (apply Z.ltb_lt; lia).
rewrite H1, H2. cbn [andb]. do 2 f_equal.
apply (Z.mod_unique i (Z.of_nat n) (-1)); [left|]; lia.
Qed.

Lemma axis_index_out_of_range n i :
~ (- Z.of_nat n <= i < Z.of_nat n)%Z ->
axis_index n i = Raise (IndexError "index is out of bounds for axis").
Proof.
intros Hi. unfold axis_index.
destruct (0 <=? i)%Z eqn:H0, (i <? Z.of_nat n)%Z eqn:H1,
     (- Z.of_nat n <=? i)%Z eqn:H2, (i <? 0)%Z eqn:H3; cbn [andb]; try reflexivity;
exfalso; apply Hi;
repeat match goal with
     | H : (_ <=? _)%Z = true |- _ => apply Z.leb_le in H
     | H : (_ <=? _)%Z = false |- _ => apply Z.leb_gt in H
     | H : (_ <? _)%Z = true |- _ => apply Z.ltb_lt in H
     | H : (_ <? _)%Z = false |- _ => apply Z.ltb_ge in H
     end; lia.
Qed.

Lemma entry_zeros n m i j :
(i < n)%nat -> (j < m)%nat -> entry (zeros float zero n m) i j = Some zero.
Proof.
intros Hi Hj. unfold entry, zeros. cbn [columns].
rewrite lookup_replicate_2 by exact Hj. now apply lookup_replicate_2.
Qed.

Lemma shaped_zeros n m : shaped (zeros float zero n m).
Proof.
unfold shaped, zeros. cbn [columns shape0].
apply Forall_replicate. apply length_replicate.
Qed.

Lemma entry_set_entry a i j v i' j' :
shaped a -> (i < shape0 a)%nat -> (j < shape1 a)%nat ->
entry (set_entry float a i j v) i' j'
= if decide (i = i' /\ j = j') then Some v else entry a i' j'.
Proof.
intros Hshaped Hi Hj. unfold entry, set_entry. cbn [columns].
rewrite list_lookup_alter.
destruct (decide (j = j')) as [<- | Hne].
- destruct (lookup_lt_is_Some_2 (columns a) j Hj) as [column Hcolumn].
rewrite Hcolumn. cbn [fmap option_fmap option_map].
assert (Hlen : length column = shape0 a).
{ unfold shaped in Hshaped. rewrite List.Forall_forall in Hshaped.
apply Hshaped. eapply list_elem_of_lookup_2 in Hcolumn.
now apply list_elem_of_In. }
rewrite list_lookup_insert.
destruct (decide (i = i')) as [<- | Hne].
+ rewrite decide_True by (split; [reflexivity | lia]).
now rewrite decide_True by (split; reflexivity).
+ rewrite decide_False by (intros [? _]; contradiction).
now rewrite decide_False by (intros [? _]; contradiction).
- now rewrite decide_False by (intros [_ ?]; contradiction).
Qed.

Lemma shaped_set_entry a i j v : shaped a -> shaped (set_entry float a i j v).
Proof.
unfold shaped, set_entry. cbn [columns shape0]. intros Hshaped.
apply Forall_alter; [exact Hshaped|].
intros column _ Hlen. now rewrite length_insert.
Qed.

Lemma mark_predictions_marks y : forall a obs,
shaped a -> (obs + length y <= shape0 a)%nat ->
(forall idx, In idx y -> (- Z.of_nat (shape1 a) <= idx < Z.of_nat (shape1 a))%Z) ->
exists r,
mark_predictions float one a obs y = Ok r /\
shape0 r = shape0 a /\ shape1 r = shape1 a /\
(forall i j, (i < obs)%nat -> entry r i j = entry a i j) /\
(forall k idx j, y !! k = Some idx -> (j < shape1 a)%nat ->
 entry r (obs + k) j
 = if decide (Z.of_nat j = (idx mod Z.of_nat (shape1 a))%Z) then Some one
   else entry a (obs + k)%nat j).
Proof.
induction y as [|idx y IH]; intros a obs Hshaped Hrows Hrange.
- exists a. repeat split; trivial. intros k idx j Hk. discriminate.
- cbn [mark_predictions length] in *.
destruct (axis_index_in_range (shape1 a) idx (Hrange idx (or_introl eq_refl)))
as [-> Hj].
cbn [bind]. set (j0 := Z.to_nat (idx mod Z.of_nat (shape1 a))) in *.
assert (Hshape1 : shape1 (set_entry float a obs j0 one) = shape1 a).
{ unfold shape1, set_entry. cbn [columns]. apply length_alter. }
destruct (IH (set_entry float a obs j0 one) (S obs)) as (r & Hrun & Hr0 & Hr1 & Hlow & Hmarked).
{ now apply shaped_set_entry. }
{ cbn [set_entry shape0]. lia. }
{ intros idx' Hidx'. rewrite Hshape1. apply Hrange. now right. }
exists r. split; [exact Hrun|]. split; [exact Hr0|].
split; [now rewrite Hr1|]. split.
+ intros i j Hi. rewrite Hlow by lia.
rewrite entry_set_entry by (trivial; lia).
now rewrite decide_False by (intros [? _]; lia).
+ intros [|k] idx' j Hk Hjlt.
* injection Hk as <-. rewrite Nat.add_0_r, Hlow by lia.
  rewrite entry_set_entry by (trivial; lia).
  destruct (decide (Z.of_nat j = (idx mod Z.of_nat (shape1 a))%Z)) as [Heq | Hne].
  -- rewrite decide_True; [reflexivity|]. split; [reflexivity | subst j0; lia].
  -- rewrite decide_False; [reflexivity|]. intros [_ Heq]. apply Hne. subst j0 j.
     assert (0 <= idx mod Z.of_nat (shape1 a))%Z; [|lia].
     apply Z.mod_pos_bound. lia.
* cbn [lookup list_lookup] in Hk.
  replace (obs + S k)%nat with (S obs + k)%nat by lia.
  rewrite (Hmarked k idx' j Hk) by now rewrite Hshape1.
  rewrite Hshape1. destruct (decide _); [reflexivity|].
  rewrite entry_set_entry by (trivial; lia).
  now rewrite decide_False by (intros [? _]; lia).
Qed.

Lemma mark_predictions_refuses y : forall a obs,
(exists idx, In idx y /\
~ (- Z.of_nat (shape1 a) <= idx < Z.of_nat (shape1 a))%Z) ->
mark_predictions float one a obs y
= Raise (IndexError "index is out of bounds for axis").
Proof.
induction y as [|idx y IH]; intros a obs (bad & Hin & Hbad); [destruct Hin|].
cbn [mark_predictions].
destruct (Z_le_dec (- Z.of_nat (shape1 a)) idx) as [H1|H1];
[destruct (Z_lt_dec idx (Z.of_nat (shape1 a))) as [H2|H2]|].
- destruct (axis_index_in_range (shape1 a) idx (conj H1 H2)) as [-> _]. cbn [bind].
apply IH. exists bad. split.
+ destruct Hin as [-> | Hin]; [exfalso; apply Hbad; now split | exact Hin].
+ unfold shape1, set_entry. cbn [columns]. now rewrite length_alter.
- now rewrite axis_index_out_of_range by lia.
- now rewrite axis_index_out_of_range by lia.
Qed.
End ProbabilityFacts.

(** X9.  For predictions that are indices into the list of classes,
    counted from its start or, when negative, from its end,
    [_prediction_to_probabilities] returns an array with one row for each
    prediction and one column for each class that holds [1.0] at the class
    predicted and [0.0] elsewhere; the shape is the one
    [_run_model_on_fold] expects, whatever classes the model has seen, so
    that no column is remapped; for a prediction that is no such index the
    call raises an IndexError. *)
Theorem prediction_to_probabilities_is_one_hot :
  forall (float : Type) (zero one : float) (A : Type) (y : list Z) (classes : list A),
  let n := Z.of_nat (length classes) in
  ((forall idx, In idx y -> (- n <= idx < n)%Z) ->
   exists r,
     _prediction_to_probabilities float zero one y classes = Ok r /\
     shape0 r = length y /\ shape1 r = length classes /\
     (forall obs idx j, y !! obs = Some idx -> (j < length classes)%nat ->
        entry r obs j
        = Some (if decide (Z.of_nat j = (idx mod n)%Z) then one else zero)) /\
     (forall model_classes,
        remap_probabilities float zero r classes model_classes = Ok r)) /\
  ((exists idx, In idx y /\ ~ (- n <= idx < n)%Z) ->
   _prediction_to_probabilities float zero one y classes
   = Raise (IndexError "index is out of bounds for axis")).
Proof.
  intros float zero one A y classes n. subst n.
  assert (Hshape1 : shape1 (zeros float zero (length y) (length classes))
                    = length classes).
  { unfold shape1, zeros. cbn [columns]. apply length_replicate. }
  unfold _prediction_to_probabilities. split.
  - intros Hrange.
    destruct (mark_predictions_marks float one y
                (zeros float zero (length y) (length classes)) 0)
      as (r & Hrun & Hr0 & Hr1 & _ & Hmarked).
    + apply shaped_zeros.
    + cbn [zeros shape0]. lia.
    + intros idx Hidx. rewrite Hshape1. now apply Hrange.
    + exists r. split; [exact Hrun|]. split; [exact Hr0|].
      split; [now rewrite Hr1|]. split.
      * intros obs idx j Hobs Hj.
        rewrite <- (Nat.add_0_l obs) at 1.
        rewrite (Hmarked obs idx j Hobs) by now rewrite Hshape1.
        rewrite Hshape1. destruct (decide _); [reflexivity|].
        apply entry_zeros; [|exact Hj].
        apply lookup_lt_Some in Hobs. lia.
      * intros model_classes. unfold remap_probabilities.
        rewrite Hr1, Hshape1, Nat.eqb_refl. reflexivity.
  - intros Hbad. apply mark_predictions_refuses. now rewrite Hshape1.
Qed.

Lemma prediction_to_probabilities_is_one_hot_witness :
  exists r,
    _prediction_to_probabilities Z 0%Z 1%Z [2%Z; 0%Z; (-1)%Z] ["a"; "b"; "c"] = Ok r /\
    entry r 2 2 = Some 1%Z /\ entry r 2 0 = Some 0%Z.
Proof.
  destruct (prediction_to_probabilities_is_one_hot Z 0%Z 1%Z string
              [2%Z; 0%Z; (-1)%Z] ["a"; "b"; "c"]) as [Hmarks _].
  destruct Hmarks as (r & Hrun & _ & _ & Hentries & _).
  - intros idx [<- | [<- | [<- | []]]]; simpl; lia.
  - exists r. split; [exact Hrun|]. split.
    + exact (Hentries 2%nat (-1)%Z 2%nat eq_refl ltac:(simpl; lia)).
    + exact (Hentries 2%nat (-1)%Z 0%nat eq_refl ltac:(simpl; lia)).
Defined.

Section RemapFacts.
Variable float : Type.
Variable zero : float.

Lemma remap_columns_places model_classes : forall (proba_y new : matrix float) idx,
(idx + length model_classes <= shape1 proba_y)%nat ->
(forall c, In c model_classes -> (0 <= c < Z.of_nat (shape1 new))%Z) ->
List.NoDup model_classes ->
exists r,
remap_columns float proba_y new idx model_classes = Ok r /\
shape0 r = shape0 new /\ shape1 r = shape1 new /\
(forall k c, model_classes !! k = Some c ->
 columns r !! Z.to_nat c = columns proba_y !! (idx + k)%nat) /\
(forall j, ~ In (Z.of_nat j) model_classes -> columns r !! j = columns new !! j).
Proof.
induction model_classes as [|c model_classes IH]; intros proba_y new idx Hcols Hrange Hnd.
- exists new. repeat split; trivial. intros k c Hk. discriminate.
- cbn [remap_columns length] in *.
destruct (lookup_lt_is_Some_2 (columns proba_y) idx) as [column Hcolumn];
[unfold shape1 in Hcols; lia|].
rewrite Hcolumn.
assert (Hc : (0 <= c < Z.of_nat (shape1 new))%Z) by (apply Hrange; now left).
destruct (axis_index_in_range (shape1 new) c) as [-> Hj]; [lia|].
rewrite Z.mod_small in * by lia. cbn [bind].
inversion Hnd as [|? ? Hfresh Hnd']; subst.
assert (Hshape1 : shape1 (Matrix (shape0 new) (<[Z.to_nat c := column]> (columns new)))
                = shape1 new).
{ unfold shape1. cbn [columns]. apply length_insert. }
destruct (IH proba_y (Matrix (shape0 new) (<[Z.to_nat c := column]> (columns new)))
          (S idx)) as (r & Hrun & Hr0 & Hr1 & Hplaced & Hothers).
{ lia. }
{ intros c' Hc'. rewrite Hshape1. apply Hrange. now right. }
{ exact Hnd'. }
exists r. split; [exact Hrun|]. split; [exact Hr0|]. split; [now rewrite Hr1|].
split.
+ intros [|k] c' Hk.
* injection Hk as <-. rewrite Nat.add_0_r, Hcolumn.
  rewrite <- (Z2Nat.id c) in Hfresh by lia.
  rewrite (Hothers _ Hfresh). cbn [columns].
  apply list_lookup_insert_eq. exact Hj.
* cbn [lookup list_lookup] in Hk.
  replace (idx + S k)%nat with (S idx + k)%nat by lia. now apply Hplaced.
+ intros j Hj'. rewrite Hothers by (intros H; apply Hj'; now right).
cbn [columns]. apply list_lookup_insert_ne.
intros <-. apply Hj'. left. lia.
Qed.

Lemma remap_columns_refuses model_classes : forall (proba_y new : matrix float) idx,
(idx + length model_classes <= shape1 proba_y)%nat ->
(exists c, In c model_classes /\
~ (- Z.of_nat (shape1 new) <= c < Z.of_nat (shape1 new))%Z) ->
remap_columns float proba_y new idx model_classes
= Raise (IndexError "index is out of bounds for axis").
Proof.
induction model_classes as [|c model_classes IH]; intros proba_y new idx Hcols
(bad & Hin & Hbad); [destruct Hin|].
cbn [remap_columns length] in *.
destruct (lookup_lt_is_Some_2 (columns proba_y) idx) as [column Hcolumn];
[unfold shape1 in Hcols; lia|].
rewrite Hcolumn.
destruct (Z_le_dec (- Z.of_nat (shape1 new)) c) as [H1|H1];
[destruct (Z_lt_dec c (Z.of_nat (shape1 new))) as [H2|H2]|].
- destruct (axis_index_in_range (shape1 new) c (conj H1 H2)) as [-> _]. cbn [bind].
apply IH; [lia|]. exists bad. split.
+ destruct Hin as [-> | Hin]; [exfalso; apply Hbad; now split | exact Hin].
+ unfold shape1. cbn [columns]. now rewrite length_insert.
- now rewrite axis_index_out_of_range by lia.
- now rewrite axis_index_out_of_range by lia.
Qed.
End RemapFacts.

(** X10.  When the model predicts probabilities for fewer or more columns
    than the task has labels, and the classes it has seen are distinct
    indices into the labels, [_run_model_on_fold] returns an array with one
    column for each label of the task: the column of a class the model has
    seen holds the probabilities predicted for it, the column of any other
    label holds [0.0] for every row.  A class that is no index into the
    labels ends the call in an IndexError. *)
Theorem remap_probabilities_places_columns :
  forall (float : Type) (zero : float) (A : Type) (proba_y : matrix float)
         (class_labels : list A) (model_classes : list Z),
  shape1 proba_y <> length class_labels ->
  (length model_classes <= shape1 proba_y)%nat ->
  (List.NoDup model_classes ->
   (forall c, In c model_classes -> (0 <= c < Z.of_nat (length class_labels))%Z) ->
   exists r,
     remap_probabilities float zero proba_y class_labels model_classes = Ok r /\
     shape0 r = shape0 proba_y /\ shape1 r = length class_labels /\
     (forall idx c, model_classes !! idx = Some c ->
        columns r !! Z.to_nat c = columns proba_y !! idx) /\
     (forall j, (j < length class_labels)%nat -> ~ In (Z.of_nat j) model_classes ->
        columns r !! j = Some (replicate (shape0 proba_y) zero))) /\
  ((exists c, In c model_classes /\
      ~ (- Z.of_nat (length class_labels) <= c < Z.of_nat (length class_labels))%Z) ->
   remap_probabilities float zero proba_y class_labels model_classes
   = Raise (IndexError "index is out of bounds for axis")).
Proof.
  intros float zero A proba_y class_labels model_classes Hshape Hcols.
  assert (Hshape1 : shape1 (zeros float zero (shape0 proba_y) (length class_labels))
                    = length class_labels).
  { unfold shape1, zeros. cbn [columns]. apply length_replicate. }
  unfold remap_probabilities.
  apply Nat.eqb_neq in Hshape. rewrite Hshape. cbn [negb]. split.
  - intros Hnd Hrange.
    destruct (remap_columns_places float model_classes proba_y
                (zeros float zero (shape0 proba_y) (length class_labels)) 0)
      as (r & Hrun & Hr0 & Hr1 & Hplaced & Hothers); trivial.
    { intros c Hc. rewrite Hshape1. now apply Hrange. }
    exists r. split; [exact Hrun|]. split; [exact Hr0|].
    split; [now rewrite Hr1|]. split.
    + intros idx c Hidx. now rewrite (Hplaced idx c Hidx).
    + intros j Hj Hfresh. rewrite (Hothers j Hfresh). cbn [zeros columns].
      now apply lookup_replicate_2.
  - intros Hbad. apply remap_columns_refuses; [exact Hcols|]. now rewrite Hshape1.
Qed.

Lemma remap_probabilities_places_columns_witness :
  exists r,
    remap_probabilities Z 0%Z (Matrix 2 [[7%Z; 1%Z]; [3%Z; 9%Z]]) ["a"; "b"; "c"]
      [0%Z; 2%Z] = Ok r /\
    columns r !! 2%nat = Some [3%Z; 9%Z] /\
    columns r !! 1%nat = Some [0%Z; 0%Z].
Proof.
  destruct (remap_probabilities_places_columns Z 0%Z string
              (Matrix 2 [[7%Z; 1%Z]; [3%Z; 9%Z]]) ["a"; "b"; "c"] [0%Z; 2%Z])
    as [Hplaces _].
  - discriminate.
  - unfold shape1. simpl. lia.
  - destruct Hplaces as (r & Hrun & _ & _ & Hplaced & Hothers).
    + repeat (constructor; [simpl; intuition discriminate|]). constructor.
    + intros c [<- | [<- | []]]; simpl; lia.
    + exists r. split; [exact Hrun|]. split.
      * exact (Hplaced 1%nat 2%Z eq_refl).
      * apply (Hothers 1%nat); [simpl; lia|]. simpl. intuition discriminate.
Defined.


(** ** The trace of a search *)

Section TraceFacts.
Variable E : runtime.
Variable score : Type.

(** What [_extract_trace_data] needs of the arrays of the parameters to go
through the iteration [itt_no]. *)
Definition readable_at (columns : list (string * list cell)) (itt_no : nat) : Prop :=
forall key column, In (key, column) columns -> String.prefix "param_" key = true ->
exists c, column !! itt_no = Some c /\
        match c with
        | Masked => True
        | Value v => is_ok (json_dumps E v) = true
        end.

Lemma param_keys_cons key column columns :
param_keys ((key, column) :: columns)
= if String.prefix "param_" key then key :: param_keys columns else param_keys columns.
Proof. reflexivity. Qed.

Lemma trace_parameters_width columns itt_no : forall line line',
trace_parameters E score columns itt_no line = Ok line' ->
length line' = (length line + length (param_keys columns))%nat /\
take (length line) line' = line.
Proof.
induction columns as [|[key column] columns IH]; intros line line';
cbn [trace_parameters].
- intros [= <-]. cbn. split; [lia | apply firstn_all].
- rewrite param_keys_cons. destruct (String.prefix "param_" key); [|apply IH].
destruct (trace_parameter E score column itt_no) as [value|e]; cbn [bind];
[|discriminate].
intros H. apply IH in H. destruct H as [Hlen Htake].
rewrite length_app in Hlen. cbn [length] in *. split; [lia|].
apply (f_equal (take (length line))) in Htake.
rewrite take_take, Nat.min_l, take_app_length in Htake by (rewrite length_app; lia).
exact Htake.
Qed.

Lemma trace_parameters_readable columns itt_no : forall line,
readable_at columns itt_no ->
is_ok (trace_parameters E score columns itt_no line) = true.
Proof.
induction columns as [|[key column] columns IH]; intros line Hread;
cbn [trace_parameters]; [reflexivity|].
assert (Hrest : readable_at columns itt_no).
{ intros k c Hin. apply Hread. now right. }
destruct (String.prefix "param_" key) eqn:Hkey; [|now apply IH].
destruct (Hread key column (or_introl eq_refl) Hkey) as (c & Hc & Hdumps).
unfold trace_parameter. rewrite Hc. destruct c as [|v]; cbn [bind]; [now apply IH|].
destruct (json_dumps E v); [|discriminate]. cbn [bind]. now apply IH.
Qed.

(** The first five entries of the line of an iteration. *)
Definition line_head (best_index rep_no fold_no : Z) (itt_no : nat) (test_score : score)
: list (arff_value score) :=
[ANumber rep_no; ANumber fold_no; ANumber (Z.of_nat itt_no); AScore test_score;
AText (if (Z.of_nat itt_no =? best_index)%Z then "true" else "false")].

Definition is_selected (arff_line : list (arff_value score)) : bool :=
bool_decide (selected_of arff_line = Some "true").

Lemma trace_lines_lines columns best_index rep_no fold_no scores : forall itt_no acc r,
trace_lines E score columns best_index rep_no fold_no itt_no scores acc = Ok r ->
exists lines,
r = acc ++ lines /\ length lines = length scores /\
(forall k test_score, scores !! k = Some test_score ->
 exists line,
   lines !! k = Some line /\
   length line = (5 + length (param_keys columns))%nat /\
   take 5 line = line_head best_index rep_no fold_no (itt_no + k) test_score) /\
length (List.filter is_selected lines)
= if bool_decide (Z.of_nat itt_no <= best_index
                < Z.of_nat (itt_no + length scores))%Z
then 1%nat else 0%nat.
Proof.
induction scores as [|test_score scores IH]; intros itt_no acc r; cbn [trace_lines].
- intros [= <-]. exists []. rewrite app_nil_r. split; [reflexivity|].
split; [reflexivity|]. split; [intros k s Hk; discriminate|].
cbn [length List.filter]. rewrite bool_decide_eq_false_2 by lia. reflexivity.
- destruct (trace_parameters E score columns itt_no _) as [line|e] eqn:Hline;
cbn [bind]; [|discriminate].
apply trace_parameters_width in Hline. cbn [length] in Hline.
destruct Hline as [Hwidth Hhead].
intros H. apply IH in H. destruct H as (lines & -> & Hlen & Hlines & Hcount).
exists (line :: lines). rewrite <- app_assoc. split; [reflexivity|].
split; [cbn [length]; now rewrite Hlen|]. split.
+ intros [|k] s Hk.
* injection Hk as <-. exists line. rewrite Nat.add_0_r.
  split; [reflexivity|]. split; [exact Hwidth | exact Hhead].
* cbn [lookup list_lookup] in Hk. destruct (Hlines k s Hk) as (l & Hl & Hw & Hh).
  exists l. split; [exact Hl|]. split; [exact Hw|].
  now replace (itt_no + S k)%nat with (S itt_no + k)%nat by lia.
+ cbn [List.filter length].
assert (Hsel : is_selected line = (Z.of_nat itt_no =? best_index)%Z).
{ unfold is_selected, selected_of.
  assert (H4 : line !! 4%nat
               = Some (AText (if (Z.of_nat itt_no =? best_index)%Z
                              then "true" else "false"))).
  { rewrite <- (lookup_take_lt line 5 4) by lia. now rewrite Hhead. }
  rewrite H4. destruct (Z.of_nat itt_no =? best_index)%Z;
    [now apply bool_decide_eq_true | now apply bool_decide_eq_false]. }
rewrite Hsel. destruct (Z.of_nat itt_no =? best_index)%Z eqn:Hbest.
* apply Z.eqb_eq in Hbest. cbn [length]. rewrite Hcount.
  rewrite bool_decide_eq_false_2 by lia.
  rewrite bool_decide_eq_true_2 by lia. reflexivity.
* apply Z.eqb_neq in Hbest. rewrite Hcount.
  destruct (bool_decide (Z.of_nat (S itt_no) <= best_index
                         < Z.of_nat (S itt_no + length scores))%Z) eqn:Hb.
  -- apply bool_decide_eq_true in Hb. rewrite bool_decide_eq_true_2 by lia.
     reflexivity.
  -- apply bool_decide_eq_false in Hb. rewrite bool_decide_eq_false_2 by lia.
     reflexivity.
Qed.

Lemma trace_lines_readable columns best_index rep_no fold_no scores : forall itt_no acc,
(forall k, (k < length scores)%nat -> readable_at columns (itt_no + k)) ->
is_ok (trace_lines E score columns best_index rep_no fold_no itt_no scores acc) = true.
Proof.
induction scores as [|test_score scores IH]; intros itt_no acc Hread;
cbn [trace_lines]; [reflexivity|].
pose proof (trace_parameters_readable columns itt_no
          (line_head best_index rep_no fold_no itt_no test_score)) as Hline.
unfold line_head in Hline.
destruct (trace_parameters E score columns itt_no _) as [line|e]; cbn [bind].
- apply IH. intros k Hk.
replace (S itt_no + k)%nat with (itt_no + S k)%nat by lia.
apply Hread. cbn [length]. lia.
- rewrite <- Hline; [reflexivity|].
rewrite <- (Nat.add_0_r itt_no). apply Hread. cbn [length]. lia.
Qed.
End TraceFacts.

(** X11.  When the array of every parameter has an entry for each
    iteration, masked or a value [json.dumps] writes, [_extract_trace_data]
    returns one line for each score; a line starts with the repeat, the
    fold, the number of the iteration, its score and the word [true] or
    [false], and has one more entry for each key of [cv_results_] that
    starts with [param_]; the word is [true] on the line of [best_index_]
    and on no other, so on exactly one line when [best_index_] is the
    number of an iteration. *)
Theorem extract_trace_data_selects_best :
  forall (E : runtime) (score : Type) (model : fitted_search score)
         (cv : cv_results score) (rep_no fold_no : Z),
  cv_results_ model = Some cv ->
  (forall itt_no, (itt_no < length (mean_test_score cv))%nat ->
     readable_at E (results cv) itt_no) ->
  exists content,
    _extract_trace_data E score model rep_no fold_no = Ok content /\
    length content = length (mean_test_score cv) /\
    (forall itt_no test_score, mean_test_score cv !! itt_no = Some test_score ->
       exists line,
         content !! itt_no = Some line /\
         length line = (5 + length (param_keys (results cv)))%nat /\
         take 5 line
         = [ANumber rep_no; ANumber fold_no; ANumber (Z.of_nat itt_no);
            AScore test_score;
            AText (if (Z.of_nat itt_no =? best_index_ model)%Z
                   then "true" else "false")]) /\
    length (List.filter (fun line => bool_decide (selected_of line = Some "true"))
              content)
    = if bool_decide (0 <= best_index_ model
                      < Z.of_nat (length (mean_test_score cv)))%Z
      then 1%nat else 0%nat.
Proof.
  intros E score model cv rep_no fold_no Hcv Hread.
  unfold _extract_trace_data. rewrite Hcv.
  pose proof (trace_lines_readable E score (results cv) (best_index_ model) rep_no
                fold_no (mean_test_score cv) 0 [] Hread) as Hok.
  destruct (trace_lines E score (results cv) (best_index_ model) rep_no fold_no 0
              (mean_test_score cv) []) as [content|e] eqn:Hrun; [|discriminate].
  apply trace_lines_lines in Hrun.
  destruct Hrun as (lines & -> & Hlen & Hlines & Hcount).
  exists lines. split; [reflexivity|]. split; [exact Hlen|]. split.
  - intros itt_no test_score Hscore.
    destruct (Hlines itt_no test_score Hscore) as (line & Hline & Hwidth & Hhead).
    exists line. split; [exact Hline|]. split; [exact Hwidth | exact Hhead].
  - exact Hcount.
Qed.

Lemma extract_trace_data_selects_best_witness :
  exists content line,
    _extract_trace_data Ref.env Z example_fitted_search 0 4 = Ok content /\
    content !! 1%nat = Some line /\
    take 5 line = [ANumber 0; ANumber 4; ANumber 1; AScore 90; AText "true"] /\
    length (List.filter (fun line => bool_decide (selected_of line = Some "true"))
              content) = 1%nat.
Proof.
  destruct (extract_trace_data_selects_best Ref.env Z example_fitted_search
              example_cv_results 0 4 eq_refl)
    as (content & Hrun & _ & Hlines & Hcount).
  - intros itt_no Hitt key column Hin Hkey.
    destruct itt_no as [|[|[|itt_no]]]; [| | |simpl in Hitt; lia];
      destruct Hin as [[= <- <-] | [[= <- <-] | [[= <- <-] | [[= <- <-] | []]]]];
      try discriminate; eexists; (split; [reflexivity|]); try exact I; reflexivity.
  - destruct (Hlines 1%nat 90 eq_refl) as (line & Hline & _ & Hhead).
    exists content, line. split; [exact Hrun|]. split; [exact Hline|].
    split; [exact Hhead | exact Hcount].
Defined.

Section TraceAttributes.
Variable E : runtime.
Variable score : Type.
Variable PREFIX : string.

(** The attribute of the parameter held under [key]. *)
Definition parameter_attribute (key : string) : string * arff_type :=
((PREFIX ++ str_drop 6 key)%string, STRING).

Lemma check_param_values_supported key column : forall type,
column <> [] -> forallb supported_param_value column = true ->
check_param_values key column type = Ok (Some STRING).
Proof.
induction column as [|c column IH]; intros type Hne Hall; [contradiction|].
cbn [forallb check_param_values] in *. apply andb_true_iff in Hall.
destruct Hall as [-> Hall]. destruct column as [|c' column]; [reflexivity|].
now apply IH.
Qed.

Lemma trace_attributes_of_supported columns : forall type acc,
(forall key column, In (key, column) columns -> String.prefix "param_" key = true ->
column <> [] /\ forallb supported_param_value column = true) ->
trace_attributes_of PREFIX columns type acc
= inr (acc ++ map parameter_attribute (param_keys columns)).
Proof.
induction columns as [|[key column] columns IH]; intros type acc Hall;
cbn [trace_attributes_of].
- cbn. now rewrite app_nil_r.
- rewrite param_keys_cons.
assert (Hrest : forall key column, In (key, column) columns ->
        String.prefix "param_" key = true ->
        column <> [] /\ forallb supported_param_value column = true).
{ intros k c Hin. apply Hall. now right. }
destruct (String.prefix "param_" key) eqn:Hkey; [|now apply IH].
destruct (Hall key column (or_introl eq_refl) Hkey) as [Hne Hsupported].
rewrite (check_param_values_supported key column type Hne Hsupported).
rewrite IH by exact Hrest. cbn [map]. now rewrite <- app_assoc.
Qed.

Lemma trace_lines_width columns best_index rep_no fold_no scores itt_no r :
trace_lines E score columns best_index rep_no fold_no itt_no scores [] = Ok r ->
forall line, In line r -> length line = (5 + length (param_keys columns))%nat.
Proof.
intros Hrun line Hline. apply trace_lines_lines in Hrun.
destruct Hrun as (lines & -> & Hlen & Hlines & _). cbn [app] in Hline.
apply list_elem_of_In, list_elem_of_lookup in Hline. destruct Hline as [k Hk].
destruct (lookup_lt_is_Some_2 scores k) as [s Hs].
{ rewrite <- Hlen. now apply lookup_lt_Some in Hk. }
destruct (Hlines k s Hs) as (line' & Hline' & Hwidth & _). congruence.
Qed.
End TraceAttributes.

(** X12.  For a fitted search whose arrays of parameters are not empty and
    hold masked entries, values of the basic types, [None] or lists of
    integers, [_obtain_arff_trace] calls [OpenMLRunTrace.generate] with the
    five attributes of every trace followed by one attribute of type STRING
    for each key of [cv_results_] that starts with [param_], named by the
    prefix of the module and the key without its first six characters; a
    line of [_extract_trace_data] for the same search has as many entries
    as there are attributes. *)
Theorem obtain_arff_trace_declares_every_entry :
  forall (E : runtime) (score : Type) (PREFIX : string) (trace : Type)
         (generate : list (string * arff_type) -> list (list (arff_value score)) ->
                     trace_error + trace)
         (model : fitted_search score) (cv : cv_results score),
  _is_hpo_class E (search_model model) = true ->
  cv_results_ model = Some cv ->
  (forall key column, In (key, column) (results cv) ->
     String.prefix "param_" key = true ->
     column <> [] /\ forallb supported_param_value column = true) ->
  let attributes :=
    fixed_trace_attributes
    ++ map (fun key => ((PREFIX ++ str_drop 6 key)%string, STRING))
         (param_keys (results cv)) in
  (forall trace_content,
     _obtain_arff_trace E score PREFIX trace generate model trace_content
     = generate attributes trace_content) /\
  (forall rep_no fold_no content line,
     _extract_trace_data E score model rep_no fold_no = Ok content ->
     In line content -> length line = length attributes).
Proof.
  intros E score PREFIX trace generate model cv Hhpo Hcv Hcolumns attributes.
  subst attributes. split.
  - intros trace_content. unfold _obtain_arff_trace. rewrite Hhpo, Hcv. cbn [negb].
    now rewrite (trace_attributes_of_supported PREFIX (results cv) None _ Hcolumns).
  - intros rep_no fold_no content line. unfold _extract_trace_data. rewrite Hcv.
    intros Hrun Hline. rewrite (trace_lines_width E score _ _ _ _ _ _ _ Hrun line Hline).
    rewrite length_app, length_map. reflexivity.
Qed.

Lemma obtain_arff_trace_declares_every_entry_witness :
  _obtain_arff_trace Ref.env Z "parameter_" example_trace example_generate
    example_fitted_search []
  = inr (fixed_trace_attributes
         ++ [("parameter_estimator__strategy", STRING);
             ("parameter_estimator__constant", STRING)], []).
Proof.
  apply (obtain_arff_trace_declares_every_entry Ref.env Z "parameter_" example_trace
           example_generate example_fitted_search example_cv_results eq_refl eq_refl).
  intros key column [[= <- <-] | [[= <- <-] | [[= <- <-] | [[= <- <-] | []]]]];
    try discriminate; intros _; split; try discriminate; reflexivity.
Defined.

(** X13.  For a fitted search without iterations that has a key starting
    with [param_], [_obtain_arff_trace] reads its local variable [type]
    before any value has been assigned to it. *)
Theorem obtain_arff_trace_without_iterations :
  forall (E : runtime) (score : Type) (PREFIX : string) (trace : Type)
         (generate : list (string * arff_type) -> list (list (arff_value score)) ->
                     trace_error + trace)
         (model : fitted_search score) (cv : cv_results score)
         (trace_content : list (list (arff_value score))),
  _is_hpo_class E (search_model model) = true ->
  cv_results_ model = Some cv ->
  (forall key column, In (key, column) (results cv) -> column = []) ->
  param_keys (results cv) <> [] ->
  _obtain_arff_trace E score PREFIX trace generate model trace_content
  = inl (UnboundLocalError "type").
Proof.
  intros E score PREFIX trace generate model cv trace_content Hhpo Hcv Hempty Hkeys.
  unfold _obtain_arff_trace. rewrite Hhpo, Hcv. cbn [negb].
  change ([("repeat", NUMERIC); ("fold", NUMERIC); ("iteration", NUMERIC);
           ("evaluation", NUMERIC); ("selected", Nominal ["true"; "false"])])
    with fixed_trace_attributes.
  generalize fixed_trace_attributes. intros acc.
  induction (results cv) as [|[key column] columns IH]; [contradiction|].
  cbn [trace_attributes_of]. rewrite param_keys_cons in Hkeys.
  rewrite (Hempty key column (or_introl eq_refl)).
  destruct (String.prefix "param_" key); [reflexivity|].
  apply IH; [|exact Hkeys]. intros k c Hin. apply (Hempty k c). now right.
Qed.

Lemma obtain_arff_trace_without_iterations_witness :
  _obtain_arff_trace Ref.env Z "parameter_" example_trace example_generate
    example_empty_search []
  = inl (UnboundLocalError "type").
Proof.
  apply (obtain_arff_trace_without_iterations Ref.env Z "parameter_" example_trace
           example_generate example_empty_search
           (CvResults [] [("mean_fit_time", []); ("param_n_jobs", [])]) []
           eq_refl eq_refl).
  - intros key column [[= <- <-] | [[= <- <-] | []]]; reflexivity.
  - discriminate.
Defined.


(** ** What can be measured of a run *)

Lemma one_is_not_minus_one val :
  py_key_eqb val (VInt 1) = true -> py_key_eqb (VInt (-1)) val = false.
Proof.
  destruct val as [| [|] |z| | | | | | | | | | | |]; try discriminate; cbn.
  - reflexivity.
  - intros H. apply Z.eqb_eq in H. now subst z.
Qed.

(** X14.  A model whose CPU time [_can_measure_cputime] says can be
    measured is one whose wall-clock time [_can_measure_wallclocktime] says
    can be measured: when every [n_jobs] of the model is [None] or [1],
    none of them is [-1]. *)
Theorem cputime_measurable_implies_wallclocktime :
  forall (E : runtime) (model : pyval),
  _can_measure_cputime E model = Ok true ->
  _can_measure_wallclocktime E model = Ok true.
Proof.
  intros E model. unfold _can_measure_cputime, _can_measure_wallclocktime.
  destruct (negb (is_base_estimator model || _is_hpo_class E model)); [discriminate|].
  destruct (_get_parameter_values_recursive (params_as_dict E model) "n_jobs")
    as [n_jobs_vals|e]; cbn [bind]; [|discriminate].
  intros [= Hall]. f_equal. apply negb_true_iff.
  induction n_jobs_vals as [|val n_jobs_vals IH]; [reflexivity|].
  cbn [forallb existsb] in *. apply andb_true_iff in Hall. destruct Hall as [Hval Hall].
  rewrite (IH Hall), orb_false_r.
  destruct val; try (now apply one_is_not_minus_one); reflexivity.
Qed.

Lemma cputime_measurable_implies_wallclocktime_witness :
  _can_measure_wallclocktime Ref.env example_one_vs_rest = Ok true.
Proof.
  apply cputime_measurable_implies_wallclocktime. vm_compute. reflexivity.
Defined.


(** ** The flows the extension recognises as its own *)

Definition comma : ascii := ",".

(** No character of the text is a comma. *)
Fixpoint no_comma (p : string) : Prop :=
  match p with
  | EmptyString => True
  | String c p' => c <> comma /\ no_comma p'
  end.

Lemma prefix_comma c s :
  String.prefix "," (String c s) = if ascii_dec comma c then true else false.
Proof.
  change (String.prefix "," (String c s))
    with (if ascii_dec comma c then String.prefix "" s else false).
  destruct (ascii_dec comma c); [now destruct s | reflexivity].
Qed.

Lemma string_of_list_snoc (l : list ascii) (c : ascii) (t : string) :
  (string_of_list_ascii (l ++ [c]) ++ t)%string
  = (string_of_list_ascii l ++ String c t)%string.
Proof.
  induction l as [|x l IH]; [reflexivity|].
  cbn [app string_of_list_ascii]. rewrite !string_app_cons. now rewrite IH.
Qed.

(** The first piece of a split starts with what was read of it and with
    any text without a comma the rest starts with. *)
Lemma str_split_first p : forall s piece,
  String.prefix p s = true -> no_comma p ->
  exists t rest,
    str_split_go "," 0 piece s
    = (string_of_list_ascii (rev piece) ++ p ++ t)%string :: rest.
Proof.
  induction p as [|c p IH].
  - intros s piece _ _. revert piece. induction s as [|c s IHs]; intros piece.
    + exists "", []. cbn. now rewrite string_app_nil_r.
    + cbn [str_split_go]. rewrite prefix_comma.
      destruct (ascii_dec comma c).
      * exists "". eexists. cbn [String.length Nat.sub]. now rewrite string_app_nil_r.
      * destruct (IHs (c :: piece)) as (t & rest & ->). exists (String c t), rest.
        cbn [rev]. f_equal. apply string_of_list_snoc.
  - intros [|c' s] piece Hprefix [Hc Hp]; [discriminate|].
    cbn [String.prefix] in Hprefix. destruct (ascii_dec c c') as [<-|]; [|discriminate].
    cbn [str_split_go]. rewrite prefix_comma.
    destruct (ascii_dec comma c) as [Heq|_]; [now subst c|].
    destruct (IH s (c :: piece) Hprefix Hp) as (t & rest & ->). exists t, rest.
    cbn [rev]. f_equal. rewrite string_of_list_snoc. now rewrite string_app_cons.
Qed.

(** A text found after a comma starts one of the pieces of the split. *)
Lemma str_split_after_comma p s : forall piece,
  str_contains ("," ++ p) s = true -> no_comma p ->
  exists e, In e (str_split_go "," 0 piece s) /\ String.prefix p e = true.
Proof.
  induction s as [|c s IH]; intros piece Hin Hp.
  - cbn in Hin. discriminate.
  - cbn [str_contains] in Hin. apply orb_true_iff in Hin.
    cbn [str_split_go]. rewrite prefix_comma.
    destruct Hin as [Hhere | Hlater].
    + change ("," ++ p)%string with (String comma p) in Hhere.
      cbn [String.prefix] in Hhere.
      destruct (ascii_dec comma c) as [_|]; [|discriminate].
      destruct (str_split_first p s [] Hhere Hp) as (t & rest & Hsplit).
      cbn [String.length Nat.sub]. rewrite Hsplit.
      exists (p ++ t)%string. split; [right; now left | apply prefix_app].
    + destruct (ascii_dec comma c).
      * destruct (IH [] Hlater Hp) as (x & Hx & Hprefix).
        exists x. split; [right; exact Hx | exact Hprefix].
      * exact (IH (c :: piece) Hlater Hp).
Qed.

Lemma prefix_split p : forall s,
  String.prefix p s = true -> exists t, s = (p ++ t)%string.
Proof.
  induction p as [|c p IH]; intros s Hs; [now exists s|].
  destruct s as [|c' s]; [discriminate|]. cbn [String.prefix] in Hs.
  destruct (ascii_dec c c') as [<-|]; [|discriminate].
  destruct (IH s Hs) as [t ->]. now exists t.
Qed.

(** A flow [_is_sklearn_flow] accepts has an entry of sklearn in its
    external version. *)
Lemma sklearn_flow_entry c :
  _is_sklearn_flow c = Ok true ->
  exists ev e, external_version c = SStr ev /\ In e (str_split "," ev) /\
               String.prefix "sklearn==" e = true.
Proof.
  unfold _is_sklearn_flow. destruct (external_version c) as [| | |ev]; try discriminate.
  intros [= Hev]. exists ev. apply orb_true_iff in Hev.
  assert (Hp : no_comma "sklearn==").
  { cbn. repeat split; discriminate. }
  destruct Hev as [Hprefix | Hcontains].
  - destruct (str_split_first "sklearn==" ev [] Hprefix Hp) as (t & rest & Hsplit).
    exists ("sklearn==" ++ t)%string. split; [reflexivity|].
    unfold str_split. rewrite Hsplit. split; [now left | apply prefix_app].
  - destruct (str_split_after_comma "sklearn==" ev [] Hcontains Hp) as (e & He & Hprefix).
    now exists e.
Qed.

Lemma str_set_add_new (v : string) (s : list string) : In v (str_set_add v s).
Proof.
  unfold str_set_add. destruct (existsb (String.eqb v) s) eqn:Hex.
  - apply existsb_exists in Hex. destruct Hex as (x & Hx & Heq).
    apply String.eqb_eq in Heq. now subst x.
  - apply in_or_app. right. now left.
Qed.

Lemma str_set_add_all (e : string) (vs : list string) : forall s,
  In e vs \/ In e s -> In e (fold_left (fun s v => str_set_add v s) vs s).
Proof.
  induction vs as [|v vs IH]; intros s [Hin | Hin]; cbn [fold_left];
    try contradiction; trivial.
  - apply IH. destruct Hin as [-> | Hin]; [right; apply str_set_add_new | now left].
  - apply IH. right. now apply str_set_add_In.
Qed.

Lemma add_external_versions_entry (e : string) visitees : forall versions versions' c ev,
  add_external_versions visitees versions = Ok versions' ->
  In c visitees -> external_version c = SStr ev -> In e (str_split "," ev) ->
  In e versions'.
Proof.
  induction visitees as [|visitee rest IH]; intros versions versions' c ev Hrun Hc Hev He;
    [destruct Hc|].
  cbn [add_external_versions] in Hrun.
  destruct (external_version visitee) as [| | |ev'] eqn:Hev'; try discriminate.
  destruct Hc as [-> | Hc].
  - apply (add_external_versions_In e _ _ _ Hrun).
    apply str_set_add_all. left. congruence.
  - exact (IH _ _ c ev Hrun Hc Hev He).
Qed.

(** X15.  The flow [model_to_flow] returns for an estimator is one
    [_is_sklearn_flow] accepts when the class of the estimator is in the
    package sklearn, and also when one of its components is such a flow,
    whatever package its own class is in. *)
Theorem flow_of_sklearn_is_recognised :
  forall (E : runtime) (cls : string) (params : list (string * pyval)) (f : flow),
  model_to_flow E (VEstimator cls params) = Ok (VFlow f) ->
  first_segment cls = "sklearn" \/
  (exists c, In c (components f) /\ _is_sklearn_flow (snd c) = Ok true) ->
  _is_sklearn_flow f = Ok true.
Proof.
  intros E cls params f. unfold model_to_flow. cbn [_serialize_sklearn].
  destruct (_serialize_model E cls _) as [f'|e] eqn:Hf; cbn [bind]; [|discriminate].
  intros [= ->] [Hcls | (c & Hc & Hsub)].
  - exact (serialized_is_sklearn_flow E _ _ _ Hcls Hf).
  - destruct (serialize_model_ok E _ _ _ Hf)
      as (ex & names & _ & _ & _ & Hkeyed & _ & _ & _ & ev & Hev & Hversion).
    destruct (sklearn_flow_entry _ Hsub) as (evc & e & Hevc & He & Hprefix).
    unfold _is_sklearn_flow. rewrite Hversion. f_equal.
    unfold _get_external_version_string in Hev.
    destruct (package_version E _) as [ver|err]; cbn [bind] in Hev; [|discriminate].
    destruct (add_external_versions _ _) as [versions|err] eqn:Hadd; cbn [bind] in Hev;
      [|discriminate].
    injection Hev as <-.
    assert (Hin : In e (str_sorted versions)).
    { apply str_sorted_In.
      apply (add_external_versions_entry e _ _ _ (snd c) evc Hadd); trivial.
      apply string_keyed_values in Hkeyed. destruct Hkeyed as [Hvalues _].
      unfold dict_values. rewrite <- Hvalues. now apply in_map. }
    destruct (prefix_split _ _ Hprefix) as [t ->].
    apply str_join_contains in Hin. apply orb_true_iff.
    destruct Hin as [H | H].
    + left. now apply (prefix_app_l "sklearn==" t).
    + right. now apply (str_contains_app_l ",sklearn==" t).
Qed.

Lemma flow_of_sklearn_is_recognised_witness :
  _is_sklearn_flow (flow_of example_pipeline) = Ok true.
Proof.
  apply (flow_of_sklearn_is_recognised Ref.env "sklearn.pipeline.Pipeline"
           [("memory", VNone);
            ("steps", VList [VTuple [VStr "scaler"; example_scaler];
                             VTuple [VStr "clf"; example_one_vs_rest]]);
            ("verbose", VBool false)]).
  - vm_compute. reflexivity.
  - left. reflexivity.
Defined.


(** ** A splitter and what is stored for it *)

Lemma item_insert_keys {A} (x : string * A) (l : list (string * A)) k :
  In k (map fst (item_insert x l)) <-> k = fst x \/ In k (map fst l).
Proof.
  induction l as [|y l IH]; cbn [item_insert map In]; [intuition|].
  destruct (String.leb (fst x) (fst y)); cbn [map In]; [intuition|].
  rewrite IH. intuition.
Qed.

Lemma items_sorted_NoDup {A} (l : list (string * A)) :
  List.NoDup (map fst l) -> List.NoDup (map fst (items_sorted l)).
Proof.
  assert (Hins : forall (x : string * A) l',
            ~ In (fst x) (map fst l') -> List.NoDup (map fst l') ->
            List.NoDup (map fst (item_insert x l'))).
  { intros x l' Hx Hl'. induction l' as [|y l' IH]; cbn [item_insert map].
    - constructor; [intros [] | constructor].
    - cbn [map] in Hx, Hl'. inversion Hl' as [|? ? Hy Hl'']; subst.
      destruct (String.leb (fst x) (fst y)); cbn [map].
      + constructor; [exact Hx | exact Hl'].
      + constructor.
        * rewrite item_insert_keys. intros [Heq | H]; [|contradiction].
          apply Hx. left. now symmetry.
        * apply IH; [|exact Hl'']. intros H. apply Hx. now right. }
  induction l as [|x l IH]; cbn [map]; intros Hnd; [constructor|].
  inversion Hnd as [|? ? Hx Hnd']; subst. unfold items_sorted. cbn [fold_right].
  apply Hins; [|now apply IH].
  fold (items_sorted l). intros H. apply Hx.
  apply in_map_iff in H. destruct H as (y & Hy & Hin).
  apply items_sorted_In in Hin. rewrite <- Hy. now apply in_map.
Qed.

Lemma vkeyed_get_fresh {A} k (l : list (string * A)) :
  ~ In k (map fst l) -> dict_get py_key_eqb (VStr k) (vkeyed l) = None.
Proof.
  induction l as [|[k' v] l IH]; [reflexivity|].
  cbn [map fst vkeyed dict_get snd py_key_eqb]. intros Hk.
  rewrite string_eqb_neq by (intros ->; apply Hk; now left).
  apply IH. intros H. apply Hk. now right.
Qed.

Lemma vkeyed_get_mid {A} k (v : A) done rest :
  ~ In k (map fst done) ->
  dict_get py_key_eqb (VStr k) (vkeyed (done ++ (k, v) :: rest)) = Some v.
Proof.
  induction done as [|[k' v'] done IH]; cbn [app vkeyed map dict_get fst snd py_key_eqb].
  - now rewrite String.eqb_refl.
  - intros Hk. rewrite string_eqb_neq by (intros ->; apply Hk; now left).
    apply IH. intros H. apply Hk. now right.
Qed.

Lemma vkeyed_set_mid {A} k (v w : A) done rest :
  ~ In k (map fst done) ->
  dict_set py_key_eqb (VStr k) w (vkeyed (done ++ (k, v) :: rest))
  = vkeyed (done ++ (k, w) :: rest).
Proof.
  induction done as [|[k' v'] done IH]; cbn [app vkeyed map dict_set fst snd py_key_eqb].
  - now rewrite String.eqb_refl.
  - intros Hk. rewrite string_eqb_neq by (intros ->; apply Hk; now left).
    f_equal. apply IH. intros H. apply Hk. now right.
Qed.

Lemma kwargs_of_vkeyed (l : list (string * pyval)) : kwargs_of_items (vkeyed l) = Ok l.
Proof.
  induction l as [|[k v] l IH]; [reflexivity|].
  cbn [vkeyed map kwargs_of_items fst snd]. fold (vkeyed l). now rewrite IH.
Qed.

Section Splitters.
Variable E : runtime.
Hypothesis Hcodec : json_codec E.

(** What [_serialize_cross_validator] stores for an attribute. *)
Definition stores (v stored : pyval) : Prop :=
if is_empty_sized v then stored = VNone
else exists text, json_dumps E v = Ok text /\ stored = VStr text.

Lemma cross_validator_parameters_stored attrs : forall done ps,
cross_validator_parameters E attrs (vkeyed done) = Ok ps ->
List.NoDup (map fst done ++ map fst attrs) ->
exists entries,
ps = vkeyed (done ++ entries) /\
Forall2 (fun kv entry => fst entry = fst kv /\ stores (snd kv) (snd entry))
        attrs entries.
Proof.
induction attrs as [|[k v] attrs IH]; intros done ps; cbn [cross_validator_parameters].
- intros [= <-] _. exists []. rewrite app_nil_r. split; [reflexivity | constructor].
- cbn [map fst]. intros Hrun Hnd.
assert (Hk : ~ In k (map fst done)).
{ apply NoDup_remove_2 in Hnd. intros H. apply Hnd. apply in_or_app. now left. }
destruct (dumps_or_none E v) as [stored|e] eqn:Hstored; cbn [bind] in Hrun;
  [|discriminate].
rewrite (vkeyed_set_fresh k stored done Hk) in Hrun.
destruct (IH _ _ Hrun) as (entries & -> & Hall).
{ rewrite map_app. cbn [map fst]. rewrite <- app_assoc. exact Hnd. }
exists ((k, stored) :: entries). rewrite <- app_assoc. split; [reflexivity|].
constructor; [|exact Hall]. split; [reflexivity|]. cbn [snd].
unfold stores, dumps_or_none in *.
destruct (is_empty_sized v); cbn [negb] in Hstored.
+ now injection Hstored as <-.
+ destruct (json_dumps E v) as [text|e]; cbn [bind] in Hstored; [|discriminate].
  injection Hstored as <-. now exists text.
Qed.

Lemma deserialize_stored d v stored :
simple_value v = true -> stores v stored ->
_deserialize_sklearn E (S d) stored None false = Ok (attribute_back v, None).
Proof.
intros Hsimple Hstores. unfold stores, attribute_back in *.
destruct (is_empty_sized v) eqn:Hempty.
- now subst stored.
- destruct Hstores as (text & Hdumps & ->).
assert (Hloads : json_loads E text = Some v).
{ destruct Hcodec as [Hlaw _].
  rewrite (Hlaw v text) by (trivial; now destruct v).
  now destruct v. }
rewrite (deserialize_text E d text v None false Hloads).
now destruct v.
Qed.

Lemma deserialize_cv_parameters_back d todo : forall done outs,
List.NoDup (map fst done ++ map fst todo) ->
Forall2 (fun entry out =>
         fst out = fst entry /\
         _deserialize_sklearn E d (snd entry) None false = Ok (snd out, None))
      todo outs ->
deserialize_cv_parameters (_deserialize_sklearn E d) (dict_keys (vkeyed todo))
(vkeyed (done ++ todo))
= Ok (vkeyed (done ++ outs)).
Proof.
induction todo as [|[k stored] todo IH]; intros done outs Hnd Hall.
- inversion Hall; subst. reflexivity.
- inversion Hall as [|? [k' v] ? outs' [Hk Hv] Hall']; subst.
cbn [fst snd] in Hk, Hv. subst k'.
cbn [vkeyed map dict_keys fst snd deserialize_cv_parameters].
cbn [map fst] in Hnd.
assert (Hfresh : ~ In k (map fst done)).
{ apply NoDup_remove_2 in Hnd. intros H. apply Hnd. apply in_or_app. now left. }
fold (vkeyed (done ++ (k, stored) :: todo)).
rewrite (vkeyed_get_mid k stored done todo Hfresh), Hv. cbn [bind].
rewrite (vkeyed_set_mid k stored v done todo Hfresh).
replace (done ++ (k, v) :: todo) with ((done ++ [(k, v)]) ++ todo)
  by (now rewrite <- app_assoc).
replace (done ++ (k, v) :: outs') with ((done ++ [(k, v)]) ++ outs')
  by (now rewrite <- app_assoc).
apply IH; [|exact Hall'].
rewrite map_app. cbn [map fst]. rewrite <- app_assoc. exact Hnd.
Qed.
End Splitters.

(** X16.  A splitter with distinct attributes that are [None], booleans,
    integers or strings comes back from what [_serialize_cross_validator]
    returns for it, and from what [json] makes of that: the inverse walker
    imports its class and calls it with the attributes in the sorted order
    of their names, each with the value it had, an empty string apart,
    which comes back as [None]. *)
Theorem cross_validator_comes_back :
  forall (E : runtime) (depth : nat) (cls : string) (attrs : list (string * pyval))
         (serialized model_class : pyval) (components : pool)
         (initialize_with_defaults : bool),
  json_codec E ->
  List.NoDup (map fst attrs) ->
  forallb (fun kv => simple_value (snd kv)) attrs = true ->
  model_to_flow E (VCrossValidator cls attrs) = Ok serialized ->
  import_dotted E (VStr cls) = Ok model_class ->
  forall o, o = serialized \/ o = json_image serialized ->
  _deserialize_sklearn E (S (S depth)) o components initialize_with_defaults
  = (let* splitter :=
       call_with_kwargs E model_class
         (map (fun kv => (fst kv, attribute_back (snd kv))) (items_sorted attrs)) in
     Ok (splitter, components)).
Proof.
  intros E depth cls attrs serialized model_class components init Hcodec Hnd Hsimple
    Hserialized Hclass o Ho.
  unfold model_to_flow in Hserialized. cbn [_serialize_sklearn] in Hserialized.
  unfold _serialize_cross_validator in Hserialized.
  destruct (cross_validator_parameters E (items_sorted attrs) []) as [ps|e] eqn:Hps;
    cbn [bind] in Hserialized; [|discriminate].
  injection Hserialized as <-.
  destruct (cross_validator_parameters_stored E (items_sorted attrs) [] ps Hps)
    as (entries & -> & Hstored).
  { cbn [map app]. now apply items_sorted_NoDup. }
  cbn [app] in *.
  set (outs := map (fun kv => (fst kv, attribute_back (snd kv))) (items_sorted attrs)).
  assert (Hkeys : map fst entries = map fst (items_sorted attrs)).
  { clear -Hstored. induction Hstored as [|? ? ? ? [Hk _] _ IH]; [reflexivity|].
    cbn [map]. now rewrite Hk, IH. }
  assert (Hback : Forall2 (fun entry out =>
            fst out = fst entry /\
            _deserialize_sklearn E (S depth) (snd entry) None false = Ok (snd out, None))
            entries outs).
  { subst outs.
    assert (Hall : Forall (fun kv => simple_value (snd kv) = true) (items_sorted attrs)).
    { apply List.Forall_forall. intros kv Hkv. apply items_sorted_In in Hkv.
      rewrite forallb_forall in Hsimple. now apply Hsimple. }
    clear -Hstored Hall Hcodec. induction Hstored as [|kv entry l l' [Hk Hs] _ IH];
      [constructor|].
    inversion Hall as [|? ? Hkv Hall']; subst. cbn [map]. constructor; [|now apply IH].
    cbn [fst snd]. split; [now symmetry|].
    now apply (deserialize_stored E Hcodec depth (snd kv)). }
  assert (Hloop : deserialize_cv_parameters (_deserialize_sklearn E (S depth))
                    (dict_keys (vkeyed entries)) (vkeyed entries)
                  = Ok (vkeyed outs)).
  { apply (deserialize_cv_parameters_back E (S depth) entries [] outs); [|exact Hback].
    cbn [map app]. rewrite Hkeys. now apply items_sorted_NoDup. }
  assert (Himage : map (fun kv => (fst kv, json_image (snd kv))) (vkeyed entries)
                   = vkeyed entries).
  { clear -Hstored. induction Hstored as [|kv entry l l' [_ Hs] _ IH]; [reflexivity|].
    cbn [vkeyed map fst snd]. fold (vkeyed l'). rewrite IH. do 2 f_equal.
    unfold stores in Hs. destruct (is_empty_sized (snd kv)).
    - now rewrite Hs.
    - destruct Hs as (text & _ & ->). reflexivity. }
  assert (Hstep : forall ordered ordered1 ordered2,
            _deserialize_sklearn E (S (S depth))
              (VDict ordered
                 [(VStr serialized_object, VStr "cv_object");
                  (VStr "value",
                   VDict ordered1 [(VStr "name", VStr cls);
                                   (VStr "parameters", VDict ordered2 (vkeyed entries))])])
              components init
            = (let* splitter := call_with_kwargs E model_class outs in
               Ok (splitter, components))).
  { intros ordered ordered1 ordered2.
    rewrite (deserialize_special E (S depth) _ _ components init (VStr "cv_object"))
      by reflexivity.
    cbv zeta. rewrite subscript_dict.
    cbn [item_get dict_get py_key_eqb String.eqb Ascii.eqb Bool.eqb bind has_tag
         fst snd serialized_object].
    unfold _deserialize_cross_validator. rewrite !subscript_dict.
    cbn [item_get dict_get py_key_eqb String.eqb Ascii.eqb Bool.eqb bind fst snd].
    rewrite Hclass. cbn [bind]. rewrite Hloop. cbn [bind].
    now rewrite kwargs_of_vkeyed. }
  destruct Ho as [-> | ->].
  - apply Hstep.
  - cbn [json_image special map fst snd]. rewrite Himage. apply Hstep.
Qed.

Lemma cross_validator_comes_back_witness :
  _deserialize_sklearn Ref.env 2 (json_image example_kfold_serialized) None false
  = Ok (example_kfold, None).
Proof.
  eapply eq_trans.
  - apply (cross_validator_comes_back Ref.env 0 "sklearn.model_selection._split.KFold"
             [("n_splits", VInt 5); ("random_state", VInt 7); ("shuffle", VBool true)]
             example_kfold_serialized
             (VType (TClass "sklearn.model_selection._split.KFold")) None false
             reference_codec).
    + repeat (constructor; [simpl; intuition discriminate|]). constructor.
    + reflexivity.
    + vm_compute. reflexivity.
    + vm_compute. reflexivity.
    + right. reflexivity.
  - vm_compute. reflexivity.
Defined.


(** ** The defaults of a signature *)

Lemma combine_exhausted {A B} (a b : list A) (c : list B) :
  length a = length c -> combine (a ++ b) c = combine a c.
Proof.
  revert c. induction a as [|x a IH]; intros [|y c] Hlen; try discriminate.
  - now destruct b.
  - cbn [app combine]. f_equal. apply IH. now injection Hlen.
Qed.

Lemma combine_snoc {A B} (a : list A) (c : list B) x y :
  length a = length c -> combine (a ++ [x]) (c ++ [y]) = combine a c ++ [(x, y)].
Proof.
  revert c. induction a as [|x' a IH]; intros [|y' c] Hlen; try discriminate.
  - reflexivity.
  - cbn [app combine]. f_equal. apply IH. now injection Hlen.
Qed.

Lemma combine_reversed {A B} (a : list A) (c : list B) :
  length a = length c -> combine (rev a) (rev c) = rev (combine a c).
Proof.
  revert c. induction a as [|x a IH]; intros [|y c] Hlen; try discriminate.
  - reflexivity.
  - injection Hlen as Hlen. cbn [rev combine].
    rewrite combine_snoc by (now rewrite !length_rev). now rewrite IH.
Qed.

Lemma combine_keys {A B} (a : list A) (c : list B) :
  length a = length c -> map fst (combine a c) = a.
Proof.
  revert c. induction a as [|x a IH]; intros [|y c] Hlen; try discriminate.
  - reflexivity.
  - cbn [combine map fst]. f_equal. apply IH. now injection Hlen.
Qed.

Lemma dict_in_keys {A} k (d : list (string * A)) :
  dict_in String.eqb k d = true <-> In k (map fst d).
Proof.
  unfold dict_in. induction d as [|[k' v] d IH]; cbn [dict_get map fst In].
  - split; [discriminate | intros []].
  - destruct (String.eqb k' k) eqn:Hk.
    + apply String.eqb_eq in Hk. split; [now left | reflexivity].
    + rewrite IH. apply String.eqb_neq in Hk. intuition.
Qed.

Lemma dict_set_all {A} (l : list (string * A)) : forall acc,
  List.NoDup (map fst acc ++ map fst l) ->
  fold_left (fun d kv => dict_set String.eqb (fst kv) (snd kv) d) l acc = acc ++ l.
Proof.
  induction l as [|[k v] l IH]; intros acc Hnd; cbn [fold_left].
  - now rewrite app_nil_r.
  - cbn [map fst snd] in *.
    rewrite dict_set_fresh.
    + rewrite IH; [now rewrite <- app_assoc|].
      rewrite map_app. cbn [map fst]. now rewrite <- app_assoc.
    + apply NoDup_remove_2 in Hnd. apply List.Forall_forall. intros [k' v'] Hin.
      cbn [fst]. apply string_eqb_neq. intros ->. apply Hnd.
      apply in_or_app. left. apply in_map_iff. now exists (k, v').
Qed.

Lemma filter_none {A} (p : A -> bool) (l : list A) :
  (forall x, In x l -> p x = false) -> List.filter p l = [].
Proof.
  induction l as [|x l IH]; intros Hall; [reflexivity|].
  cbn [List.filter]. rewrite (Hall x (or_introl eq_refl)).
  apply IH. intros y Hy. apply Hall. now right.
Qed.

(** X17.  For a signature whose arguments are distinct and whose last
    arguments are the ones with a default, [_get_fn_arguments_with_defaults]
    pairs each default with the argument at the same place from the end, in
    a dictionary that runs from the last argument to the first of them, and
    returns the arguments before them as the ones without a default. *)
Theorem defaults_belong_to_last_arguments :
  forall (E : runtime) (fn : pyval) (required optional : list string)
         (defaults : list pyval),
  getfullargspec_init E fn = (required ++ optional, defaults) ->
  length optional = length defaults ->
  List.NoDup (required ++ optional) ->
  _get_fn_arguments_with_defaults E fn
  = (rev (combine optional defaults), required) /\
  (forall i p v, optional !! i = Some p -> defaults !! i = Some v ->
     dict_get String.eqb p (fst (_get_fn_arguments_with_defaults E fn)) = Some v).
Proof.
  intros E fn required optional defaults Hspec Hlen Hnd.
  assert (Hopt : List.NoDup optional) by (now apply NoDup_app_remove_l in Hnd).
  assert (Hdict : (match defaults with
                   | [] => []
                   | _ => optional_params_of (required ++ optional) defaults
                   end) = rev (combine optional defaults)).
  { destruct defaults as [|v defaults].
    - destruct optional; [reflexivity | discriminate].
    - unfold optional_params_of. rewrite rev_app_distr.
      rewrite combine_exhausted by (now rewrite !length_rev).
      rewrite combine_reversed by exact Hlen.
      rewrite dict_set_all; [reflexivity|]. cbn [map app].
      rewrite map_rev, combine_keys by exact Hlen.
      apply NoDup_rev. exact Hopt. }
  assert (Heq : _get_fn_arguments_with_defaults E fn
                = (rev (combine optional defaults), required)).
  { unfold _get_fn_arguments_with_defaults. rewrite Hspec, Hdict. f_equal.
    rewrite List.filter_app.
    assert (Hkeys : forall arg, dict_in String.eqb arg (rev (combine optional defaults))
                                = true <-> In arg optional).
    { intros arg. rewrite dict_in_keys, map_rev, combine_keys by exact Hlen.
      now rewrite <- in_rev. }
    assert (Hreq : List.filter (fun arg => negb (dict_in String.eqb arg
                      (rev (combine optional defaults)))) required = required).
    { apply forallb_filter_id. apply forallb_forall. intros arg Harg.
      apply negb_true_iff. destruct (dict_in String.eqb arg _) eqn:Hin; [|reflexivity].
      apply Hkeys in Hin. exfalso. revert Hnd Harg Hin. clear.
      induction required as [|x required IH]; [intros _ []|].
      cbn [app]. intros Hnd [-> | Harg] Hin.
      - inversion Hnd as [|? ? Hx _]; subst. apply Hx. apply in_or_app. now right.
      - inversion Hnd; subst. now apply IH. }
    assert (Hoptional : List.filter (fun arg => negb (dict_in String.eqb arg
                           (rev (combine optional defaults)))) optional = []).
    { apply filter_none. intros arg Harg. apply negb_false_iff. now apply Hkeys. }
    now rewrite Hreq, Hoptional, app_nil_r. }
  split; [exact Heq|].
  intros i p v Hp Hv. rewrite Heq. cbn [fst].
  clear Hspec Heq Hdict Hnd. revert i optional Hlen Hopt Hp Hv.
  induction defaults as [|w defaults IH]; intros i [|q optional] Hlen Hopt Hp Hv;
    try discriminate.
  cbn [combine rev]. inversion Hopt as [|? ? Hq Hopt']; subst.
  injection Hlen as Hlen.
  assert (Hfresh : forall k, dict_get String.eqb k (rev (combine optional defaults) ++ [(q, w)])
                  = match dict_get String.eqb k (rev (combine optional defaults)) with
                    | Some x => Some x
                    | None => if String.eqb q k then Some w else None
                    end).
  { intros k. induction (rev (combine optional defaults)) as [|[k' x] d IHd];
      [reflexivity|].
    cbn [app dict_get]. destruct (String.eqb k' k); [reflexivity | exact IHd]. }
  rewrite Hfresh. destruct i as [|i].
  - injection Hp as <-. injection Hv as <-.
    destruct (dict_get String.eqb q (rev (combine optional defaults))) eqn:Hget.
    + exfalso. apply Hq.
      assert (Hin : dict_in String.eqb q (rev (combine optional defaults)) = true)
        by (unfold dict_in; now rewrite Hget).
      apply dict_in_keys in Hin. rewrite map_rev, combine_keys in Hin by exact Hlen.
      now apply in_rev in Hin.
    + now rewrite String.eqb_refl.
  - cbn [lookup list_lookup] in Hp, Hv. now rewrite (IH i optional Hlen Hopt' Hp Hv).
Qed.

Lemma defaults_belong_to_last_arguments_witness :
  _get_fn_arguments_with_defaults Ref.env
    (VType (TClass "sklearn.pipeline.Pipeline"))
  = ([("verbose", VBool false); ("memory", VNone)], ["self"; "steps"]).
Proof.
  apply (defaults_belong_to_last_arguments Ref.env
           (VType (TClass "sklearn.pipeline.Pipeline")) ["self"; "steps"]
           ["memory"; "verbose"] [VNone; VBool false]).
  - reflexivity.
  - reflexivity.
  - repeat (constructor; [simpl; intuition discriminate|]). constructor.
Defined.


(** ** The parameters of the flow of a model *)

Lemma extract_parameter_keys E reserved k rval ex ex' :
  extract_parameter E reserved k rval ex = Ok ex' ->
  exists stored,
    ex_parameters ex' = dict_set key_eqb (SStr k) stored (ex_parameters ex) /\
    ex_parameters_meta_info ex'
    = dict_set key_eqb (SStr k) no_meta_info (ex_parameters_meta_info ex).
Proof.
  unfold extract_parameter.
  match goal with
  | |- bind ?m _ = _ -> _ => destruct m as [[[stored subs] expl]|e]; cbn [bind]
  end; [|discriminate].
  intros [= <-]. now exists stored.
Qed.

Lemma extract_parameters_keys E reserved rvals : forall ex ex' done,
  extract_parameters E reserved rvals ex = Ok ex' ->
  ex_parameters ex = skeyed done ->
  ex_parameters_meta_info ex = skeyed (map (fun kv => (fst kv, no_meta_info)) done) ->
  List.NoDup (map fst done ++ map fst rvals) ->
  exists ps,
    ex_parameters ex' = skeyed (done ++ ps) /\
    ex_parameters_meta_info ex'
    = skeyed (map (fun kv => (fst kv, no_meta_info)) (done ++ ps)) /\
    map fst ps = map fst rvals.
Proof.
  induction rvals as [|[k r] rvals IH]; intros ex ex' done; cbn [extract_parameters].
  - intros [= <-] Hps Hms _. exists []. now rewrite app_nil_r.
  - destruct r as [rval|e]; cbn [bind]; [|discriminate].
    destruct (extract_parameter E reserved k rval ex) as [ex1|e] eqn:Hstep;
      cbn [bind]; [|discriminate].
    intros Hrest Hps Hms Hnd. cbn [map fst] in Hnd.
    destruct (extract_parameter_keys _ _ _ _ _ _ Hstep) as (stored & Hps1 & Hms1).
    assert (Hk : ~ In k (map fst done)).
    { apply NoDup_remove_2 in Hnd. intros H. apply Hnd. apply in_or_app. now left. }
    rewrite Hps, (skeyed_set_fresh k stored done Hk) in Hps1.
    rewrite Hms in Hms1.
    rewrite (skeyed_set_fresh k no_meta_info) in Hms1
      by (now rewrite map_map; cbn [fst]).
    destruct (IH ex1 ex' (done ++ [(k, stored)]) Hrest Hps1) as (ps & Hps' & Hms' & Hkeys).
    { rewrite Hms1, map_app. reflexivity. }
    { rewrite map_app. cbn [map fst]. now rewrite <- app_assoc. }
    exists ((k, stored) :: ps). rewrite <- app_assoc in Hps', Hms'.
    split; [exact Hps'|]. split; [exact Hms'|]. cbn [map fst]. now rewrite Hkeys.
Qed.

(** X18.  The parameters of the flow [model_to_flow] returns for an
    estimator are the names of the parameters of the estimator, those that
    hold components among them, in the sorted order of the names; the flow
    holds an entry without description and without data type for each of
    them, in the same order. *)
Theorem flow_parameters_are_sorted_names :
  forall (E : runtime) (cls : string) (params : list (string * pyval)) (f : flow),
  List.NoDup (map fst params) ->
  model_to_flow E (VEstimator cls params) = Ok (VFlow f) ->
  dict_keys (parameters f) = map (fun kv => SStr (fst kv)) (items_sorted params) /\
  parameters_meta_info f
  = map (fun kv => (SStr (fst kv), no_meta_info)) (items_sorted params).
Proof.
  intros E cls params f Hnd. unfold model_to_flow. cbn [_serialize_sklearn].
  destruct (_serialize_model E cls _) as [f'|e] eqn:Hf; cbn [bind]; [|discriminate].
  intros [= ->].
  destruct (serialize_model_init _ _ _ _ Hf) as (ex & nm & ev & tgs & deps & Hex & _ & Hinit).
  apply OpenMLFlow_init_ok in Hinit.
  assert (Hps : parameters f = ex_parameters ex) by (now rewrite Hinit).
  assert (Hms : parameters_meta_info f = ex_parameters_meta_info ex) by (now rewrite Hinit).
  unfold _extract_information_from_model in Hex.
  rewrite (items_sorted_map (_serialize_sklearn E)) in Hex.
  destruct (extract_parameters_keys _ _ _ _ _ [] Hex eq_refl eq_refl)
    as (ps & Hps' & Hms' & Hkeys).
  { cbn [map app]. rewrite map_map. cbn [fst]. now apply items_sorted_NoDup. }
  cbn [app] in *. rewrite map_map in Hkeys. cbn [fst] in Hkeys.
  rewrite Hps, Hms, Hps', Hms'. unfold dict_keys, skeyed. rewrite !map_map. cbn [fst snd].
  split.
  - rewrite <- (map_map fst SStr), Hkeys, map_map. reflexivity.
  - rewrite <- (map_map fst (fun k => (SStr k, no_meta_info))), Hkeys, map_map.
    reflexivity.
Qed.

Lemma flow_parameters_are_sorted_names_witness :
  dict_keys (parameters (flow_of example_dummy))
  = [SStr "constant"; SStr "random_state"; SStr "strategy"].
Proof.
  apply (flow_parameters_are_sorted_names Ref.env "sklearn.dummy.DummyClassifier"
           [("constant", VNone); ("random_state", VInt 3); ("strategy", VStr "prior")]).
  - repeat (constructor; [simpl; intuition discriminate|]). constructor.
  - vm_compute. reflexivity.
Defined.


(** ** The settings [obtain_parameter_values] returns *)

Section Settings.
Variable E : runtime.
Variable flow_dict : gmap scalar scalar.




End Settings.




(** ** What the forward walker refuses *)

Lemma item_insert_In {A} (x y : string * A) (l : list (string * A)) :
  In x (item_insert y l) <-> x = y \/ In x l.
Proof.
  induction l as [|z l IH]; cbn [item_insert In]; [intuition|].
  destruct (String.leb (fst y) (fst z)); cbn [In]; [intuition|].
  rewrite IH. intuition.
Qed.

Lemma items_sorted_In_iff {A} (x : string * A) (l : list (string * A)) :
  In x (items_sorted l) <-> In x l.
Proof.
  induction l as [|y l IH]; [reflexivity|].
  unfold items_sorted in *. cbn [fold_right In]. rewrite item_insert_In, IH. intuition.
Qed.

(** The loop of the extraction goes through every parameter. *)
Lemma extract_parameters_all E reserved rvals : forall ex ex',
  extract_parameters E reserved rvals ex = Ok ex' ->
  forall k r, In (k, r) rvals ->
  exists rval ex0 ex1, r = Ok rval /\ extract_parameter E reserved k rval ex0 = Ok ex1.
Proof.
  induction rvals as [|[k' r'] rvals IH]; intros ex ex' Hrun k r; [intros []|].
  cbn [extract_parameters] in Hrun.
  destruct r' as [rval|e]; cbn [bind] in Hrun; [|discriminate].
  destruct (extract_parameter E reserved k' rval ex) as [ex1|e] eqn:Hstep;
    cbn [bind] in Hrun; [|discriminate].
  intros [[= <- <-] | Hin].
  - now exists rval, ex, ex1.
  - exact (IH _ _ Hrun k r Hin).
Qed.

(** What [_serialize_model] needs of a parameter to return a flow. *)
Lemma serialize_model_all E cls params f :
  _serialize_model E cls (map (fun kv => (fst kv, _serialize_sklearn E (snd kv))) params)
  = Ok f ->
  forall k v, In (k, v) params ->
  exists rval ex0 ex1,
    _serialize_sklearn E v = Ok rval /\
    extract_parameter E (map fst params) k rval ex0 = Ok ex1.
Proof.
  intros Hf k v Hin.
  destruct (serialize_model_init _ _ _ _ Hf) as (ex & _ & _ & _ & _ & Hex & _).
  unfold _extract_information_from_model in Hex.
  destruct (extract_parameters_all _ _ _ _ _ Hex k (_serialize_sklearn E v))
    as (rval & ex0 & ex1 & Hr & Hstep).
  - apply items_sorted_In_iff.
    apply (in_map (fun kv => (fst kv, _serialize_sklearn E (snd kv))) params (k, v) Hin).
  - exists rval, ex0, ex1. split; [exact Hr|].
    unfold dict_keys in Hstep. rewrite map_map in Hstep. exact Hstep.
Qed.

(** X20.  [model_to_flow] returns a flow for an estimator only when every
    value of a parameter of the estimator is one the forward walker
    serializes: an object of a class it does not know, as the value of a
    parameter or inside a list, a tuple or a dictionary that is one, is
    refused. *)
Theorem flow_needs_serializable_parameters :
  forall (E : runtime) (cls : string) (params : list (string * pyval)) (f : flow),
  model_to_flow E (VEstimator cls params) = Ok (VFlow f) ->
  forall k v, In (k, v) params ->
  is_ok (_serialize_sklearn E v) = true /\
  (forall c, v <> VObject c) /\
  (forall l c, (v = VList l \/ v = VTuple l) -> ~ In (VObject c) l) /\
  (forall ordered items k' c, v = VDict ordered items -> ~ In (k', VObject c) items).
Proof.
  intros E cls params f. unfold model_to_flow. cbn [_serialize_sklearn].
  destruct (_serialize_model E cls _) as [f'|e] eqn:Hf; cbn [bind]; [|discriminate].
  intros _ k v Hin.
  destruct (serialize_model_all E cls params f' Hf k v Hin) as (rval & _ & _ & Hv & _).
  split; [now rewrite Hv|]. split; [|split].
  - intros c ->. discriminate.
  - assert (Hseq : forall l c r, In (VObject c) l ->
              sequence (map (_serialize_sklearn E) l) <> Ok r).
    { clear. induction l as [|x l IH]; intros c r Hc; [destruct Hc|].
      cbn [map sequence].
      destruct Hc as [-> | Hc]; [discriminate|].
      destruct (_serialize_sklearn E x); cbn [bind]; [|discriminate].
      destruct (sequence (map (_serialize_sklearn E) l)) as [rest|e] eqn:Hrest;
        cbn [bind]; [|discriminate].
      exfalso. exact (IH c rest Hc eq_refl). }
    intros l c [-> | ->] Hc; cbn [_serialize_sklearn] in Hv;
      destruct (sequence (map (_serialize_sklearn E) l)) as [rest|e] eqn:Hrest;
      try discriminate; exact (Hseq l c rest Hc Hrest).
  - intros ordered items k' c -> Hc. cbn [_serialize_sklearn] in Hv.
    set (entries := map (fun kv => (fst kv, snd kv, _serialize_sklearn E (snd kv))) items)
      in Hv.
    assert (Hentry : In (k', VObject c, Raise (TypeError "object cannot be serialized"))
                        entries).
    { subst entries.
      apply (in_map (fun kv => (fst kv, snd kv, _serialize_sklearn E (snd kv)))
               items (k', VObject c) Hc). }
    assert (Hitems : forall l acc r,
              In (k', VObject c, Raise (TypeError "object cannot be serialized")) l ->
              serialize_items l acc <> Ok r).
    { clear. induction l as [|[[key value] res] l IH]; intros acc r Hin; [destruct Hin|].
      cbn [serialize_items]. destruct key; try discriminate.
      destruct Hin as [[= _ _ ->] | Hin]; [discriminate|].
      destruct res; cbn [bind]; [|discriminate]. now apply IH. }
    assert (Hsorted : forall (l l' : list (pyval * pyval * result pyval)) x,
              py_items_sorted l = Ok l' -> In x l -> In x l').
    { clear.
      assert (Hins : forall (l l' : list (pyval * pyval * result pyval)) y x,
                py_item_insert y l = Ok l' -> x = y \/ In x l -> In x l').
      { induction l as [|z l IH]; intros l' y x; cbn [py_item_insert].
        - intros [= <-] [-> | []]. now left.
        - destruct (py_compare _ _) as [[| |]|]; try discriminate.
          + intros [= <-] [-> | H]; [now left | now right].
          + intros [= <-] [-> | H]; [now left | now right].
          + destruct (py_item_insert y l) as [rest|e] eqn:Hrest; cbn [bind];
              [|discriminate].
            intros [= <-] [-> | [-> | H]].
            * right. apply (IH rest y y Hrest). now left.
            * now left.
            * right. apply (IH rest y x Hrest). now right. }
      induction l as [|y l IH]; intros l' x; cbn [py_items_sorted]; [intros _ []|].
      destruct (py_items_sorted l) as [rest|e]; cbn [bind]; [|discriminate].
      intros Hinsert [-> | Hin].
      - apply (Hins rest l' x x Hinsert). now left.
      - apply (Hins rest l' y x Hinsert). right. now apply (IH rest). }
    destruct ordered.
    + cbn [bind] in Hv.
      destruct (serialize_items entries []) as [r|e] eqn:Hr; [|discriminate].
      exact (Hitems entries [] r Hentry Hr).
    + destruct (py_items_sorted entries) as [sorted|e] eqn:Hs; cbn [bind] in Hv;
        [|discriminate].
      destruct (serialize_items sorted []) as [r|e] eqn:Hr; [|discriminate].
      exact (Hitems sorted [] r (Hsorted _ _ _ Hs Hentry) Hr).
Qed.

Lemma flow_needs_serializable_parameters_witness :
  is_ok (_serialize_sklearn Ref.env
           (VList [VTuple [VStr "scaler"; example_scaler];
                   VTuple [VStr "clf"; example_one_vs_rest]])) = true.
Proof.
  apply (flow_needs_serializable_parameters Ref.env "sklearn.pipeline.Pipeline"
           [("memory", VNone);
            ("steps", VList [VTuple [VStr "scaler"; example_scaler];
                             VTuple [VStr "clf"; example_one_vs_rest]]);
            ("verbose", VBool false)]
           (flow_of example_pipeline) ltac:(vm_compute; reflexivity) "steps").
  right. now left.
Defined.

Lemma sequence_In {A B} (g : A -> result B) (l : list A) : forall r x,
  sequence (map g l) = Ok r -> In x l -> exists y, g x = Ok y /\ In y r.
Proof.
  induction l as [|a l IH]; intros r x; cbn [map sequence]; [intros _ []|].
  destruct (g a) as [b|e] eqn:Ha; cbn [bind]; [|discriminate].
  destruct (sequence (map g l)) as [rest|e] eqn:Hrest; cbn [bind]; [|discriminate].
  intros [= <-] [<- | Hin].
  - exists b. split; [exact Ha | now left].
  - destruct (IH rest x eq_refl Hin) as (y & Hy & Hyin). exists y. split; [exact Hy | now right].
Qed.

Lemma sequence_tuples E (l : list pyval) : forall r,
  forallb is_tuple l = true ->
  sequence (map (_serialize_sklearn E) l) = Ok r -> forallb is_tuple r = true.
Proof.
  induction l as [|a l IH]; intros r; cbn [map sequence forallb].
  - now intros _ [= <-].
  - intros Hall. apply andb_true_iff in Hall. destruct Hall as [Ha Hall].
    destruct (_serialize_sklearn E a) as [b|e] eqn:Hb; cbn [bind]; [|discriminate].
    destruct (sequence (map (_serialize_sklearn E) l)) as [rest|e] eqn:Hrest;
      cbn [bind]; [|discriminate].
    intros [= <-]. cbn [forallb]. rewrite (IH rest Hall eq_refl), andb_true_r.
    destruct a; try discriminate. cbn [_serialize_sklearn] in Hb.
    match type of Hb with
    | context [sequence ?x] => destruct (sequence x); cbn [bind] in Hb; [|discriminate]
    end.
    now injection Hb as <-.
Qed.

Lemma extract_sub_components_all reserved tuples : forall st st',
  extract_sub_components reserved tuples st = Ok st' ->
  forall t, In t tuples -> exists st0 st1, extract_sub_component reserved t st0 = Ok st1.
Proof.
  induction tuples as [|t' tuples IH]; intros st st' Hrun t; [intros []|].
  cbn [extract_sub_components] in Hrun.
  destruct (extract_sub_component reserved t' st) as [st1|e] eqn:Hstep;
    cbn [bind] in Hrun; [|discriminate].
  intros [<- | Hin]; [now exists st, st1 | exact (IH _ _ Hrun t Hin)].
Qed.

(** X21.  [model_to_flow] returns no flow for an estimator with a list of
    steps, each a tuple, one of which holds an estimator under the name of
    a parameter of the estimator itself: a step of a pipeline cannot be
    called [steps] or [memory]. *)
Theorem step_named_as_parameter_is_refused :
  forall (E : runtime) (cls k n c : string) (params ps : list (string * pyval))
         (steps others : list pyval),
  In (k, VList steps) params ->
  forallb is_tuple steps = true ->
  In (VTuple (VStr n :: VEstimator c ps :: others)) steps ->
  In n (map fst params) ->
  is_ok (model_to_flow E (VEstimator cls params)) = false.
Proof.
  intros E cls k n c params ps steps others Hk Htuples Hstep Hn.
  unfold model_to_flow. cbn [_serialize_sklearn].
  destruct (_serialize_model E cls _) as [f|e] eqn:Hf; cbn [bind]; [|reflexivity].
  exfalso.
  destruct (serialize_model_all E cls params f Hf k (VList steps) Hk)
    as (rval & ex0 & ex1 & Hrval & Hextract).
  cbn [_serialize_sklearn] in Hrval.
  destruct (sequence (map (_serialize_sklearn E) steps)) as [rsteps|e] eqn:Hseq;
    cbn [bind] in Hrval; [|discriminate].
  injection Hrval as <-.
  destruct (sequence_In _ _ _ _ Hseq Hstep) as (rstep & Hrstep & Hin).
  assert (Hshape : exists sub rothers, rstep = VTuple (VStr n :: VFlow sub :: rothers)).
  { cbn [_serialize_sklearn map sequence bind] in Hrstep.
    destruct (_serialize_model E c _) as [sub|e]; cbn [bind] in Hrstep; [|discriminate].
    destruct (sequence (map (_serialize_sklearn E) others)) as [rothers|e];
      cbn [bind] in Hrstep; [|discriminate].
    injection Hrstep as <-. now exists sub, rothers. }
  destruct Hshape as (sub & rothers & ->).
  pose proof (sequence_tuples E steps rsteps Htuples Hseq) as Hrtuples.
  assert (Hlol : is_non_empty_list_of_lists_with_same_type (VList rsteps) = true).
  { destruct rsteps as [|first rest]; [destruct Hin|].
    cbn [is_non_empty_list_of_lists_with_same_type].
    cbn [forallb] in Hrtuples. apply andb_true_iff in Hrtuples.
    destruct Hrtuples as [Hfirst Hrest]. destruct first; try discriminate.
    cbn [is_list_or_tuple forallb same_sequence_type andb].
    clear -Hrest. induction rest as [|x rest IH]; [reflexivity|].
    cbn [forallb] in *. apply andb_true_iff in Hrest. destruct Hrest as [Hx Hrest].
    destruct x; try discriminate. cbn [same_sequence_type andb]. now apply IH. }
  assert (Hflat : all_simple_flat (VList rsteps) = false).
  { cbn [all_simple_flat]. clear -Hin.
    induction rsteps as [|x rsteps IH]; [destruct Hin|].
    cbn [forallb]. destruct Hin as [-> | Hin].
    - cbn [all_simple_flat forallb andb]. reflexivity.
    - rewrite (IH Hin). apply andb_false_r. }
  unfold extract_parameter in Hextract. rewrite Hlol, Hflat in Hextract.
  cbn [andb negb] in Hextract.
  destruct (extract_sub_components (map fst params) rsteps _)
    as [[[pv subs] expl]|e] eqn:Hsubs; cbn [bind] in Hextract; [|discriminate].
  destruct (extract_sub_components_all _ _ _ _ Hsubs _ Hin)
    as ([[pv0 subs0] expl0] & st1 & Hone).
  unfold extract_sub_component in Hone.
  destruct (negb _) in Hone; [discriminate|].
  cbn [hashable negb] in Hone.
  assert (Hreserved : key_in py_key_eqb (VStr n) (map VStr (map fst params)) = true).
  { unfold key_in. apply existsb_exists. exists (VStr n).
    split; [now apply in_map | cbn; apply String.eqb_refl]. }
  rewrite Hreserved in Hone. discriminate.
Qed.

Lemma step_named_as_parameter_is_refused_witness :
  is_ok (model_to_flow Ref.env example_pipeline_shadowing) = false.
Proof.
  apply (step_named_as_parameter_is_refused Ref.env "sklearn.pipeline.Pipeline"
           "steps" "memory" "sklearn.multiclass.OneVsRestClassifier"
           [("memory", VNone);
            ("steps", VList [VTuple [VStr "scaler"; example_scaler];
                             VTuple [VStr "memory"; example_one_vs_rest]]);
            ("verbose", VBool false)]
           [("estimator", example_dummy); ("n_jobs", VNone)]
           [VTuple [VStr "scaler"; example_scaler];
            VTuple [VStr "memory"; example_one_vs_rest]] []).
  - right. now left.
  - reflexivity.
  - right. now left.
  - now left.
Defined.
